(** * Nexus predictive scheduler: a shallow embedding of the scheduling core

    The development follows the TypeScript sources of the scheduler:
    the EMA utilities and the heuristic predictor, the drift detector and
    the completion subscriber, the worker registry, the multi-objective
    scorer, the round-robin fallback and the dispatcher with its circuit
    breaker.

    Conventions used throughout.
    - A JavaScript [number] that carries a measurement (a duration, a load,
      a score, a sample count) is a value of [num]: an exact rational, or one
      of the special values NaN, +Infinity, -Infinity.  Rounding of binary64
      arithmetic and the sign of zero are not represented.
    - Integer counters and cursors (failure counts, the round-robin cursor,
      the completion counter) and instants in epoch milliseconds are [Z].
    - [new Date()] reads a clock: every operation that reads it takes the
      instant [now] as an argument.
    - Awaited calls to collaborators (predictor, Redis) are functions of the
      environment record handed to the operation; what the operation does to
      the outside world is returned as a list of [effect]s, oldest first.
    - A string is the sequence of bytes of its UTF-8 encoding.
    - A number read from text ([parseInt], the conversion of a string, a
      JSON number) is the binary64 value nearest to what is written;
      arithmetic on numbers is exact.
    - A console line is recorded with the fixed text of its template; the
      interpolated values and the error object are not part of it. *)

From Stdlib Require Import QArith Qabs Lqa ZArith Lia List Bool Ascii String.
From stdpp Require Import base option list strings gmap.

Local Open Scope Z_scope.
Local Open Scope string_scope.
Local Open Scope list_scope.

(* ===================================================================== *)
(** ** JavaScript numbers *)
(* ===================================================================== *)

Module JS.

Inductive num : Type :=
| NaN
| PInf
| NInf
| Fin (q : Q).

Definition zero : num := Fin 0%Q.
Definition one : num := Fin 1%Q.

Definition of_Z (z : Z) : num := Fin (inject_Z z).

(** Sign of a rational, as the comparison of zero with it: [Lt] for a
    positive rational, [Gt] for a negative one. *)
Definition Qsign (q : Q) : comparison := (0 ?= q)%Q.

Definition neg (a : num) : num :=
  match a with
  | NaN => NaN
  | PInf => NInf
  | NInf => PInf
  | Fin q => Fin (- q)%Q
  end.

Definition add (a b : num) : num :=
  match a, b with
  | NaN, _ | _, NaN => NaN
  | PInf, NInf | NInf, PInf => NaN
  | PInf, _ | _, PInf => PInf
  | NInf, _ | _, NInf => NInf
  | Fin x, Fin y => Fin (x + y)%Q
  end.

Definition sub (a b : num) : num := add a (neg b).

(** An infinity scaled by a finite factor. *)
Definition scale_inf (positive : bool) (q : Q) : num :=
  match Qsign q with
  | Eq => NaN
  | Lt => if positive then PInf else NInf
  | Gt => if positive then NInf else PInf
  end.

Definition mul (a b : num) : num :=
  match a, b with
  | NaN, _ | _, NaN => NaN
  | PInf, PInf | NInf, NInf => PInf
  | PInf, NInf | NInf, PInf => NInf
  | PInf, Fin q | Fin q, PInf => scale_inf true q
  | NInf, Fin q | Fin q, NInf => scale_inf false q
  | Fin x, Fin y => Fin (x * y)%Q
  end.

Definition div (a b : num) : num :=
  match a, b with
  | NaN, _ | _, NaN => NaN
  | (PInf | NInf), (PInf | NInf) => NaN
  | PInf, Fin q => match Qsign q with Gt => NInf | _ => PInf end
  | NInf, Fin q => match Qsign q with Gt => PInf | _ => NInf end
  | Fin _, (PInf | NInf) => zero
  | Fin x, Fin y =>
      match Qsign y with
      | Eq => match Qsign x with Eq => NaN | Lt => PInf | Gt => NInf end
      | _ => Fin (x / y)%Q
      end
  end.

(** [a < b]; every comparison with NaN is false. *)
Definition ltb (a b : num) : bool :=
  match a, b with
  | NaN, _ | _, NaN => false
  | _, NInf => false
  | NInf, _ => true
  | PInf, _ => false
  | _, PInf => true
  | Fin x, Fin y => match (x ?= y)%Q with Lt => true | _ => false end
  end.

(** [a === b] on numbers. *)
Definition eqb (a b : num) : bool :=
  match a, b with
  | NaN, _ | _, NaN => false
  | PInf, PInf | NInf, NInf => true
  | Fin x, Fin y => Qeq_bool x y
  | _, _ => false
  end.

Definition leb (a b : num) : bool := ltb a b || eqb a b.
Definition gtb (a b : num) : bool := ltb b a.
Definition geb (a b : num) : bool := leb b a.

Definition is_nan (a : num) : bool :=
  match a with NaN => true | _ => false end.

(** ToBoolean on a number: NaN and zero are falsy. *)
Definition truthy (a : num) : bool :=
  match a with
  | NaN => false
  | Fin q => negb (Qeq_bool q 0)
  | _ => true
  end.

(** [Math.min(a, b)] and [Math.max(a, b)]: NaN if either argument is. *)
Definition Math_min (a b : num) : num :=
  if is_nan a || is_nan b then NaN else if ltb b a then b else a.

Definition Math_max (a b : num) : num :=
  if is_nan a || is_nan b then NaN else if ltb a b then b else a.

Definition Math_abs (a : num) : num :=
  match a with
  | NaN => NaN
  | PInf | NInf => PInf
  | Fin q => Fin (Qabs q)
  end.

(** [a || b] on numbers. *)
Definition or_else (a b : num) : num := if truthy a then a else b.

(** ToBoolean on a string: only the empty string is falsy. *)
Definition truthy_str (s : string) : bool :=
  match s with EmptyString => false | _ => true end.

End JS.

Export JS.

Declare Scope num_scope.
Delimit Scope num_scope with num.
Bind Scope num_scope with num.
Infix "+" := JS.add : num_scope.
Infix "-" := JS.sub : num_scope.
Infix "*" := JS.mul : num_scope.
Infix "/" := JS.div : num_scope.
Infix "<?" := JS.ltb : num_scope.
Infix "<=?" := JS.leb : num_scope.
Infix ">?" := JS.gtb : num_scope.
Infix ">=?" := JS.geb : num_scope.
Infix "=?" := JS.eqb : num_scope.

(** Decimal literals of the sources. *)
Definition dec (n : Z) (d : positive) : num := Fin (n # d).

(* ===================================================================== *)
(** ** Values thrown and outcomes of awaited calls *)
(* ===================================================================== *)

(** What a [catch (err)] clause may receive: an [Error] object with its
    message, or any other value. *)
Inductive thrown : Type :=
| ErrorObject (message : string)
| OtherValue.

(** Outcome of an awaited Redis command. *)
Inductive RedisOutcome : Type :=
| RedisOk
| RedisThrows (err : thrown).

(** A [Date]: built from the clock or from epoch milliseconds, or by the
    host's parsing of a string (kept symbolic). *)
Inductive Date : Type :=
| DateAt (ms : Z)
| DateOfString (text : string).

(** Result of an async method: the value it resolves to, or the rejection. *)
Inductive async_result (A : Type) : Type :=
| Resolved (a : A)
| Rejected (err : thrown).
Arguments Resolved {A} a.
Arguments Rejected {A} err.

(* ===================================================================== *)
(** ** predictor/ema.ts *)
(* ===================================================================== *)

Module Ema.

Record EMAState : Type := mkEMAState {
  taskType : string;
  ema : num;
  sampleCount : num;
  lastUpdated : Date;
}.

(** newEMA = alpha * actual + (1 - alpha) * previousEMA *)
Definition updateEMA (current actual alpha : num) : num :=
  (alpha * actual + (JS.one - alpha) * current)%num.

(** The [threshold] parameter has the default 100 in the source; every
    caller in the scheduler passes it. *)
Definition calculateConfidence (sampleCount threshold : num) : num :=
  Math_min JS.one (sampleCount / threshold)%num.

Definition initializeEMA (taskType : string) (initialValue : num) (now : Z)
  : EMAState :=
  {| taskType := taskType;
     ema := initialValue;
     sampleCount := JS.zero;
     lastUpdated := DateAt now |}.

Definition updateEMAState (state : EMAState) (actual alpha : num) (now : Z)
  : EMAState :=
  {| taskType := taskType state;
     ema := if (sampleCount state =? JS.zero)%num
            then actual
            else updateEMA (ema state) actual alpha;
     sampleCount := (sampleCount state + JS.one)%num;
     lastUpdated := DateAt now |}.

End Ema.

(* ===================================================================== *)
(** ** interfaces/types.ts: tasks and predictions *)
(* ===================================================================== *)

(** JSON values as [JSON.parse] returns them.  A number keeps its literal. *)
#[warnings="-register-all"]
Inductive json : Type :=
| JNull
| JBool (b : bool)
| JNumber (literal : string)
| JString (s : string)
| JArray (items : list json)
| JObject (members : list (string * json)).

(** TaskMetadata; its other optional members (estimatedDurationMs,
    maxRetries, timeout) are read by no operation below and are left out. *)
Record TaskMetadata : Type := mkTaskMetadata {
  requiredCapabilities : option (list string);
}.

Record Task : Type := mkTask {
  task_id : string;
  task_type : string;
  task_payload : json;
  task_priority : num;
  task_createdAt : Date;
  task_metadata : option TaskMetadata;
}.

Record TaskPrediction : Type := mkTaskPrediction {
  pred_taskId : string;
  recommendedWorkerId : string;
  confidence : num;
  estimatedDurationMs : num;
}.

(** [task.metadata?.requiredCapabilities] *)
Definition task_capabilities (task : Task) : option (list string) :=
  task_metadata task ≫= requiredCapabilities.

(* ===================================================================== *)
(** ** predictor/persistence.ts and predictor/heuristic-predictor.ts *)
(* ===================================================================== *)

Module HeuristicPredictor.
Import Ema.

Record HeuristicPredictorConfig : Type := mkConfig {
  alpha : num;
  defaultDurationMs : num;
  confidenceThreshold : num;
  redisKey : option string;
  snapshotInterval : option Z;
}.

(** DEFAULT_PREDICTOR_CONFIG sets neither [redisKey] nor
    [snapshotInterval]: in a configuration merged from it they are
    undefined unless the caller gives them. *)
Definition DEFAULT_PREDICTOR_CONFIG : HeuristicPredictorConfig :=
  {| alpha := dec 3 10;
     defaultDurationMs := JS.of_Z 5000;
     confidenceThreshold := JS.of_Z 100;
     redisKey := None;
     snapshotInterval := None |}.

(** PersistenceConfig as it is at run time: a member can hold undefined. *)
Record PersistenceConfig : Type := mkPersistenceConfig {
  p_redisKey : option string;
  p_snapshotInterval : option Z;
}.

Definition DEFAULT_PERSISTENCE_CONFIG : PersistenceConfig :=
  {| p_redisKey := Some "scheduler:predictions";
     p_snapshotInterval := Some 100 |}.

(** The object handed to [new PredictionPersistence]: for each member,
    [None] when the object has no such property and [Some v] when it has
    one, [v] being its value or undefined. *)
Record PersistenceOptions : Type := mkPersistenceOptions {
  opt_redisKey : option (option string);
  opt_snapshotInterval : option (option Z);
}.

(** PredictionPersistence: its configuration, the connection flag and the
    snapshot counter. *)
Record Persistence : Type := mkPersistence {
  connected : bool;
  updatesSinceSnapshot : Z;
  persistenceConfig : PersistenceConfig;
}.

(** [new PredictionPersistence(options)]: the configuration is
    [{...DEFAULT_PERSISTENCE_CONFIG, ...options}], in which every property
    that [options] has replaces the default, also when its value is
    undefined. *)
Definition newPersistence (options : PersistenceOptions) : Persistence :=
  {| connected := false;
     updatesSinceSnapshot := 0;
     persistenceConfig :=
       {| p_redisKey :=
            default (p_redisKey DEFAULT_PERSISTENCE_CONFIG) (opt_redisKey options);
          p_snapshotInterval :=
            default (p_snapshotInterval DEFAULT_PERSISTENCE_CONFIG)
                    (opt_snapshotInterval options) |} |}.

Record t : Type := mkPredictor {
  predictions : gmap string EMAState;
  config : HeuristicPredictorConfig;
  persistence : Persistence;
  ready : bool;
}.

(** The predictor as constructed from the merged configuration [cfg],
    before [initialize].  The constructor hands [redisKey] and
    [snapshotInterval] on as properties of the options object whether or
    not they are defined. *)
Definition create (cfg : HeuristicPredictorConfig) : t :=
  {| predictions := ∅;
     config := cfg;
     persistence :=
       newPersistence {| opt_redisKey := Some (redisKey cfg);
                         opt_snapshotInterval := Some (snapshotInterval cfg) |};
     ready := false |}.

(** [RedisSet] is [client.set(key, JSON.stringify(serialized))]; the key
    is undefined when the configuration has none. *)
Inductive effect : Type :=
| ConsoleWarn (text : string)
| RedisSet (key : option string) (snapshot : gmap string EMAState) (savedAt : Z).

(** PredictionPersistence.save; [set_outcome] is what [client.set] does. *)
Definition save (set_outcome : RedisOutcome) (ps : Persistence)
    (preds : gmap string EMAState) (now : Z)
  : Persistence * list effect * async_result unit :=
  if negb (connected ps) then
    (ps, [ConsoleWarn "Cannot save predictions: not connected to Redis"],
     Resolved tt)
  else
    let write := RedisSet (p_redisKey (persistenceConfig ps)) preds now in
    match set_outcome with
    | RedisThrows e => (ps, [write], Rejected e)
    | RedisOk =>
        ({| connected := connected ps; updatesSinceSnapshot := 0;
            persistenceConfig := persistenceConfig ps |},
         [write], Resolved tt)
    end.

(** PredictionPersistence.trackUpdate.  The comparison
    [updatesSinceSnapshot >= snapshotInterval] is false when the interval is
    undefined. *)
Definition trackUpdate (set_outcome : RedisOutcome) (ps : Persistence)
    (preds : gmap string EMAState) (now : Z)
  : Persistence * list effect * async_result unit :=
  let ps1 := {| connected := connected ps;
                updatesSinceSnapshot := updatesSinceSnapshot ps + 1;
                persistenceConfig := persistenceConfig ps |} in
  match p_snapshotInterval (persistenceConfig ps) with
  | Some interval =>
      if (interval <=? updatesSinceSnapshot ps1)%Z
      then save set_outcome ps1 preds now
      else (ps1, [], Resolved tt)
  | None => (ps1, [], Resolved tt)
  end.

(** HeuristicPredictor.predict *)
Definition predict (p : t) (task : Task) : TaskPrediction :=
  match predictions p !! task_type task with
  | Some state =>
      {| pred_taskId := task_id task;
         recommendedWorkerId := EmptyString;
         confidence :=
           calculateConfidence (sampleCount state)
                               (confidenceThreshold (config p));
         estimatedDurationMs := ema state |}
  | None =>
      {| pred_taskId := task_id task;
         recommendedWorkerId := EmptyString;
         confidence := JS.zero;
         estimatedDurationMs := defaultDurationMs (config p) |}
  end.

(** HeuristicPredictor.feedback.  [taskType] is the optional last parameter;
    the first three parameters of the source are not read. *)
Definition feedback (set_outcome : RedisOutcome) (p : t)
    (actualDurationMs : num) (taskType : option string) (now : Z)
  : t * list effect * async_result unit :=
  match taskType with
  | None | Some EmptyString =>
      (p, [ConsoleWarn "Feedback received without task type, ignoring"],
       Resolved tt)
  | Some ty =>
      let state :=
        match predictions p !! ty with
        | Some s => s
        | None => initializeEMA ty (defaultDurationMs (config p)) now
        end in
      let updated := updateEMAState state actualDurationMs (alpha (config p)) now in
      let preds := <[ty := updated]> (predictions p) in
      if connected (persistence p) then
        let '(ps, effs, res) :=
          trackUpdate set_outcome (persistence p) preds now in
        ({| predictions := preds; config := config p;
            persistence := ps; ready := ready p |}, effs, res)
      else
        ({| predictions := preds; config := config p;
            persistence := persistence p; ready := ready p |}, [], Resolved tt)
  end.

End HeuristicPredictor.

(* ===================================================================== *)
(** ** feedback/drift-detector.ts *)
(* ===================================================================== *)

Module DriftDetector.

Record DriftConfig : Type := mkDriftConfig {
  lowerThreshold : num;
  upperThreshold : num;
}.

Definition DEFAULT_DRIFT_CONFIG : DriftConfig :=
  {| lowerThreshold := dec 5 10; upperThreshold := dec 20 10 |}.

Inductive Severity : Type := none | minor | major.

(** The four message templates; the formatted text is not built. *)
Inductive DriftMessage : Type :=
| InvalidPrediction
| PredictionAccurate (ratio : num)
| Underprediction (actual predicted ratio : num)
| Overprediction (actual predicted ratio : num).

Record DriftResult : Type := mkDriftResult {
  isDrift : bool;
  ratio : num;
  severity : Severity;
  message : DriftMessage;
}.

Definition detectDrift (predicted actual : num) (config : DriftConfig)
  : DriftResult :=
  if (predicted <=? JS.zero)%num then
    {| isDrift := true;
       ratio := PInf;
       severity := major;
       message := InvalidPrediction |}
  else
    let ratio := (actual / predicted)%num in
    let isDrift :=
      (ratio <? lowerThreshold config)%num || (ratio >? upperThreshold config)%num in
    let severity :=
      if isDrift then
        if (ratio <? dec 33 100)%num || (ratio >? dec 30 10)%num
        then major else minor
      else none in
    let message :=
      if negb isDrift then PredictionAccurate ratio
      else if (actual >? predicted)%num then Underprediction actual predicted ratio
      else Overprediction actual predicted ratio in
    {| isDrift := isDrift; ratio := ratio;
       severity := severity; message := message |}.

Definition calculateDeviation (predicted actual : num) : num :=
  if (predicted =? JS.zero)%num
  then (if (actual =? JS.zero)%num then JS.zero else JS.one)
  else (Math_abs (actual - predicted) / predicted)%num.

(** The [threshold] parameter has the default 0.25 in the source. *)
Definition isWithinThreshold (predicted actual threshold : num) : bool :=
  (calculateDeviation predicted actual <=? threshold)%num.

End DriftDetector.

(* ===================================================================== *)
(** ** feedback/accuracy-tracker.ts *)
(* ===================================================================== *)

Module AccuracyTracker.
Import DriftDetector.

Record PredictionSample : Type := mkSample {
  s_taskType : string;
  s_predicted : num;
  s_actual : num;
  s_timestamp : Z;
  s_withinThreshold : bool;
}.

Record AccuracyStats : Type := mkStats {
  total : Z;
  withinThreshold : Z;
  accuracy : num;
  avgDeviation : num;
  taskTypes : Z;
}.

Record AccuracyTrackerConfig : Type := mkTrackerConfig {
  windowSize : Z;
  accuracyThreshold : num;
}.

Definition DEFAULT_ACCURACY_CONFIG : AccuracyTrackerConfig :=
  {| windowSize := 1000; accuracyThreshold := dec 25 100 |}.

(** The tracker: its samples, oldest first, and its configuration. *)
Record t : Type := mkTracker {
  samples : list PredictionSample;
  config : AccuracyTrackerConfig;
}.

Definition record (tr : t) (taskType : string) (predicted actual : num)
    (now : Z) : t :=
  let sample :=
    {| s_taskType := taskType; s_predicted := predicted; s_actual := actual;
       s_timestamp := now;
       s_withinThreshold :=
         isWithinThreshold predicted actual (accuracyThreshold (config tr)) |} in
  let pushed := samples tr ++ [sample] in
  {| samples := if (windowSize (config tr) <? Z.of_nat (length pushed))%Z
                then tail pushed else pushed;
     config := config tr |}.

Definition getStats (tr : t) : AccuracyStats :=
  match samples tr with
  | [] => {| total := 0; withinThreshold := 0; accuracy := JS.zero;
             avgDeviation := JS.zero; taskTypes := 0 |}
  | _ =>
      let n := Z.of_nat (length (samples tr)) in
      let within :=
        Z.of_nat (length (filter (fun s => s_withinThreshold s = true) (samples tr))) in
      let types := Z.of_nat (length (remove_dups (s_taskType <$> samples tr))) in
      let totalDeviation :=
        fold_left
          (fun sum s =>
             (sum + Math_abs (s_actual s - s_predicted s)
                    / Math_max (s_predicted s) JS.one)%num)
          (samples tr) JS.zero in
      {| total := n; withinThreshold := within;
         accuracy := (JS.of_Z within / JS.of_Z n)%num;
         avgDeviation := (totalDeviation / JS.of_Z n)%num;
         taskTypes := types |}
  end.

Definition isAccuracyBelowTarget (tr : t) (target : num) : bool :=
  let stats := getStats tr in
  (0 <? total stats)%Z && (accuracy stats <? target)%num.

End AccuracyTracker.

(* ===================================================================== *)
(** ** feedback/completion-subscriber.ts *)
(* ===================================================================== *)

Module CompletionSubscriber.
Import DriftDetector.

Record TaskCompletion : Type := mkCompletion {
  c_taskId : string;
  c_taskType : string;
  c_workerId : string;
  c_startedAt : Date;
  c_completedAt : Date;
  durationMs : num;
  c_success : bool;
  predictedDurationMs : option num;
}.

Record CompletionSubscriberConfig : Type := mkSubConfig {
  drift : DriftConfig;
  accuracyWindowSize : Z;
  accuracyThreshold : num;
}.

Definition DEFAULT_COMPLETION_CONFIG : CompletionSubscriberConfig :=
  {| drift := DEFAULT_DRIFT_CONFIG;
     accuracyWindowSize := 1000;
     accuracyThreshold := dec 25 100 |}.

Inductive FeedbackEvent : Type :=
| drift_detected (taskType : string) (drift : DriftResult)
| prediction_updated (taskType : string) (predicted actual : num)
| accuracy_warning (stats : AccuracyTracker.AccuracyStats).

Inductive effect : Type :=
| ConsoleWarn (text : string)
| Emit (event : FeedbackEvent)
| PredictorFeedback (taskId workerId : string) (success : bool)
                    (actualDurationMs : num) (taskType : string).

(** [hasFeedback] tells whether a predictor with a [feedback] method is set. *)
Record t : Type := mkSubscriber {
  hasFeedback : bool;
  accuracyTracker : AccuracyTracker.t;
  config : CompletionSubscriberConfig;
  isRunning : bool;
  completionCount : Z;
}.

Definition create (cfg : CompletionSubscriberConfig) : t :=
  {| hasFeedback := false;
     accuracyTracker :=
       {| AccuracyTracker.samples := [];
          AccuracyTracker.config :=
            {| AccuracyTracker.windowSize := accuracyWindowSize cfg;
               AccuracyTracker.accuracyThreshold := accuracyThreshold cfg |} |};
     config := cfg;
     isRunning := false;
     completionCount := 0 |}.

Definition checkAccuracy (s : t) : list effect :=
  if AccuracyTracker.isAccuracyBelowTarget (accuracyTracker s) (dec 8 10)
  then [ConsoleWarn "[Feedback] Accuracy below 80%";
        Emit (accuracy_warning (AccuracyTracker.getStats (accuracyTracker s)))]
  else [].

(** The drift step of [processCompletion]: guarded by
    [predicted && predicted > 0]. *)
Definition driftStep (s : t) (completion : TaskCompletion) (now : Z)
  : t * list effect :=
  match predictedDurationMs completion with
  | Some predicted =>
      if JS.truthy predicted && (predicted >? JS.zero)%num then
        let d := detectDrift predicted (durationMs completion) (drift (config s)) in
        let effs :=
          if isDrift d
          then [ConsoleWarn "[Feedback] Drift detected";
                Emit (drift_detected (c_taskType completion) d)]
          else [] in
        ({| hasFeedback := hasFeedback s;
            accuracyTracker :=
              AccuracyTracker.record (accuracyTracker s) (c_taskType completion)
                                     predicted (durationMs completion) now;
            config := config s;
            isRunning := isRunning s;
            completionCount := completionCount s |}, effs)
      else (s, [])
  | None => (s, [])
  end.

(** [feedback_outcome] is how the predictor's [feedback] settles. *)
Definition processCompletion (feedback_outcome : async_result unit) (s : t)
    (completion : TaskCompletion) (now : Z)
  : t * list effect * async_result unit :=
  if negb (isRunning s) then (s, [], Resolved tt)
  else
    let s1 := {| hasFeedback := hasFeedback s;
                 accuracyTracker := accuracyTracker s;
                 config := config s;
                 isRunning := isRunning s;
                 completionCount := completionCount s + 1 |} in
    let '(s2, drift_effs) := driftStep s1 completion now in
    let call :=
      PredictorFeedback (c_taskId completion) (c_workerId completion)
                        (c_success completion) (durationMs completion)
                        (c_taskType completion) in
    let updated :=
      Emit (prediction_updated
              (c_taskType completion)
              (match predictedDurationMs completion with
               | Some p => JS.or_else p JS.zero
               | None => JS.zero
               end)
              (durationMs completion)) in
    let periodic :=
      if (Z.rem (completionCount s2) 100 =? 0)%Z then checkAccuracy s2 else [] in
    if hasFeedback s2 then
      match feedback_outcome with
      | Rejected e => (s2, drift_effs ++ [call], Rejected e)
      | Resolved _ => (s2, drift_effs ++ [call; updated] ++ periodic, Resolved tt)
      end
    else (s2, drift_effs ++ periodic, Resolved tt).

End CompletionSubscriber.

(* ===================================================================== *)
(** ** interfaces/types.ts: workers and decisions *)
(* ===================================================================== *)

Inductive WorkerStatus : Type := idle | busy | draining | offline.

Definition WorkerStatus_eqb (a b : WorkerStatus) : bool :=
  match a, b with
  | idle, idle | busy, busy | draining, draining | offline, offline => true
  | _, _ => false
  end.

(** WorkerState; the optional descriptive [metadata] (hostname, version,
    tags) is read by no operation below and is left out. *)
Record WorkerState : Type := mkWorker {
  w_id : string;
  w_status : WorkerStatus;
  w_capabilities : list string;
  currentLoad : num;
  lastHeartbeat : Z;
  activeTasks : num;
  maxConcurrency : num;
}.

Inductive SchedulingReason : Type :=
| prediction
| fallback_round_robin
| fallback_circuit_breaker
| capability_match
| load_balance.

Record SchedulingDecision : Type := mkDecision {
  d_taskId : string;
  d_workerId : string;
  d_timestamp : Z;
  usedFallback : bool;
  d_prediction : option TaskPrediction;
  reason : SchedulingReason;
}.

(** [capabilities.every((cap) => worker.capabilities.includes(cap))] *)
Definition hasCapabilities (worker : WorkerState) (capabilities : list string)
  : bool :=
  forallb (fun cap => existsb (String.eqb cap) (w_capabilities worker))
          capabilities.

(* ===================================================================== *)
(** ** A JavaScript [Map] with string keys: entries in insertion order *)
(* ===================================================================== *)

Module OMap.
Section OMap.
Context {V : Type}.

Definition t := list (string * V).

Fixpoint get (k : string) (m : t) : option V :=
  match m with
  | [] => None
  | (k', v) :: rest => if String.eqb k k' then Some v else get k rest
  end.

(** [set] keeps the position of a key that is already present and appends
    a new key. *)
Fixpoint set (k : string) (v : V) (m : t) : t :=
  match m with
  | [] => [(k, v)]
  | (k', v') :: rest =>
      if String.eqb k k' then (k, v) :: rest else (k', v') :: set k v rest
  end.

Fixpoint delete (k : string) (m : t) : t :=
  match m with
  | [] => []
  | (k', v') :: rest =>
      if String.eqb k k' then rest else (k', v') :: delete k rest
  end.

Definition has (k : string) (m : t) : bool :=
  match get k m with Some _ => true | None => false end.

Definition values (m : t) : list V := snd <$> m.
Definition keys (m : t) : list string := fst <$> m.
End OMap.
Arguments t V : clear implicits.
End OMap.

(* ===================================================================== *)
(** ** registry/worker-registry.ts *)
(* ===================================================================== *)

Module WorkerRegistry.

Record t : Type := mkRegistry {
  workers : OMap.t WorkerState;
  heartbeatTimeoutMs : Z;
}.

(** [new WorkerRegistry(heartbeatTimeoutMs = 30000)] *)
Definition create (heartbeatTimeoutMs : Z) : t :=
  {| workers := []; heartbeatTimeoutMs := heartbeatTimeoutMs |}.

Definition with_workers (r : t) (ws : OMap.t WorkerState) : t :=
  {| workers := ws; heartbeatTimeoutMs := heartbeatTimeoutMs r |}.

Definition register (r : t) (worker : WorkerState) (now : Z) : t :=
  with_workers r
    (OMap.set (w_id worker)
       {| w_id := w_id worker;
          w_status := w_status worker;
          w_capabilities := w_capabilities worker;
          currentLoad := currentLoad worker;
          lastHeartbeat := now;
          activeTasks := activeTasks worker;
          maxConcurrency := maxConcurrency worker |}
       (workers r)).

Definition unregister (r : t) (workerId : string) : t * bool :=
  (with_workers r (OMap.delete workerId (workers r)),
   OMap.has workerId (workers r)).

Definition get (r : t) (workerId : string) : option WorkerState :=
  OMap.get workerId (workers r).

(** A method that mutates the worker found under [workerId], if any. *)
Definition mutate (r : t) (workerId : string)
    (f : WorkerState -> WorkerState) : t * bool :=
  match OMap.get workerId (workers r) with
  | None => (r, false)
  | Some worker => (with_workers r (OMap.set workerId (f worker) (workers r)), true)
  end.

Definition heartbeat (r : t) (workerId : string) (now : Z) : t * bool :=
  mutate r workerId (fun worker =>
    {| w_id := w_id worker;
       w_status := w_status worker;
       w_capabilities := w_capabilities worker;
       currentLoad := currentLoad worker;
       lastHeartbeat := now;
       activeTasks := activeTasks worker;
       maxConcurrency := maxConcurrency worker |}).

Definition set_status (status : WorkerStatus) (worker : WorkerState)
  : WorkerState :=
  {| w_id := w_id worker;
     w_status := status;
     w_capabilities := w_capabilities worker;
     currentLoad := currentLoad worker;
     lastHeartbeat := lastHeartbeat worker;
     activeTasks := activeTasks worker;
     maxConcurrency := maxConcurrency worker |}.

Definition updateStatus (r : t) (workerId : string) (status : WorkerStatus)
  : t * bool :=
  mutate r workerId (set_status status).

Definition updateLoad (r : t) (workerId : string) (load activeTasks' : num)
  : t * bool :=
  mutate r workerId (fun worker =>
    {| w_id := w_id worker;
       w_status := w_status worker;
       w_capabilities := w_capabilities worker;
       currentLoad := Math_max JS.zero (Math_min JS.one load);
       lastHeartbeat := lastHeartbeat worker;
       activeTasks := activeTasks';
       maxConcurrency := maxConcurrency worker |}).

(** One turn of the loop body of [getAvailable]: is the worker kept? *)
Definition isAvailable (r : t) (capabilities : option (list string))
    (now : Z) (worker : WorkerState) : bool :=
  if WorkerStatus_eqb (w_status worker) offline
     || WorkerStatus_eqb (w_status worker) draining then false
  else if (heartbeatTimeoutMs r <? now - lastHeartbeat worker)%Z then false
  else if (activeTasks worker >=? maxConcurrency worker)%num then false
  else match capabilities with
       | Some (cap :: caps) => hasCapabilities worker (cap :: caps)
       | _ => true
       end.

Definition getAvailable (r : t) (capabilities : option (list string))
    (now : Z) : list WorkerState :=
  List.filter (isAvailable r capabilities now) (OMap.values (workers r)).

Definition getAll (r : t) : list WorkerState := OMap.values (workers r).

Definition size (r : t) : nat := length (workers r).

Definition isStale (r : t) (now : Z) (worker : WorkerState) : bool :=
  (heartbeatTimeoutMs r <? now - lastHeartbeat worker)%Z.

Definition pruneStale (r : t) (now : Z) : t * list string :=
  (with_workers r
     ((fun kv : string * WorkerState =>
         if isStale r now (snd kv)
         then (fst kv, set_status offline (snd kv)) else kv) <$> workers r),
   fst <$> List.filter (fun kv => isStale r now (snd kv)) (workers r)).

Definition clear (r : t) : t := with_workers r [].

End WorkerRegistry.

(* ===================================================================== *)
(** ** scorer/objectives.ts *)
(* ===================================================================== *)

Module Objectives.

Definition DEFAULT_MAX_WAIT_MS : num := JS.of_Z 60000.
Definition DEFAULT_MAX_PRIORITY : num := JS.of_Z 10.

Definition calculateWaitScore (estimatedWaitMs maxWaitMs : num) : num :=
  if (estimatedWaitMs <=? JS.zero)%num then JS.one
  else if (estimatedWaitMs >=? maxWaitMs)%num then JS.zero
  else (JS.one - estimatedWaitMs / maxWaitMs)%num.

Definition calculateLoadScore (currentLoad : num) : num :=
  let clampedLoad := Math_max JS.zero (Math_min JS.one currentLoad) in
  (JS.one - clampedLoad)%num.

Definition calculatePriorityScore (priority maxPriority : num) : num :=
  if (priority <=? JS.zero)%num then JS.zero
  else if (priority >=? maxPriority)%num then JS.one
  else (priority / maxPriority)%num.

(** [prediction?.estimatedDurationMs ?? 5000] times the active tasks. *)
Definition estimateWaitTime (worker : WorkerState)
    (prediction : option TaskPrediction) : num :=
  let estimatedDuration :=
    match prediction with
    | Some p => estimatedDurationMs p
    | None => JS.of_Z 5000
    end in
  (activeTasks worker * estimatedDuration)%num.

Definition isWorkerEligible (worker : WorkerState)
    (requiredCapabilities : option (list string)) : bool :=
  if WorkerStatus_eqb (w_status worker) offline
     || WorkerStatus_eqb (w_status worker) draining then false
  else if (activeTasks worker >=? maxConcurrency worker)%num then false
  else match requiredCapabilities with
       | Some (cap :: caps) => hasCapabilities worker (cap :: caps)
       | _ => true
       end.

End Objectives.

(* ===================================================================== *)
(** ** [Array.prototype.sort] with a comparator *)
(* ===================================================================== *)

(** The sort is stable.  It is modelled as a stable insertion sort; the
    comparator returns a number and [a] goes after [b] when
    [compareFn(a, b) > 0].  Any stable sort returns the same array when the
    comparator is a consistent ordering. *)
Module ArraySort.
Section ArraySort.
Context {A : Type} (compareFn : A -> A -> num).

Fixpoint insert (x : A) (sorted : list A) : list A :=
  match sorted with
  | [] => [x]
  | y :: rest =>
      if (compareFn x y >? JS.zero)%num
      then y :: insert x rest
      else x :: y :: rest
  end.

Fixpoint sort (l : list A) : list A :=
  match l with
  | [] => []
  | x :: rest => insert x (sort rest)
  end.
End ArraySort.
End ArraySort.

(* ===================================================================== *)
(** ** scorer/scorer.ts *)
(* ===================================================================== *)

Module MultiObjectiveScorer.
Import Objectives.

Record ScoringWeights : Type := mkWeights {
  wait : num;
  load : num;
  priority : num;
}.

Definition DEFAULT_SCORING_WEIGHTS : ScoringWeights :=
  {| wait := dec 4 10; load := dec 4 10; priority := dec 2 10 |}.

Record ScorerConfig : Type := mkScorerConfig {
  weights : ScoringWeights;
  maxWaitMs : num;
  maxPriority : num;
}.

Definition DEFAULT_SCORER_CONFIG : ScorerConfig :=
  {| weights := DEFAULT_SCORING_WEIGHTS;
     maxWaitMs := DEFAULT_MAX_WAIT_MS;
     maxPriority := DEFAULT_MAX_PRIORITY |}.

Record Breakdown : Type := mkBreakdown {
  waitScore : num;
  loadScore : num;
  priorityScore : num;
}.

Record WorkerScore : Type := mkWorkerScore {
  ws_workerId : string;
  ws_score : num;
  breakdown : Breakdown;
}.

(** The reasoning text is a template over these values; they are kept
    instead of the formatted string. *)
Record Reasoning : Type := mkReasoning {
  r_best : WorkerScore;
  r_taskId : string;
  r_priority : num;
}.

Record ScoringResult : Type := mkScoringResult {
  workerId : string;
  score_value : num;
  reasoning : Reasoning;
  alternatives : list WorkerScore;
}.

Definition scoreWorker (config : ScorerConfig) (task : Task)
    (worker : WorkerState) (prediction : option TaskPrediction) : WorkerScore :=
  let estimatedWaitMs := estimateWaitTime worker prediction in
  let waitScore := calculateWaitScore estimatedWaitMs (maxWaitMs config) in
  let loadScore := calculateLoadScore (currentLoad worker) in
  let priorityScore :=
    calculatePriorityScore (task_priority task) (maxPriority config) in
  let score :=
    (wait (weights config) * waitScore
     + load (weights config) * loadScore
     + priority (weights config) * priorityScore)%num in
  {| ws_workerId := w_id worker;
     ws_score := score;
     breakdown := {| waitScore := waitScore; loadScore := loadScore;
                     priorityScore := priorityScore |} |}.

Definition generateReasoning (best : WorkerScore) (task : Task) : Reasoning :=
  {| r_best := best; r_taskId := task_id task; r_priority := task_priority task |}.

(** The comparator of [scores.sort((a, b) => b.score - a.score)]. *)
Definition byScoreDescending (a b : WorkerScore) : num :=
  (ws_score b - ws_score a)%num.

Definition score (config : ScorerConfig) (task : Task)
    (workers : list WorkerState) (prediction : option TaskPrediction)
  : option ScoringResult :=
  let requiredCapabilities := task_capabilities task in
  let eligibleWorkers :=
    List.filter (fun w => isWorkerEligible w requiredCapabilities) workers in
  match eligibleWorkers with
  | [] => None
  | _ =>
      let scores :=
        (fun worker => scoreWorker config task worker prediction)
          <$> eligibleWorkers in
      match ArraySort.sort byScoreDescending scores with
      | [] => None
      | best :: alternatives =>
          Some {| workerId := ws_workerId best;
                  score_value := ws_score best;
                  reasoning := generateReasoning best task;
                  alternatives := alternatives |}
      end
  end.

Definition validateWeights (config : ScorerConfig) : bool :=
  let sum := (wait (weights config) + load (weights config)
              + priority (weights config))%num in
  (Math_abs (sum - JS.one) <? dec 1 1000)%num.

End MultiObjectiveScorer.

(* ===================================================================== *)
(** ** fallback/round-robin.ts *)
(* ===================================================================== *)

Module RoundRobinScheduler.

(** The scheduler's own state is its cursor; the registry it reads is
    passed to each call. *)
Record t : Type := mkScheduler {
  lastIndex : Z;
}.

Definition create : t := {| lastIndex := -1 |}.

(** [schedule] once the available workers are known. *)
Definition scheduleAmong (available : list WorkerState) (s : t) (task : Task)
    (reason : SchedulingReason) (now : Z) : option SchedulingDecision * t :=
  match available with
  | [] => (None, s)
  | _ =>
      let lastIndex' := Z.rem (lastIndex s + 1) (Z.of_nat (length available)) in
      match (if (0 <=? lastIndex')%Z
             then available !! Z.to_nat lastIndex' else None) with
      | None =>
          (* [available[lastIndex]] would be undefined and reading its id
             would throw; the cursor is never below -1, so the index is
             always in range (lemma [scheduleAmong_in_range]). *)
          (None, {| lastIndex := lastIndex' |})
      | Some selectedWorker =>
          (Some {| d_taskId := task_id task;
                   d_workerId := w_id selectedWorker;
                   d_timestamp := now;
                   usedFallback := true;
                   d_prediction := None;
                   reason := reason |},
           {| lastIndex := lastIndex' |})
      end
  end.

(** [reason] has the default ['fallback_round_robin'] in the source. *)
Definition schedule (registry : WorkerRegistry.t) (s : t) (task : Task)
    (reason : SchedulingReason) (now : Z) : option SchedulingDecision * t :=
  scheduleAmong (WorkerRegistry.getAvailable registry (task_capabilities task) now)
                s task reason now.

Definition reset (s : t) : t := {| lastIndex := -1 |}.

End RoundRobinScheduler.

(* ===================================================================== *)
(** ** dispatcher/dispatcher.ts *)
(* ===================================================================== *)

(** Numbers written as text.  [parseInt] and the conversion of a string to
    a number give the binary64 value nearest to what is written, ties going
    to the even significand. *)
Module NumberText.
Local Open Scope Z_scope.

(** The binary64 value nearest to the positive rational n/d, or to its
    opposite when [negative]. *)
Definition nearestPositive (n d : positive) (negative : bool) : num :=
  let e0 := Z.log2 (Z.pos n) - Z.log2 (Z.pos d) in
  (* 2^e <= n/d < 2^(e+1) *)
  let below :=
    if 0 <=? e0 then Z.pos n <? Z.pos d * 2 ^ e0
    else Z.pos n * 2 ^ (- e0) <? Z.pos d in
  let e := if below then e0 - 1 else e0 in
  (* the quantum: 2^(e - 52), and 2^(-1074) for subnormal results *)
  let qe := Z.max (e - 52) (-1074) in
  let scaledNum := if 0 <=? qe then Z.pos n else Z.pos n * 2 ^ (- qe) in
  let scaledDen := if 0 <=? qe then Z.pos d * 2 ^ qe else Z.pos d in
  let f := scaledNum / scaledDen in
  let r := scaledNum mod scaledDen in
  let up := (scaledDen <? 2 * r) || ((2 * r =? scaledDen) && Z.odd f) in
  let m := if up then f + 1 else f in
  let sign := fun z : Z => if negative then - z else z in
  if 0 <=? qe then
    if 2 ^ 1024 <=? m * 2 ^ qe then (if negative then NInf else PInf)
    else Fin (inject_Z (sign (m * 2 ^ qe)))
  else Fin (Qred (sign m # Z.to_pos (2 ^ (- qe)))).

Definition nearest (q : Q) : num :=
  match Qnum q with
  | 0 => Fin 0
  | Z.pos n => nearestPositive n (Qden q) false
  | Z.neg n => nearestPositive n (Qden q) true
  end.

Definition byte (c : ascii) : Z := Z.of_nat (nat_of_ascii c).

(** The white space and line terminators of the language, in UTF-8:
    TAB, LF, VT, FF, CR, SP, U+00A0, U+1680, U+2000 to U+200A, U+2028,
    U+2029, U+202F, U+205F, U+3000 and U+FEFF.  [whiteSpacePrefix s] is what
    follows a white space character at the head of [s]. *)
Definition whiteSpacePrefix (s : string) : option string :=
  match s with
  | String a rest =>
      let x := byte a in
      if ((9 <=? x) && (x <=? 13)) || (x =? 32) then Some rest
      else
        match rest with
        | String b rest2 =>
            let y := byte b in
            if (x =? 194) && (y =? 160) then Some rest2
            else
              match rest2 with
              | String c rest3 =>
                  let z := byte c in
                  if ((x =? 225) && (y =? 154) && (z =? 128))
                     || ((x =? 226) && (y =? 128)
                         && (((128 <=? z) && (z <=? 138)) || (z =? 168)
                             || (z =? 169) || (z =? 175)))
                     || ((x =? 226) && (y =? 129) && (z =? 159))
                     || ((x =? 227) && (y =? 128) && (z =? 128))
                     || ((x =? 239) && (y =? 187) && (z =? 191))
                  then Some rest3 else None
              | EmptyString => None
              end
        | EmptyString => None
        end
  | EmptyString => None
  end.

Fixpoint skipWhiteSpaceFuel (fuel : nat) (s : string) : string :=
  match fuel with
  | O => s
  | S fuel' =>
      match whiteSpacePrefix s with
      | Some rest => skipWhiteSpaceFuel fuel' rest
      | None => s
      end
  end.

Definition skipWhiteSpace (s : string) : string :=
  skipWhiteSpaceFuel (String.length s) s.

(** [s] without the white space at its end. *)
Fixpoint trimEnd (s : string) : string :=
  match s with
  | EmptyString => EmptyString
  | String c rest =>
      match skipWhiteSpace s with
      | EmptyString => EmptyString
      | _ => String c (trimEnd rest)
      end
  end.

Definition trim (s : string) : string := trimEnd (skipWhiteSpace s).

Definition digitIn (radix : Z) (c : ascii) : option Z :=
  let x := byte c in
  let v := if (48 <=? x) && (x <=? 57) then x - 48
           else if (97 <=? x) && (x <=? 122) then x - 87
           else if (65 <=? x) && (x <=? 90) then x - 55
           else radix in
  if v <? radix then Some v else None.

(** The longest run of digits at the head of [s]: its value, its length
    and what follows. *)
Fixpoint digitsIn (radix : Z) (s : string) (acc : Z) (count : Z)
  : Z * Z * string :=
  match s with
  | String c rest =>
      match digitIn radix c with
      | Some d => digitsIn radix rest (radix * acc + d) (count + 1)
      | None => (acc, count, s)
      end
  | EmptyString => (acc, count, s)
  end.

(** 10^e as a rational. *)
Definition pow10 (e : Z) : Q :=
  if 0 <=? e then inject_Z (10 ^ e) else 1 # Z.to_pos (10 ^ (- e)).

(** An unsigned decimal literal that fills [s]: digits with an optional
    fraction, or a fraction alone, and an optional exponent. *)
Definition unsignedDecimal (s : string) : option Q :=
  let '(ip, ic, s1) := digitsIn 10 s 0 0 in
  let '(fp, fc, s2) :=
    match s1 with
    | String "." r => digitsIn 10 r 0 0
    | _ => (0, 0, s1)
    end in
  let dotted := match s1 with String "." _ => true | _ => false end in
  if (ic =? 0) && (fc =? 0) then None
  else
    let mantissa := (inject_Z (ip * 10 ^ fc + fp) * pow10 (- fc))%Q in
    match s2 with
    | EmptyString => Some mantissa
    | String e r =>
        if Ascii.eqb e "e" || Ascii.eqb e "E" then
          let '(negative, r1) :=
            match r with
            | String "-" r1 => (true, r1)
            | String "+" r1 => (false, r1)
            | _ => (false, r)
            end in
          match digitsIn 10 r1 0 0 with
          | (ev, ec, EmptyString) =>
              if ec =? 0 then None
              else Some (mantissa * pow10 (if negative then - ev else ev))%Q
          | _ => None
          end
        else None
    end.

(** A signed decimal literal (StrDecimalLiteral) that fills [s]. *)
Definition decimalLiteral (s : string) : num :=
  let '(negative, body) :=
    match s with
    | String "-" rest => (true, rest)
    | String "+" rest => (false, rest)
    | _ => (false, s)
    end in
  let magnitude :=
    if String.eqb body "Infinity" then PInf
    else match unsignedDecimal body with
         | Some q => nearest q
         | None => NaN
         end in
  if negative then JS.neg magnitude else magnitude.

Definition radixLiteral (radix : Z) (body : string) : num :=
  match digitsIn radix body 0 0 with
  | (v, c, EmptyString) => if c =? 0 then NaN else nearest (inject_Z v)
  | _ => NaN
  end.

(** StringToNumber: the number that a string converts to. *)
Definition stringToNumber (text : string) : num :=
  match trim text with
  | EmptyString => Fin 0
  | String "0" (String x body) as s =>
      if Ascii.eqb x "x" || Ascii.eqb x "X" then radixLiteral 16 body
      else if Ascii.eqb x "o" || Ascii.eqb x "O" then radixLiteral 8 body
      else if Ascii.eqb x "b" || Ascii.eqb x "B" then radixLiteral 2 body
      else decimalLiteral s
  | s => decimalLiteral s
  end.

(** [parseInt(text, 10)]: leading white space, an optional sign, then the
    longest run of decimal digits; NaN when there is no digit. *)
Definition parseInt (text : string) : num :=
  let s := skipWhiteSpace text in
  let '(negative, body) :=
    match s with
    | String "-" rest => (true, rest)
    | String "+" rest => (false, rest)
    | _ => (false, s)
    end in
  match digitsIn 10 body 0 0 with
  | (v, c, _) =>
      if c =? 0 then NaN
      else nearest (inject_Z (if negative then - v else v))
  end.

End NumberText.

Module Dispatcher.

Record SchedulerConfig : Type := mkSchedulerConfig {
  redisUrl : string;
  fallbackThreshold : Z;
  heartbeatTimeoutMs : Z;
}.

(** DEFAULT_SCHEDULER_CONFIG completed with the Redis URL. *)
Definition DEFAULT_SCHEDULER_CONFIG (redisUrl : string) : SchedulerConfig :=
  {| redisUrl := redisUrl; fallbackThreshold := 3; heartbeatTimeoutMs := 30000 |}.

Record CircuitBreakerState : Type := mkBreaker {
  failures : Z;
  lastFailure : option Z;
  isOpen : bool;
}.

Record DispatchResult : Type := mkResult {
  success : bool;
  decision : SchedulingDecision;
  error : option string;
}.

(** The object that is serialised and published on the worker channel. *)
Record DispatchMessage : Type := mkMessage {
  m_taskId : string;
  m_task : Task;
  assignedAt : Z;
}.

(** [redis] tells whether a client is held ([this.redis] is not null). *)
Record t : Type := mkDispatcher {
  redis : bool;
  registry : WorkerRegistry.t;
  fallbackScheduler : RoundRobinScheduler.t;
  config : SchedulerConfig;
  circuitBreaker : CircuitBreakerState;
  running : bool;
  consumerName : string;
}.

Definition TASK_STREAM : string := "nexus:tasks:pending".
Definition DISPATCH_CHANNEL_PREFIX : string := "nexus:worker:".
Definition GROUP : string := "scheduler-group".

(** [new Dispatcher(predictor, registry, config)] *)
Definition create (registry : WorkerRegistry.t) (config : SchedulerConfig)
    (consumerName : string) : t :=
  {| redis := false;
     registry := registry;
     fallbackScheduler := RoundRobinScheduler.create;
     config := config;
     circuitBreaker := {| failures := 0; lastFailure := None; isOpen := false |};
     running := false;
     consumerName := consumerName |}.

Inductive effect : Type :=
| ConsoleError (text : string)
| ConsoleWarn (text : string)
| PredictCall (task : Task)
| Publish (channel : string) (message : DispatchMessage)
| Xack (stream group messageId : string)
| Xreadgroup (group consumer stream : string)
| Sleep (ms : Z).

(** The collaborators as one call sees them. *)
Record Env : Type := mkEnv {
  now : Z;
  predict : Task -> async_result (option TaskPrediction);
  publish : string -> DispatchMessage -> RedisOutcome;
  xack : string -> string -> string -> RedisOutcome;
}.

Definition with_breaker (d : t) (cb : CircuitBreakerState)
    (fs : RoundRobinScheduler.t) : t :=
  {| redis := redis d;
     registry := registry d;
     fallbackScheduler := fs;
     config := config d;
     circuitBreaker := cb;
     running := running d;
     consumerName := consumerName d |}.

Definition recordFailure (config : SchedulerConfig) (cb : CircuitBreakerState)
    (now : Z) : CircuitBreakerState * list effect :=
  let failures' := failures cb + 1 in
  if (fallbackThreshold config <=? failures')%Z
  then ({| failures := failures'; lastFailure := Some now; isOpen := true |},
        [ConsoleWarn "Circuit breaker opened"])
  else ({| failures := failures'; lastFailure := Some now; isOpen := isOpen cb |},
        []).

Definition resetCircuitBreaker (cb : CircuitBreakerState) : CircuitBreakerState :=
  {| failures := 0; lastFailure := None; isOpen := false |}.

Definition getCircuitBreakerState (d : t) : CircuitBreakerState :=
  circuitBreaker d.

(** [err instanceof Error ? err.message : 'Dispatch failed'] *)
Definition errorMessage (err : thrown) : string :=
  match err with
  | ErrorObject message => message
  | OtherValue => "Dispatch failed"
  end.

(** The first block of [dispatchTask]: the prediction attempt, made only
    while the breaker is closed. *)
Definition tryPrediction (d : t) (env : Env) (task : Task)
  : option SchedulingDecision * CircuitBreakerState * list effect :=
  let cb := circuitBreaker d in
  if negb (isOpen cb) then
    match predict env task with
    | Resolved (Some predicted) =>
        match WorkerRegistry.get (registry d) (recommendedWorkerId predicted) with
        | Some worker =>
            if negb (WorkerStatus_eqb (w_status worker) offline)
               && negb (WorkerStatus_eqb (w_status worker) draining)
            then (Some {| d_taskId := task_id task;
                          d_workerId := recommendedWorkerId predicted;
                          d_timestamp := now env;
                          usedFallback := false;
                          d_prediction := Some predicted;
                          reason := prediction |},
                  resetCircuitBreaker cb, [PredictCall task])
            else (None, cb, [PredictCall task])
        | None => (None, cb, [PredictCall task])
        end
    | Resolved None => (None, cb, [PredictCall task])
    | Rejected err =>
        let '(cb', warn) := recordFailure (config d) cb (now env) in
        (None, cb', [PredictCall task; ConsoleError "Prediction failed:"] ++ warn)
    end
  else (None, cb, []).

(** The publish-and-acknowledge block of [dispatchTask]. *)
Definition publishAndAck (d : t) (env : Env) (task : Task)
    (messageId : option string) (decision : SchedulingDecision)
  : DispatchResult * list effect :=
  if redis d then
    let channel := String.append DISPATCH_CHANNEL_PREFIX (d_workerId decision) in
    let message := {| m_taskId := task_id task; m_task := task;
                      assignedAt := d_timestamp decision |} in
    match publish env channel message with
    | RedisThrows err =>
        ({| success := false; decision := decision;
            error := Some (errorMessage err) |},
         [Publish channel message])
    | RedisOk =>
        match messageId with
        | Some (String c rest as mid) =>
            match xack env TASK_STREAM GROUP mid with
            | RedisThrows err =>
                ({| success := false; decision := decision;
                    error := Some (errorMessage err) |},
                 [Publish channel message; Xack TASK_STREAM GROUP mid])
            | RedisOk =>
                ({| success := true; decision := decision; error := None |},
                 [Publish channel message; Xack TASK_STREAM GROUP mid])
            end
        | _ =>
            ({| success := true; decision := decision; error := None |},
             [Publish channel message])
        end
    end
  else ({| success := true; decision := decision; error := None |}, []).

(** The first half of [dispatchTask]: the prediction attempt, then the
    round-robin fallback when it gave no decision.  [None] is the case
    "no workers available". *)
Definition chooseDecision (d : t) (env : Env) (task : Task)
  : option SchedulingDecision * t * list effect :=
  (* Try prediction if circuit breaker is closed *)
  let '(predicted, cb, effs) := tryPrediction d env task in
  (* Fallback to round-robin if no prediction *)
  let '(decision, fs) :=
    match predicted with
    | Some decision => (Some decision, fallbackScheduler d)
    | None =>
        let reason := if isOpen cb then fallback_circuit_breaker
                      else fallback_round_robin in
        RoundRobinScheduler.schedule (registry d) (fallbackScheduler d)
                                     task reason (now env)
    end in
  (decision, with_breaker d cb fs, effs).

Definition dispatchTask (d : t) (env : Env) (task : Task)
    (messageId : option string) : DispatchResult * t * list effect :=
  let '(decision, d', effs1) := chooseDecision d env task in
  match decision with
  | None =>
      (* No workers available *)
      ({| success := false;
          decision := {| d_taskId := task_id task;
                         d_workerId := EmptyString;
                         d_timestamp := now env;
                         usedFallback := true;
                         d_prediction := None;
                         reason := fallback_round_robin |};
          error := Some "No workers available" |},
       d', effs1)
  | Some decision =>
      (* Dispatch to worker via Redis publish *)
      let '(result, effs2) := publishAndAck d' env task messageId decision in
      (result, d', effs1 ++ effs2)
  end.

(** *** The consume loop *)

Section Consume.
(** [JSON.parse] of the host: the parsed value, or [None] when it throws
    a SyntaxError. *)
Variable JSON_parse : string -> option json.

(** [data[fields[i]] = fields[i + 1]] for i = 0, 2, 4, ...; a trailing
    key without a value is set to [undefined] ([None]). *)
Fixpoint collectFields (fields : list string)
    (data : gmap string (option string)) : gmap string (option string) :=
  match fields with
  | key :: value :: rest => collectFields rest (<[key := Some value]> data)
  | [key] => <[key := None]> data
  | [] => data
  end.

(** [data[key]] when it is truthy. *)
Definition field (data : gmap string (option string)) (key : string)
  : option string :=
  match data !! key with
  | Some (Some value) => if JS.truthy_str value then Some value else None
  | _ => None
  end.

(** [data[key] || fallback] *)
Definition fieldOr (data : gmap string (option string)) (key fallback : string)
  : string :=
  default fallback (field data key).

(** The member of a parsed object; of duplicated keys the last one counts. *)
Definition member (key : string) (members : list (string * json)) : option json :=
  snd <$> List.find (fun kv => String.eqb key (fst kv)) (rev members).

Definition asString (v : json) : option string :=
  match v with JString s => Some s | _ => None end.

(** What [parseTask] returns.  It builds the object from the fields of the
    message and returns it at the type [Task] without a check: the metadata
    is the value that [JSON.parse] gave, of whatever shape. *)
Record ParsedTask : Type := mkParsedTask {
  parsed_id : string;
  parsed_type : string;
  parsed_payload : json;
  parsed_priority : num;
  parsed_createdAt : Date;
  parsed_metadata : option json;
}.

(** [parseTask]: the object, or [null] after logging when a [JSON.parse]
    throws. *)
Definition parseTask (now : Z) (messageId : string) (fields : list string)
  : option ParsedTask * list effect :=
  let data := collectFields fields ∅ in
  let failed := (None, [ConsoleError "Failed to parse task:"]) in
  match JSON_parse (fieldOr data "payload" "{}") with
  | None => failed
  | Some payload =>
      let priority := NumberText.parseInt (fieldOr data "priority" "0") in
      let createdAt :=
        match field data "createdAt" with
        | Some text => DateOfString text
        | None => DateAt now
        end in
      let parsed := fun metadata =>
        {| parsed_id := fieldOr data "id" messageId;
           parsed_type := fieldOr data "type" "unknown";
           parsed_payload := payload;
           parsed_priority := priority;
           parsed_createdAt := createdAt;
           parsed_metadata := metadata |} in
      match field data "metadata" with
      | None => (Some (parsed None), [])
      | Some text =>
          match JSON_parse text with
          | None => failed
          | Some metadata => (Some (parsed (Some metadata)), [])
          end
      end
  end.

(** [task.metadata?.requiredCapabilities] on the parsed object: only an
    object has members; null, a number, a string or an array has no such
    property. *)
Definition parsedCapabilities (parsed : ParsedTask) : option json :=
  match parsed_metadata parsed with
  | Some (JObject members) => member "requiredCapabilities" members
  | _ => None
  end.

(** The parsed metadata at its declared type [TaskMetadata]: the
    capabilities when they are an array of strings. *)
Definition TaskMetadata_of_json (v : json) : option TaskMetadata :=
  match v with
  | JNull => None
  | JObject members =>
      Some {| requiredCapabilities :=
                match member "requiredCapabilities" members with
                | Some (JArray items) => mapM asString items
                | _ => None
                end |}
  | _ => Some {| requiredCapabilities := None |}
  end.

(** The parsed object as a [Task], for the collaborators that are handed
    one (the predictor, the published message) and for the decision, which
    reads its id.  The registry is not handed this view but the parsed
    capabilities themselves ([getAvailableUnchecked]). *)
Definition taskOf (parsed : ParsedTask) : Task :=
  {| task_id := parsed_id parsed;
     task_type := parsed_type parsed;
     task_payload := parsed_payload parsed;
     task_priority := parsed_priority parsed;
     task_createdAt := parsed_createdAt parsed;
     task_metadata := parsed_metadata parsed ≫= TaskMetadata_of_json |}.

(** Capabilities of the declared type as a parsed value. *)
Definition capabilitiesValue (capabilities : option (list string)) : option json :=
  (fun items => JArray (JString <$> items)) <$> capabilities.

(** **** [getAvailable] and [schedule] on unchecked capabilities *)

(** [ToNumber] of the host, applied to a parsed value (an array or an
    object is converted to a primitive first). *)
Variable ToNumber : json -> num.

(** [capabilities && capabilities.length > 0], whatever [capabilities] is.
    A boolean or a number has no [length]; a string and an array have
    theirs; an object has the member of that name, if any, which the
    comparison converts to a number. *)
Definition filtersBy (capabilities : option json) : bool :=
  match capabilities with
  | None | Some JNull | Some (JBool _) | Some (JNumber _) => false
  | Some (JString s) => JS.truthy_str s
  | Some (JArray items) => match items with [] => false | _ => true end
  | Some (JObject members) =>
      match member "length" members with
      | Some v => (JS.zero <? ToNumber v)%num
      | None => false
      end
  end.

Inductive CapabilityTest : Type := TestPassed | TestFailed | TestThrows.

(** The capability test of [getAvailable] on one worker:
    [capabilities.every((cap) => worker.capabilities.includes(cap))] when
    the guard holds.  Only an array has the method [every]; an item that is
    not a string is included in no worker's capabilities. *)
Definition capabilityTest (worker : WorkerState) (capabilities : option json)
  : CapabilityTest :=
  if filtersBy capabilities then
    match capabilities with
    | Some (JArray items) =>
        if forallb (fun item =>
                      match item with
                      | JString cap => existsb (String.eqb cap) (w_capabilities worker)
                      | _ => false
                      end) items
        then TestPassed else TestFailed
    | _ => TestThrows
    end
  else TestPassed.

(** The TypeError of calling [every] on a value that has no such method. *)
Definition notAFunction : thrown :=
  ErrorObject "capabilities.every is not a function".

(** A value returned or an exception thrown. *)
Inductive completion (A : Type) : Type :=
| Returned (a : A)
| Threw (err : thrown).
Arguments Returned {A} a.
Arguments Threw {A} err.

(** The loop of [getAvailable] over the workers.  A worker reaches the
    capability test when it passes the tests before it, which are those of
    [isAvailable] without capabilities. *)
Fixpoint availableAmong (r : WorkerRegistry.t) (capabilities : option json)
    (now : Z) (workers : list WorkerState) : completion (list WorkerState) :=
  match workers with
  | [] => Returned []
  | worker :: rest =>
      if WorkerRegistry.isAvailable r None now worker then
        match capabilityTest worker capabilities with
        | TestThrows => Threw notAFunction
        | TestFailed => availableAmong r capabilities now rest
        | TestPassed =>
            match availableAmong r capabilities now rest with
            | Returned available => Returned (worker :: available)
            | Threw err => Threw err
            end
        end
      else availableAmong r capabilities now rest
  end.

(** [registry.getAvailable(capabilities)] *)
Definition getAvailableUnchecked (r : WorkerRegistry.t)
    (capabilities : option json) (now : Z) : completion (list WorkerState) :=
  availableAmong r capabilities now (WorkerRegistry.getAll r).

(** [fallbackScheduler.schedule(task, reason)] on the parsed object. *)
Definition scheduleUnchecked (registry : WorkerRegistry.t)
    (s : RoundRobinScheduler.t) (parsed : ParsedTask)
    (reason : SchedulingReason) (now : Z)
  : completion (option SchedulingDecision * RoundRobinScheduler.t) :=
  match getAvailableUnchecked registry (parsedCapabilities parsed) now with
  | Threw err => Threw err
  | Returned available =>
      Returned (RoundRobinScheduler.scheduleAmong available s (taskOf parsed)
                                                  reason now)
  end.

(** [dispatchTask] on the object that [parseTask] returned.  It goes the
    way of [dispatchTask] above, except that the fallback may throw, which
    rejects the call after the prediction attempt; for an object of the
    declared type the two agree (lemma [dispatchParsed_typed]). *)
Definition dispatchParsed (d : t) (env : Env) (parsed : ParsedTask)
    (messageId : option string)
  : async_result DispatchResult * t * list effect :=
  let task := taskOf parsed in
  (* Try prediction if circuit breaker is closed *)
  let '(predicted, cb, effs1) := tryPrediction d env task in
  let dispatch := fun decision fs =>
    let d' := with_breaker d cb fs in
    let '(result, effs2) := publishAndAck d' env task messageId decision in
    (Resolved result, d', effs1 ++ effs2) in
  match predicted with
  | Some decision => dispatch decision (fallbackScheduler d)
  | None =>
      (* Fallback to round-robin if no prediction *)
      let reason := if isOpen cb then fallback_circuit_breaker
                    else fallback_round_robin in
      match scheduleUnchecked (registry d) (fallbackScheduler d) parsed reason
                              (now env) with
      | Threw err => (Rejected err, with_breaker d cb (fallbackScheduler d), effs1)
      | Returned (Some decision, fs) => dispatch decision fs
      | Returned (None, fs) =>
          (* No workers available *)
          (Resolved {| success := false;
                       decision := {| d_taskId := task_id task;
                                      d_workerId := EmptyString;
                                      d_timestamp := now env;
                                      usedFallback := true;
                                      d_prediction := None;
                                      reason := fallback_round_robin |};
                       error := Some "No workers available" |},
           with_breaker d cb fs, effs1)
      end
  end.

(** One stream entry [messageId, fields] of a batch. *)
Definition StreamEntry : Type := string * list string.

(** The body of the inner [for] loop of [consumeLoop]: the dispatcher and
    the effects after it, and the exception if it throws. *)
Definition processEntry (d : t) (env : Env) (entry : StreamEntry)
  : t * list effect * option thrown :=
  let messageId := fst entry in
  let fields := snd entry in
  match parseTask (now env) messageId fields with
  | (Some parsed, effs) =>
      match dispatchParsed d env parsed (Some messageId) with
      | (Resolved _, d', effs') => (d', effs ++ effs', None)
      | (Rejected err, d', effs') => (d', effs ++ effs', Some err)
      end
  | (None, effs) => (d, effs, None)
  end.

(** The two [for] loops over a batch: an exception leaves them. *)
Fixpoint processEntries (d : t) (env : Env) (entries : list StreamEntry)
  : t * list effect * option thrown :=
  match entries with
  | [] => (d, [], None)
  | entry :: rest =>
      match processEntry d env entry with
      | (d1, effs1, Some err) => (d1, effs1, Some err)
      | (d1, effs1, None) =>
          let '(d2, effs2, thrown) := processEntries d1 env rest in
          (d2, effs1 ++ effs2, thrown)
      end
  end.

(** What one [xreadgroup] call settles to. *)
Inductive ReadOutcome : Type :=
| ReadRejected (err : thrown)
| ReadNull
| ReadMessages (messages : list (string * list StreamEntry)).

(** The [catch] clause of [consumeLoop]. *)
Definition loopCatch : list effect :=
  [ConsoleError "Error in consume loop:"; Sleep 1000].

(** [consumeLoop] over the successive reads it is given, each with the
    collaborators as they behave during that turn; the loop also ends when
    the dispatcher is stopped or disconnected.  An exception thrown while
    a batch is processed is caught by the loop: the rest of the batch is
    left, the error is logged and the loop sleeps. *)
Fixpoint consumeLoop (d : t) (turns : list (Env * ReadOutcome))
  : t * list effect :=
  match turns with
  | [] => (d, [])
  | (env, read) :: rest =>
      if running d && redis d then
        let call := Xreadgroup GROUP (consumerName d) TASK_STREAM in
        let '(d1, effs1) :=
          match read with
          | ReadRejected err => (d, loopCatch)
          | ReadNull => (d, [])
          | ReadMessages messages =>
              match processEntries d env (concat (snd <$> messages)) with
              | (d1, effs, None) => (d1, effs)
              | (d1, effs, Some err) => (d1, effs ++ loopCatch)
              end
          end in
        let '(d2, effs2) := consumeLoop d1 rest in
        (d2, call :: effs1 ++ effs2)
      else (d, [])
  end.
End Consume.

Arguments Returned {A} a.
Arguments Threw {A} err.

End Dispatcher.

(* ===================================================================== *)
(** ** A reader of JSON texts *)
(* ===================================================================== *)

(** The dispatcher is stated for any [JSON.parse]; this reader of the JSON
    grammar instantiates it on concrete messages.  A [\u] escape is
    decoded to the UTF-8 bytes of its code point, two escapes that form a
    surrogate pair to those of the one code point they stand for.
    [toNumber] is the conversion of a parsed value to a number. *)
Module JsonText.

Definition code (c : ascii) : nat := nat_of_ascii c.

Definition isWs (c : ascii) : bool :=
  let n := code c in ((n =? 32) || (n =? 9) || (n =? 10) || (n =? 13))%nat.

Definition isDigit (c : ascii) : bool :=
  let n := code c in ((48 <=? n) && (n <=? 57))%nat.

Fixpoint skipWs (s : string) : string :=
  match s with
  | String c rest => if isWs c then skipWs rest else s
  | EmptyString => s
  end.

Fixpoint stripPrefix (p s : string) : option string :=
  match p, s with
  | EmptyString, _ => Some s
  | String a p', String b s' => if Ascii.eqb a b then stripPrefix p' s' else None
  | _, _ => None
  end.

(** The digits at the head of [s] and what follows them. *)
Fixpoint takeDigits (s : string) : string * string :=
  match s with
  | String c rest =>
      if isDigit c
      then let '(ds, r) := takeDigits rest in (String c ds, r)
      else (EmptyString, s)
  | EmptyString => (EmptyString, s)
  end.

Definition nonEmpty (s : string) : bool :=
  match s with EmptyString => false | _ => true end.

(** A number literal: an optional minus sign; then a single 0 or a run of
    digits; then an optional fraction (a dot and at least one digit); then an
    optional exponent (e or E, an optional sign, at least one digit). *)
Definition readNumber (s : string) : option (string * string) :=
  let '(sign, s1) :=
    match s with String "-" r => ("-", r) | _ => (EmptyString, s) end in
  let int :=
    match s1 with
    | String "0" r => Some ("0", r)
    | _ => let '(ds, r) := takeDigits s1 in
           if nonEmpty ds then Some (ds, r) else None
    end in
  match int with
  | None => None
  | Some (ip, s2) =>
      let frac :=
        match s2 with
        | String "." r =>
            let '(ds, r') := takeDigits r in
            if nonEmpty ds then Some (String.append "." ds, r') else None
        | _ => Some (EmptyString, s2)
        end in
      match frac with
      | None => None
      | Some (fp, s3) =>
          let exponent :=
            match s3 with
            | String e r =>
                if Ascii.eqb e "e" || Ascii.eqb e "E" then
                  let '(sg, r1) :=
                    match r with
                    | String "+" r1 => ("+", r1)
                    | String "-" r1 => ("-", r1)
                    | _ => (EmptyString, r)
                    end in
                  let '(ds, r2) := takeDigits r1 in
                  if nonEmpty ds
                  then Some (String e (String.append sg ds), r2) else None
                else Some (EmptyString, s3)
            | EmptyString => Some (EmptyString, s3)
            end in
          match exponent with
          | None => None
          | Some (ep, s4) =>
              Some (String.append sign (String.append ip (String.append fp ep)), s4)
          end
      end
  end.

Definition hexDigit (c : ascii) : option nat :=
  let n := code c in
  if ((48 <=? n) && (n <=? 57))%nat then Some (n - 48)%nat
  else if ((65 <=? n) && (n <=? 70))%nat then Some (n - 55)%nat
  else if ((97 <=? n) && (n <=? 102))%nat then Some (n - 87)%nat
  else None.

(** The UTF-8 encoding of a code point; a surrogate that is not part of a
    pair is encoded like any other code point below 65536. *)
Definition utf8 (cp : Z) : string :=
  let ch := fun z : Z => ascii_of_nat (Z.to_nat z) in
  let tail := fun z : Z => ch (128 + z mod 64)%Z in
  if (cp <? 128)%Z then String (ch cp) EmptyString
  else if (cp <? 2048)%Z then
    String (ch (192 + cp / 64)%Z) (String (tail cp) EmptyString)
  else if (cp <? 65536)%Z then
    String (ch (224 + cp / 4096)%Z)
      (String (tail (cp / 64)%Z) (String (tail cp) EmptyString))
  else
    String (ch (240 + cp / 262144)%Z)
      (String (tail (cp / 4096)%Z)
         (String (tail (cp / 64)%Z) (String (tail cp) EmptyString))).

(** The four hexadecimal digits after [\u]: the code unit and what
    follows. *)
Definition readUnit (s : string) : option (Z * string) :=
  match s with
  | String h1 (String h2 (String h3 (String h4 r))) =>
      match hexDigit h1, hexDigit h2, hexDigit h3, hexDigit h4 with
      | Some a, Some b, Some c, Some d =>
          Some (Z.of_nat (((a * 16 + b) * 16 + c) * 16 + d), r)
      | _, _, _, _ => None
      end
  | _ => None
  end.

(** The characters of a string literal after its opening quote.  Two
    escapes that form a surrogate pair give one code point. *)
Fixpoint readChars (fuel : nat) (s : string) : option (string * string) :=
  match fuel with
  | O => None
  | S fuel' =>
      match s with
      | EmptyString => None
      | String c rest =>
          if (code c =? 34)%nat then Some (EmptyString, rest)
          else if (code c =? 92)%nat then
            match rest with
            | String e rest' =>
                let continueWith (chars : string) (r : string) :=
                  match readChars fuel' r with
                  | Some (body, r') => Some (String.append chars body, r')
                  | None => None
                  end in
                let continue (ch : ascii) (r : string) :=
                  continueWith (String ch EmptyString) r in
                if (code e =? 34)%nat || (code e =? 92)%nat || (code e =? 47)%nat
                then continue e rest'
                else if Ascii.eqb e "b" then continue (ascii_of_nat 8) rest'
                else if Ascii.eqb e "f" then continue (ascii_of_nat 12) rest'
                else if Ascii.eqb e "n" then continue (ascii_of_nat 10) rest'
                else if Ascii.eqb e "r" then continue (ascii_of_nat 13) rest'
                else if Ascii.eqb e "t" then continue (ascii_of_nat 9) rest'
                else if Ascii.eqb e "u" then
                  match readUnit rest' with
                  | Some (unit, r) =>
                      match (if (55296 <=? unit)%Z && (unit <=? 56319)%Z
                             then match r with
                                  | String b1 (String b2 r1) =>
                                      if (code b1 =? 92)%nat && Ascii.eqb b2 "u"
                                      then readUnit r1 else None
                                  | _ => None
                                  end
                             else None) with
                      | Some (low, r2) =>
                          if (56320 <=? low)%Z && (low <=? 57343)%Z
                          then continueWith
                                 (utf8 (65536 + (unit - 55296) * 1024 + (low - 56320)))
                                 r2
                          else continueWith (utf8 unit) r
                      | None => continueWith (utf8 unit) r
                      end
                  | None => None
                  end
                else None
            | EmptyString => None
            end
          else if (code c <? 32)%nat then None
          else
            match readChars fuel' rest with
            | Some (body, r') => Some (String c body, r')
            | None => None
            end
      end
  end.

Definition readString (s : string) : option (string * string) :=
  readChars (S (String.length s)) s.

Fixpoint readValue (fuel : nat) (s : string) : option (json * string) :=
  match fuel with
  | O => None
  | S fuel' =>
      match skipWs s with
      | EmptyString => None
      | String c rest as s' =>
          if Ascii.eqb c "{" then
            match skipWs rest with
            | String "}" r => Some (JObject [], r)
            | _ => readMembers fuel' rest []
            end
          else if Ascii.eqb c "[" then
            match skipWs rest with
            | String "]" r => Some (JArray [], r)
            | _ => readElements fuel' rest []
            end
          else if (code c =? 34)%nat then
            match readString rest with
            | Some (str, r) => Some (JString str, r)
            | None => None
            end
          else if Ascii.eqb c "t" then
            (fun r => (JBool true, r)) <$> stripPrefix "true" s'
          else if Ascii.eqb c "f" then
            (fun r => (JBool false, r)) <$> stripPrefix "false" s'
          else if Ascii.eqb c "n" then
            (fun r => (JNull, r)) <$> stripPrefix "null" s'
          else
            match readNumber s' with
            | Some (literal, r) => Some (JNumber literal, r)
            | None => None
            end
      end
  end
with readElements (fuel : nat) (s : string) (acc : list json)
  : option (json * string) :=
  match fuel with
  | O => None
  | S fuel' =>
      match readValue fuel' s with
      | None => None
      | Some (v, r) =>
          match skipWs r with
          | String "," r' => readElements fuel' r' (v :: acc)
          | String "]" r' => Some (JArray (rev (v :: acc)), r')
          | _ => None
          end
      end
  end
with readMembers (fuel : nat) (s : string) (acc : list (string * json))
  : option (json * string) :=
  match fuel with
  | O => None
  | S fuel' =>
      match skipWs s with
      | String q r0 =>
          if (code q =? 34)%nat then
            match readString r0 with
            | None => None
            | Some (key, r1) =>
                match skipWs r1 with
                | String ":" r2 =>
                    match readValue fuel' r2 with
                    | None => None
                    | Some (v, r3) =>
                        match skipWs r3 with
                        | String "," r4 => readMembers fuel' r4 ((key, v) :: acc)
                        | String "}" r4 => Some (JObject (rev ((key, v) :: acc)), r4)
                        | _ => None
                        end
                    end
                | _ => None
                end
            end
          else None
      | EmptyString => None
      end
  end.

(** The whole text must be one value between optional white space. *)
Definition parse (text : string) : option json :=
  match readValue (2 * String.length text + 2) text with
  | Some (v, rest) =>
      match skipWs rest with
      | EmptyString => Some v
      | _ => None
      end
  | None => None
  end.

(** ToNumber on a value that [JSON.parse] returned; an array or an object
    is first converted to a string (an array joins its elements, of which
    null gives the empty string). *)
Fixpoint toNumber (v : json) : num :=
  match v with
  | JNull => Fin 0
  | JBool b => if b then Fin 1 else Fin 0
  | JNumber literal => NumberText.decimalLiteral literal
  | JString s => NumberText.stringToNumber s
  | JArray [] => Fin 0
  | JArray [item] =>
      match item with
      | JNull => Fin 0
      | JBool _ => NaN
      | JObject _ => NaN
      | _ => toNumber item
      end
  | JArray _ => NaN
  | JObject _ => NaN
  end.

End JsonText.

(* ===================================================================== *)
(** ** predictor/heuristic-predictor.ts: queries and resets *)
(* ===================================================================== *)

Module PredictorQueries.
Import Ema HeuristicPredictor.

(** HeuristicPredictor.getPrediction: the pair
    (estimatedDurationMs, confidence) for a task type. *)
Definition getPrediction (p : t) (taskType : string) : num * num :=
  match predictions p !! taskType with
  | Some state =>
      (ema state,
       calculateConfidence (sampleCount state) (confidenceThreshold (config p)))
  | None => (defaultDurationMs (config p), JS.zero)
  end.

Definition with_predictions (p : t) (preds : gmap string EMAState) : t :=
  {| predictions := preds; config := config p;
     persistence := persistence p; ready := ready p |}.

(** HeuristicPredictor.resetPrediction: [Map.delete] tells whether the key
    was present. *)
Definition resetPrediction (p : t) (taskType : string) : t * bool :=
  (with_predictions p (delete taskType (predictions p)),
   match predictions p !! taskType with Some _ => true | None => false end).

Definition resetAll (p : t) : t := with_predictions p ∅.

End PredictorQueries.

(* ===================================================================== *)
(** ** registry/availability-calculator.ts *)
(* ===================================================================== *)

Module AvailabilityCalculator.

Definition LOAD_WEIGHTS_CPU : num := dec 6 10.
Definition LOAD_WEIGHTS_MEMORY : num := dec 4 10.
Definition DEGRADED_LOAD : num := dec 9 10.
Definition UNHEALTHY_TIMEOUT_MS : Z := 30000.
Definition REMOVED_TIMEOUT_MS : Z := 300000.
Definition DEFAULT_AVG_TASK_DURATION_MS : num := JS.of_Z 5000.

Definition calculateCurrentLoad (cpuUsage memoryUsage : num) : num :=
  let clampedCpu := Math_max JS.zero (Math_min JS.one cpuUsage) in
  let clampedMemory := Math_max JS.zero (Math_min JS.one memoryUsage) in
  (LOAD_WEIGHTS_CPU * clampedCpu + LOAD_WEIGHTS_MEMORY * clampedMemory)%num.

(** The time value of [new Date(t)] for a number [t]: [None] is the
    invalid date (a time value that is not finite or beyond 8.64e15 ms);
    a fractional time is truncated towards zero. *)
Definition TimeClip (t : num) : option Z :=
  match t with
  | Fin q =>
      if Qle_bool (Qabs q) (inject_Z 8640000000000000)
      then Some (Z.quot (Qnum q) (Z.pos (Qden q)))
      else None
  | _ => None
  end.

(** [avgTaskDurationMs] has the default 5000 and [now] the default
    [new Date()] in the source. *)
Definition calculateEstimatedAvailableAt (queueDepth avgTaskDurationMs : num)
    (now : Z) : option Z :=
  let estimatedWaitMs := (queueDepth * avgTaskDurationMs)%num in
  TimeClip (JS.of_Z now + estimatedWaitMs)%num.

Inductive WorkerHealthStatus : Type := healthy | degraded | unhealthy | removed.

Definition determineHealthStatus (lastHeartbeatMs : Z) (currentLoad : num)
    (now : Z) : WorkerHealthStatus :=
  let timeSinceHeartbeat := (now - lastHeartbeatMs)%Z in
  if (REMOVED_TIMEOUT_MS <=? timeSinceHeartbeat)%Z then removed
  else if (UNHEALTHY_TIMEOUT_MS <=? timeSinceHeartbeat)%Z then unhealthy
  else if (currentLoad >=? DEGRADED_LOAD)%num then degraded
  else healthy.

(** [threshold] has the default 0.1 in the source. *)
Definition isSignificantLoadChange (previousLoad currentLoad threshold : num)
  : bool :=
  (Math_abs (currentLoad - previousLoad) >=? threshold)%num.

(** The heartbeat record as the calculator reads it. *)
Record WorkerHeartbeat : Type := mkHeartbeat {
  hb_workerId : string;
  cpuUsage : num;
  memoryUsage : num;
  hb_queueDepth : num;
  timestampMs : Z;
}.

Record WorkerCapacityState : Type := mkCapacity {
  queueDepth : num;
  estimatedAvailableAt : option Z;
  healthStatus : WorkerHealthStatus;
  cap_avgTaskDurationMs : num;
}.

Record t : Type := mkCalculator {
  avgTaskDurationMs : num;
}.

Definition processHeartbeat (c : t) (heartbeat : WorkerHeartbeat) (now : Z)
  : WorkerCapacityState :=
  let currentLoad :=
    calculateCurrentLoad (cpuUsage heartbeat) (memoryUsage heartbeat) in
  {| queueDepth := hb_queueDepth heartbeat;
     estimatedAvailableAt :=
       calculateEstimatedAvailableAt (hb_queueDepth heartbeat)
                                     (avgTaskDurationMs c) now;
     healthStatus := determineHealthStatus (timestampMs heartbeat) currentLoad now;
     cap_avgTaskDurationMs := avgTaskDurationMs c |}.

Definition shouldMarkUnhealthy (lastHeartbeatMs now : Z) : bool :=
  (UNHEALTHY_TIMEOUT_MS <=? now - lastHeartbeatMs)%Z.

Definition shouldRemoveWorker (lastHeartbeatMs now : Z) : bool :=
  (REMOVED_TIMEOUT_MS <=? now - lastHeartbeatMs)%Z.

(** Exponential moving average with alpha = 0.1. *)
Definition updateAvgTaskDuration (c : t) (durationMs : num) : t :=
  let alpha := dec 1 10 in
  {| avgTaskDurationMs :=
       (alpha * durationMs + (JS.one - alpha) * avgTaskDurationMs c)%num |}.

End AvailabilityCalculator.

(* ===================================================================== *)
(** ** testing/shadow-mode.ts *)
(* ===================================================================== *)

Module ShadowScheduler.

Record Predictive : Type := mkPredictive {
  pv_workerId : string;
  pv_score : num;
  pv_reasoning : MultiObjectiveScorer.Reasoning;
}.

Record Actual : Type := mkActual {
  ac_workerId : string;
  ac_reason : SchedulingReason;
}.

Record ShadowResult : Type := mkShadowResult {
  sr_taskId : string;
  predictive : option Predictive;
  actual : option Actual;
  matched : bool;
  improvement : option num;
  sr_timestamp : Z;
}.

(** The scheduler's own state; the predictor, the scorer's configuration
    and the registry are handed to each call. *)
Record t : Type := mkShadow {
  results : list ShadowResult;
  maxResults : Z;
  enabled : bool;
}.

(** [new ShadowScheduler(predictor, scorer, registry, maxResults = 10000)] *)
Definition create (maxResults : Z) : t :=
  {| results := []; maxResults := maxResults; enabled := false |}.

Definition enable (s : t) : t :=
  {| results := results s; maxResults := maxResults s; enabled := true |}.

Definition disable (s : t) : t :=
  {| results := results s; maxResults := maxResults s; enabled := false |}.

(** [a === b] on two optional worker ids; two [undefined] are equal. *)
Definition sameWorkerId (a b : option string) : bool :=
  match a, b with
  | Some x, Some y => String.eqb x y
  | None, None => true
  | _, _ => false
  end.

(** The comparison that one call of [shadow] builds. *)
Definition compare (config : MultiObjectiveScorer.ScorerConfig)
    (registry : WorkerRegistry.t) (task : Task)
    (prediction : option TaskPrediction)
    (actualDecision : option SchedulingDecision) (now : Z) : ShadowResult :=
  let workers := WorkerRegistry.getAvailable registry (task_capabilities task) now in
  let scoringResult := MultiObjectiveScorer.score config task workers prediction in
  let improvement :=
    match scoringResult, actualDecision with
    | Some sr, Some ad =>
        match List.find (fun w => String.eqb (w_id w) (d_workerId ad)) workers with
        | Some actualWorker =>
            match MultiObjectiveScorer.score config task [actualWorker] prediction with
            | Some actualScore =>
                Some (MultiObjectiveScorer.score_value sr
                      - MultiObjectiveScorer.score_value actualScore)%num
            | None => None
            end
        | None => None
        end
    | _, _ => None
    end in
  {| sr_taskId := task_id task;
     predictive :=
       (fun sr => {| pv_workerId := MultiObjectiveScorer.workerId sr;
                     pv_score := MultiObjectiveScorer.score_value sr;
                     pv_reasoning := MultiObjectiveScorer.reasoning sr |})
         <$> scoringResult;
     actual :=
       (fun ad => {| ac_workerId := d_workerId ad; ac_reason := reason ad |})
         <$> actualDecision;
     matched :=
       sameWorkerId (MultiObjectiveScorer.workerId <$> scoringResult)
                    (d_workerId <$> actualDecision)
       || (match scoringResult with None => true | Some _ => false end
           && match actualDecision with None => true | Some _ => false end);
     improvement := improvement;
     sr_timestamp := now |}.

(** [results.push(result)], then [shift] when the bound is exceeded. *)
Definition store (s : t) (result : ShadowResult) : t :=
  if enabled s then
    let pushed := results s ++ [result] in
    {| results := if (maxResults s <? Z.of_nat (length pushed))%Z
                  then tail pushed else pushed;
       maxResults := maxResults s;
       enabled := enabled s |}
  else s.

(** [shadow]; [predicted] is how the predictor's [predict] settles. *)
Definition shadow (config : MultiObjectiveScorer.ScorerConfig)
    (registry : WorkerRegistry.t)
    (predicted : async_result (option TaskPrediction)) (s : t) (task : Task)
    (actualDecision : option SchedulingDecision) (now : Z)
  : async_result ShadowResult * t :=
  match predicted with
  | Rejected err => (Rejected err, s)
  | Resolved forecast =>
      let result := compare config registry task forecast actualDecision now in
      (Resolved result, store s result)
  end.

Record ImprovementAnalysis : Type := mkAnalysis {
  wouldImprove : Z;
  wouldWorsen : Z;
  noChange : Z;
  avgPositiveGain : num;
  avgNegativeLoss : num;
}.

(** The loop of [getImprovementAnalysis]: the three counters and the two
    sums after the results seen so far. *)
Definition analysisStep (acc : Z * Z * Z * num * num) (result : ShadowResult)
  : Z * Z * Z * num * num :=
  let '(wouldImprove, wouldWorsen, noChange, totalPositiveGain, totalNegativeLoss) :=
    acc in
  match improvement result with
  | None =>
      (wouldImprove, wouldWorsen, noChange + 1, totalPositiveGain, totalNegativeLoss)%Z
  | Some imp =>
      if (imp =? JS.zero)%num then
        (wouldImprove, wouldWorsen, noChange + 1, totalPositiveGain, totalNegativeLoss)%Z
      else if (imp >? JS.zero)%num then
        (wouldImprove + 1, wouldWorsen, noChange, (totalPositiveGain + imp)%num,
         totalNegativeLoss)%Z
      else
        (wouldImprove, wouldWorsen + 1, noChange, totalPositiveGain,
         (totalNegativeLoss + Math_abs imp)%num)%Z
  end.

Definition getImprovementAnalysis (s : t) : ImprovementAnalysis :=
  let '(wouldImprove, wouldWorsen, noChange, totalPositiveGain, totalNegativeLoss) :=
    fold_left analysisStep (results s) (0, 0, 0, JS.zero, JS.zero)%Z in
  {| wouldImprove := wouldImprove;
     wouldWorsen := wouldWorsen;
     noChange := noChange;
     avgPositiveGain :=
       if (0 <? wouldImprove)%Z
       then (totalPositiveGain / JS.of_Z wouldImprove)%num else JS.zero;
     avgNegativeLoss :=
       if (0 <? wouldWorsen)%Z
       then (totalNegativeLoss / JS.of_Z wouldWorsen)%num else JS.zero |}.

Definition clear (s : t) : t :=
  {| results := []; maxResults := maxResults s; enabled := enabled s |}.

End ShadowScheduler.

(* ===================================================================== *)
(** * Vocabulary of the properties *)
(* ===================================================================== *)

(** A load within the unit interval. *)
Definition loadInRange (worker : WorkerState) : bool :=
  (JS.zero <=? currentLoad worker)%num && (currentLoad worker <=? JS.one)%num.

(** Every worker held by the registry has its load within [0, 1]. *)
Definition LoadsInRange (r : WorkerRegistry.t) : Prop :=
  Forall (fun worker => loadInRange worker = true) (WorkerRegistry.getAll r).

(** The score the scorer gives a worker. *)
Definition scoreOf (config : MultiObjectiveScorer.ScorerConfig) (task : Task)
    (prediction : option TaskPrediction) (worker : WorkerState) : num :=
  MultiObjectiveScorer.ws_score
    (MultiObjectiveScorer.scoreWorker config task worker prediction).

(** The workers the scorer considers, in the order of its input. *)
Definition eligibleWorkers (task : Task) (workers : list WorkerState)
  : list WorkerState :=
  List.filter (fun w => Objectives.isWorkerEligible w (task_capabilities task))
              workers.

(** Data for the worked examples: an idle worker with room for four tasks
    and a task of priority 5 without metadata. *)
Definition exampleWorker (id : string) (load : num) : WorkerState :=
  {| w_id := id; w_status := idle; w_capabilities := [];
     currentLoad := load; lastHeartbeat := 0;
     activeTasks := JS.zero; maxConcurrency := JS.of_Z 4 |}.

Definition exampleTask (id : string) : Task :=
  {| task_id := id; task_type := "build"; task_payload := JObject [];
     task_priority := JS.of_Z 5; task_createdAt := DateAt 0;
     task_metadata := None |}.

(** [s] between double quotes, for the JSON texts of the examples. *)
Definition quoted (s : string) : string :=
  String (ascii_of_nat 34) (String.append s (String (ascii_of_nat 34) EmptyString)).

(** One call of [RoundRobinScheduler.schedule]: the registry as it is at
    the call, the task, the reason and the instant. *)
Record ScheduleCall : Type := mkCall {
  call_registry : WorkerRegistry.t;
  call_task : Task;
  call_reason : SchedulingReason;
  call_now : Z;
}.

(** The workers the call finds available. *)
Definition availableAt (c : ScheduleCall) : list WorkerState :=
  WorkerRegistry.getAvailable (call_registry c)
                              (task_capabilities (call_task c)) (call_now c).

(** Consecutive calls on one scheduler: the decisions in call order and the
    final scheduler. *)
Fixpoint runSchedule (s : RoundRobinScheduler.t) (calls : list ScheduleCall)
  : list (option SchedulingDecision) * RoundRobinScheduler.t :=
  match calls with
  | [] => ([], s)
  | c :: rest =>
      let '(decision, s1) :=
        RoundRobinScheduler.schedule (call_registry c) s (call_task c)
                                     (call_reason c) (call_now c) in
      let '(decisions, s2) := runSchedule s1 rest in
      (decision :: decisions, s2)
  end.

(** Is the decision a dispatch to this worker? *)
Definition isDispatchTo (workerId : string) (decision : option SchedulingDecision)
  : bool :=
  match decision with
  | Some d => String.eqb (d_workerId d) workerId
  | None => false
  end.

(** How many of the decisions dispatch to the worker. *)
Definition dispatchesTo (workerId : string)
    (decisions : list (option SchedulingDecision)) : Z :=
  Z.of_nat (length (List.filter (isDispatchTo workerId) decisions)).

Definition floorDiv (n k : Z) : Z := n / k.
Definition ceilDiv (n k : Z) : Z := (n + k - 1) / k.

(** The positions the cursor takes in [n] calls over [k] workers, from the
    cursor value [c]. *)
Fixpoint cursorPositions (k c : Z) (n : nat) : list Z :=
  match n with
  | O => []
  | S n' => let c' := Z.rem (c + 1) k in c' :: cursorPositions k c' n'
  end.

(** A registry of three idle workers, registered at instant 0, and seven
    consecutive round-robin calls on it at instant 1000. *)
Definition exampleRegistry : WorkerRegistry.t :=
  WorkerRegistry.register
    (WorkerRegistry.register
       (WorkerRegistry.register (WorkerRegistry.create 30000)
          (exampleWorker "w1" (dec 2 10)) 0)
       (exampleWorker "w2" (dec 5 10)) 0)
    (exampleWorker "w3" (dec 8 10)) 0.

Definition exampleCalls : list ScheduleCall :=
  replicate 7 {| call_registry := exampleRegistry;
                 call_task := exampleTask "t1";
                 call_reason := fallback_round_robin;
                 call_now := 1000 |}.

(** The registry keeps one worker per id, filed under its own id. *)
Definition WellKeyed (r : WorkerRegistry.t) : Prop :=
  NoDup (OMap.keys (WorkerRegistry.workers r))
  /\ Forall (fun kv : string * WorkerState => fst kv = w_id (snd kv))
            (WorkerRegistry.workers r).

(** Collaborators for the worked examples: the predictor settles as given
    for every task, and so do [publish] and [xack]; the clock reads 1000. *)
Definition exampleEnv (predicted : async_result (option TaskPrediction))
    (published acked : RedisOutcome) : Dispatcher.Env :=
  {| Dispatcher.now := 1000;
     Dispatcher.predict := fun _ => predicted;
     Dispatcher.publish := fun _ _ => published;
     Dispatcher.xack := fun _ _ _ => acked |}.

(** A connected, running dispatcher over the example registry, with the
    default configuration and the given breaker state. *)
Definition exampleDispatcher (breaker : Dispatcher.CircuitBreakerState)
  : Dispatcher.t :=
  {| Dispatcher.redis := true;
     Dispatcher.registry := exampleRegistry;
     Dispatcher.fallbackScheduler := RoundRobinScheduler.create;
     Dispatcher.config := Dispatcher.DEFAULT_SCHEDULER_CONFIG "redis://localhost:6379";
     Dispatcher.circuitBreaker := breaker;
     Dispatcher.running := true;
     Dispatcher.consumerName := "dispatcher-0" |}.

(** A prediction that recommends the given worker. *)
Definition examplePrediction (workerId : string) : TaskPrediction :=
  {| pred_taskId := "t1"; recommendedWorkerId := workerId;
     confidence := dec 9 10; estimatedDurationMs := JS.of_Z 1000 |}.

(** The breaker as [resetCircuitBreaker] leaves it. *)
Definition closedBreaker : Dispatcher.CircuitBreakerState :=
  {| Dispatcher.failures := 0; Dispatcher.lastFailure := None;
     Dispatcher.isOpen := false |}.

(** Is the effect an acknowledgment, a call of the predictor? *)
Definition isXack (e : Dispatcher.effect) : bool :=
  match e with Dispatcher.Xack _ _ _ => true | _ => false end.

Definition isPredictCall (e : Dispatcher.effect) : bool :=
  match e with Dispatcher.PredictCall _ => true | _ => false end.

(** The comparator [(a, b) => key(b) - key(a)]: descending by key. *)
Definition descendingBy {A : Type} (key : A -> num) (a b : A) : num :=
  (key b - key a)%num.

(** Does the worker at cursor position [i] of the list have this id? *)
Definition idAt (available : list WorkerState) (workerId : string) (i : Z)
  : bool :=
  match available !! Z.to_nat i with
  | Some w => String.eqb (w_id w) workerId
  | None => false
  end.


(** One call of [HeuristicPredictor.feedback]: how the snapshot write would
    settle, the duration, the task type and the instant. *)
Record FeedbackCall : Type := mkFeedbackCall {
  fb_outcome : RedisOutcome;
  fb_actual : num;
  fb_taskType : option string;
  fb_now : Z;
}.

(** Consecutive feedbacks on one predictor: the final predictor and the
    effects in call order. *)
Fixpoint runFeedbacks (p : HeuristicPredictor.t) (calls : list FeedbackCall)
  : HeuristicPredictor.t * list HeuristicPredictor.effect :=
  match calls with
  | [] => (p, [])
  | c :: rest =>
      let '(p1, effs1, _) :=
        HeuristicPredictor.feedback (fb_outcome c) p (fb_actual c)
                                    (fb_taskType c) (fb_now c) in
      let '(p2, effs2) := runFeedbacks p1 rest in
      (p2, effs1 ++ effs2)
  end.

(** How many of the calls carry this task type. *)
Definition feedbacksFor (taskType : string) (calls : list FeedbackCall) : Z :=
  Z.of_nat (length (List.filter
                      (fun c => match fb_taskType c with
                                | Some ty => String.eqb ty taskType
                                | None => false
                                end) calls)).

Definition isRedisSet (e : HeuristicPredictor.effect) : bool :=
  match e with HeuristicPredictor.RedisSet _ _ _ => true | _ => false end.

(** A feedback that carries a non-empty task type. *)
Definition hasTaskType (c : FeedbackCall) : bool :=
  match fb_taskType c with
  | Some ty => JS.truthy_str ty
  | None => false
  end.

(** Every stored state holds at least one sample.  This holds of a new
    predictor and is kept by [feedback] (lemmas [create_CountsPositive],
    [feedback_CountsPositive]). *)
Definition CountsPositive (p : HeuristicPredictor.t) : Prop :=
  map_Forall (fun (_ : string) st =>
                exists q : Q, Ema.sampleCount st = Fin q /\ (1 <= q)%Q)
             (HeuristicPredictor.predictions p).

(** Is the effect the emission of a drift event, of an accuracy warning? *)
Definition isDriftEvent (e : CompletionSubscriber.effect) : bool :=
  match e with
  | CompletionSubscriber.Emit (CompletionSubscriber.drift_detected _ _) => true
  | _ => false
  end.

Definition isAccuracyWarning (e : CompletionSubscriber.effect) : bool :=
  match e with
  | CompletionSubscriber.Emit (CompletionSubscriber.accuracy_warning _) => true
  | _ => false
  end.

(** The calls that change a registry, and a registry after a sequence of
    them. *)
Inductive RegistryCall : Type :=
| CallRegister (worker : WorkerState) (now : Z)
| CallUnregister (workerId : string)
| CallHeartbeat (workerId : string) (now : Z)
| CallUpdateStatus (workerId : string) (status : WorkerStatus)
| CallUpdateLoad (workerId : string) (load activeTasks : num)
| CallPruneStale (now : Z)
| CallClear.

Definition registryCall (r : WorkerRegistry.t) (call : RegistryCall)
  : WorkerRegistry.t :=
  match call with
  | CallRegister worker now => WorkerRegistry.register r worker now
  | CallUnregister workerId => fst (WorkerRegistry.unregister r workerId)
  | CallHeartbeat workerId now => fst (WorkerRegistry.heartbeat r workerId now)
  | CallUpdateStatus workerId status =>
      fst (WorkerRegistry.updateStatus r workerId status)
  | CallUpdateLoad workerId load activeTasks =>
      fst (WorkerRegistry.updateLoad r workerId load activeTasks)
  | CallPruneStale now => fst (WorkerRegistry.pruneStale r now)
  | CallClear => WorkerRegistry.clear r
  end.

Definition registryCalls (r : WorkerRegistry.t) (calls : list RegistryCall)
  : WorkerRegistry.t :=
  fold_left registryCall calls r.

(** The worker as [register] stores it: [{...worker, lastHeartbeat: now}]. *)
Definition stamped (worker : WorkerState) (now : Z) : WorkerState :=
  {| w_id := w_id worker; w_status := w_status worker;
     w_capabilities := w_capabilities worker; currentLoad := currentLoad worker;
     lastHeartbeat := now; activeTasks := activeTasks worker;
     maxConcurrency := maxConcurrency worker |}.




Definition isPublish (e : Dispatcher.effect) : bool :=
  match e with Dispatcher.Publish _ _ => true | _ => false end.

(** The message that [dispatchTask] publishes for a decision. *)
Definition dispatchMessage (task : Task) (decision : SchedulingDecision)
  : Dispatcher.DispatchMessage :=
  {| Dispatcher.m_taskId := task_id task; Dispatcher.m_task := task;
     Dispatcher.assignedAt := d_timestamp decision |}.

Definition dispatchChannel (decision : SchedulingDecision) : string :=
  String.append Dispatcher.DISPATCH_CHANNEL_PREFIX (d_workerId decision).

(** A number that is neither NaN nor an infinity. *)
Definition isFiniteNum (n : num) : bool :=
  match n with Fin _ => true | _ => false end.

(* ===================================================================== *)
(** * Properties *)
(* ===================================================================== *)

(** Closed statements about concrete inputs are settled by evaluation. *)
Ltac by_evaluation := vm_compute; repeat split; reflexivity.

(** ** Order on JavaScript numbers *)

Section NumOrder.
Implicit Types a b c : num.

Lemma ltb_irrefl a : (a <? a)%num = false.
Proof.
  destruct a as [| | |q]; simpl; try reflexivity.
  destruct (q ?= q)%Q eqn:E; try reflexivity.
  apply Qlt_alt in E. lra.
Qed.

Lemma ltb_Fin (x y : Q) : (Fin x <? Fin y)%num = true <-> (x < y)%Q.
Proof.
  simpl. rewrite Qlt_alt. destruct (x ?= y)%Q; split; congruence.
Qed.

Lemma eqb_Fin (x y : Q) : (Fin x =? Fin y)%num = true <-> (x == y)%Q.
Proof. simpl. apply Qeq_bool_iff. Qed.

Lemma leb_Fin (x y : Q) : (Fin x <=? Fin y)%num = true <-> (x <= y)%Q.
Proof.
  unfold JS.leb. rewrite orb_true_iff, ltb_Fin, eqb_Fin. lra.
Qed.

Lemma ltb_trans a b c :
  (a <? b)%num = true -> (b <? c)%num = true -> (a <? c)%num = true.
Proof.
  destruct a as [| | |x], b as [| | |y], c as [| | |z];
    try (simpl; congruence).
  rewrite !ltb_Fin. lra.
Qed.

Lemma leb_trans a b c :
  (a <=? b)%num = true -> (b <=? c)%num = true -> (a <=? c)%num = true.
Proof.
  destruct a as [| | |x], b as [| | |y], c as [| | |z];
    try (cbn; congruence).
  rewrite !leb_Fin. lra.
Qed.

Lemma ltb_leb a b : (a <? b)%num = true -> (a <=? b)%num = true.
Proof. unfold JS.leb. intros ->. reflexivity. Qed.

Lemma ltb_leb_trans a b c :
  (a <? b)%num = true -> (b <=? c)%num = true -> (a <? c)%num = true.
Proof.
  destruct a as [| | |x], b as [| | |y], c as [| | |z];
    try (cbn; congruence).
  rewrite !ltb_Fin, leb_Fin. lra.
Qed.

(** Two numbers that are not NaN are comparable. *)
Lemma not_ltb_leb a b :
  is_nan a = false -> is_nan b = false ->
  (a <? b)%num = false -> (b <=? a)%num = true.
Proof.
  destruct a as [| | |x], b as [| | |y]; try (cbn; congruence).
  intros _ _ H. apply leb_Fin.
  destruct (Qlt_le_dec x y) as [L|L]; [|exact L].
  apply ltb_Fin in L. congruence.
Qed.

Lemma ltb_not_leb a b : (a <? b)%num = true -> (b <=? a)%num = false.
Proof.
  destruct a as [| | |x], b as [| | |y]; try (cbn; congruence).
  rewrite ltb_Fin. intros L.
  destruct (Fin y <=? Fin x)%num eqn:E; [|reflexivity].
  apply leb_Fin in E. lra.
Qed.

Lemma leb_not_ltb a b : (a <=? b)%num = true -> (b <? a)%num = false.
Proof.
  destruct a as [| | |x], b as [| | |y]; try (cbn; congruence).
  rewrite leb_Fin. intros L.
  destruct (Fin y <? Fin x)%num eqn:E; [|reflexivity].
  apply ltb_Fin in E. lra.
Qed.

(** The sign of a difference: [b - a > 0] exactly when [a < b]. *)
Lemma sub_pos_ltb a b :
  is_nan a = false -> is_nan b = false ->
  (b - a >? JS.zero)%num = (a <? b)%num.
Proof.
  destruct a as [| | |x], b as [| | |y]; try (cbn; congruence).
  intros _ _. unfold JS.gtb, JS.sub, JS.zero. cbn [JS.neg JS.add].
  destruct (Fin x <? Fin y)%num eqn:E.
  - apply ltb_Fin. apply ltb_Fin in E. lra.
  - destruct (Fin 0 <? Fin (y + - x))%num eqn:E'; [|reflexivity].
    apply ltb_Fin in E'. assert (x < y)%Q as L by lra.
    apply ltb_Fin in L. congruence.
Qed.

(** Clamping to the unit interval. *)
Lemma clamp_in_range a :
  is_nan a = false ->
  let c := Math_max JS.zero (Math_min JS.one a) in
  (JS.zero <=? c)%num = true /\ (c <=? JS.one)%num = true.
Proof.
  intros Ha c. subst c. unfold Math_min, Math_max.
  change (is_nan JS.one) with false. change (is_nan JS.zero) with false.
  rewrite Ha. cbn [orb].
  destruct (a <? JS.one)%num eqn:E1.
  - rewrite Ha.
    destruct (JS.zero <? a)%num eqn:E2.
    + split; [apply ltb_leb, E2 | apply ltb_leb, E1].
    + split; reflexivity.
  - split; reflexivity.
Qed.
End NumOrder.

(** ** The heuristic predictor *)

Section PredictorFacts.
Import Ema HeuristicPredictor.

Lemma updateEMAState_count (state : EMAState) (actual alpha : num) (now : Z) :
  sampleCount (updateEMAState state actual alpha now)
  = (sampleCount state + JS.one)%num.
Proof. reflexivity. Qed.

Lemma updateEMAState_first (taskType : string) (initial actual alpha : num)
    (now now' : Z) :
  ema (updateEMAState (initializeEMA taskType initial now) actual alpha now')
  = actual.
Proof. reflexivity. Qed.

(** The predictions after a feedback do not depend on how the snapshot
    write settles. *)
Lemma feedback_predictions (set_outcome : RedisOutcome) (p : t)
    (actual : num) (c : ascii) (rest : string) (now : Z) :
  let ty := String c rest in
  let state := match predictions p !! ty with
               | Some s => s
               | None => initializeEMA ty (defaultDurationMs (config p)) now
               end in
  predictions (fst (fst (feedback set_outcome p actual (Some ty) now)))
  = <[ty := updateEMAState state actual (alpha (config p)) now]> (predictions p).
Proof.
  intros ty state. unfold feedback. fold ty. fold state.
  destruct (connected (persistence p)); [|reflexivity].
  destruct (trackUpdate _ _ _ _) as [[ps effs] res]. reflexivity.
Qed.

(** C5.  [predict] returns, for a task whose type has recorded EMA state,
    the stored ema as the estimated duration and
    min(1, sampleCount / confidenceThreshold) as the confidence; for an
    unknown type it returns the configured default duration with
    confidence 0, and the default configuration sets that duration to
    5000 ms (and the threshold to 100). *)
Theorem predict_contract (p : t) (task : Task) :
  match predictions p !! task_type task with
  | Some state =>
      estimatedDurationMs (predict p task) = ema state
      /\ confidence (predict p task)
         = Math_min JS.one (sampleCount state / confidenceThreshold (config p))%num
  | None =>
      estimatedDurationMs (predict p task) = defaultDurationMs (config p)
      /\ confidence (predict p task) = JS.zero
  end
  /\ defaultDurationMs DEFAULT_PREDICTOR_CONFIG = JS.of_Z 5000
  /\ confidenceThreshold DEFAULT_PREDICTOR_CONFIG = JS.of_Z 100.
Proof.
  split; [|split; reflexivity].
  unfold predict. destruct (predictions p !! task_type task); split; reflexivity.
Qed.

Lemma create_CountsPositive (cfg : HeuristicPredictorConfig) :
  CountsPositive (create cfg).
Proof. apply map_Forall_empty. Qed.

(** A feedback without a task type, or with the empty one, is ignored. *)
Lemma feedback_without_type (set_outcome : RedisOutcome) (p : t) (actual : num)
    (now : Z) :
  fst (fst (feedback set_outcome p actual None now)) = p
  /\ fst (fst (feedback set_outcome p actual (Some EmptyString) now)) = p.
Proof. split; reflexivity. Qed.

Lemma feedback_CountsPositive (set_outcome : RedisOutcome) (p : t) (actual : num)
    (taskType : option string) (now : Z) :
  CountsPositive p ->
  CountsPositive (fst (fst (feedback set_outcome p actual taskType now))).
Proof.
  intros Hp. destruct taskType as [[|c rest]|]; try exact Hp.
  unfold CountsPositive. rewrite feedback_predictions.
  apply map_Forall_insert_2; [|exact Hp].
  cbn [updateEMAState sampleCount].
  destruct (predictions p !! String c rest) as [prev|] eqn:E.
  - destruct (Hp _ _ E) as (q & -> & Hq). exists (q + 1)%Q. split; [reflexivity|lra].
  - exists (0 + 1)%Q. split; [reflexivity|lra].
Qed.

Lemma runFeedbacks_CountsPositive (calls : list FeedbackCall) (p : t) :
  CountsPositive p -> CountsPositive (fst (runFeedbacks p calls)).
Proof.
  revert p. induction calls as [|call calls IH]; intros p Hp; [exact Hp|].
  cbn [runFeedbacks].
  pose proof (feedback_CountsPositive (fb_outcome call) p (fb_actual call)
                (fb_taskType call) (fb_now call) Hp) as Hstep.
  destruct (feedback _ p _ _ _) as [[p1 effs1] res]. cbn [fst] in Hstep.
  specialize (IH p1 Hstep). destruct (runFeedbacks p1 calls) as [p2 effs2].
  exact IH.
Qed.

(** C4.  For every feedback with a (non-empty) task type on a predictor
    whose stored states hold at least one sample each, as they do in every
    predictor fed by [feedback] from its construction: if the type has no
    prior state, the state stored for it has ema = actual and
    sampleCount = 1; otherwise it has
    ema = alpha * actual + (1 - alpha) * previous ema and the previous
    sampleCount plus 1.  This holds however the snapshot write settles. *)
Theorem feedback_law (set_outcome : RedisOutcome) (p : t) (actual : num)
    (c : ascii) (rest : string) (now : Z) :
  CountsPositive p ->
  let ty := String c rest in
  let p' := fst (fst (feedback set_outcome p actual (Some ty) now)) in
  exists st, predictions p' !! ty = Some st /\
    match predictions p !! ty with
    | None => ema st = actual /\ sampleCount st = JS.one
    | Some prev =>
        ema st = (alpha (config p) * actual
                  + (JS.one - alpha (config p)) * ema prev)%num
        /\ sampleCount st = (sampleCount prev + JS.one)%num
    end.
Proof.
  intros Hp. cbv zeta. rewrite feedback_predictions.
  eexists. split; [apply lookup_insert_eq|].
  destruct (predictions p !! String c rest) as [prev|] eqn:E.
  - destruct (Hp _ _ E) as (q & Hq & Hq1).
    split; [|reflexivity]. cbn [updateEMAState ema]. rewrite Hq.
    assert ((Fin q =? JS.zero)%num = false) as ->; [|reflexivity].
    destruct (Fin q =? JS.zero)%num eqn:Ez; [|reflexivity].
    apply eqb_Fin in Ez. lra.
  - split; reflexivity.
Qed.

Lemma feedback_law_witness :
  let p0 := create DEFAULT_PREDICTOR_CONFIG in
  let p := fst (runFeedbacks p0 [{| fb_outcome := RedisOk; fb_actual := JS.of_Z 1000;
                                    fb_taskType := Some "build"; fb_now := 1 |}]) in
  let p' := fst (fst (feedback RedisOk p (JS.of_Z 2000) (Some "build") 2)) in
  exists st, predictions p' !! "build" = Some st /\
    match predictions p !! "build" with
    | None => ema st = JS.of_Z 2000 /\ sampleCount st = JS.one
    | Some prev =>
        ema st = (alpha (config p) * JS.of_Z 2000
                  + (JS.one - alpha (config p)) * ema prev)%num
        /\ sampleCount st = (sampleCount prev + JS.one)%num
    end.
Proof.
  apply (feedback_law RedisOk
           (fst (runFeedbacks (create DEFAULT_PREDICTOR_CONFIG)
                   [{| fb_outcome := RedisOk; fb_actual := JS.of_Z 1000;
                       fb_taskType := Some "build"; fb_now := 1 |}]))
           (JS.of_Z 2000) "b" "uild" 2).
  apply runFeedbacks_CountsPositive, create_CountsPositive.
Defined.

(** The cases of the unit tests of the EMA utilities. *)
Example updateEMA_tests :
  (updateEMA (JS.of_Z 100) (JS.of_Z 200) (dec 3 10) =? JS.of_Z 130)%num = true
  /\ (updateEMA (JS.of_Z 100) (JS.of_Z 200) (dec 10 10) =? JS.of_Z 200)%num = true
  /\ (updateEMA (JS.of_Z 100) (JS.of_Z 200) (dec 0 10) =? JS.of_Z 100)%num = true
  /\ (updateEMA (JS.of_Z (-100)) (JS.of_Z (-50)) (dec 3 10) =? JS.of_Z (-85))%num = true.
Proof. by_evaluation. Qed.

Example calculateConfidence_tests :
  (calculateConfidence (JS.of_Z 0) (JS.of_Z 100) =? JS.zero)%num = true
  /\ (calculateConfidence (JS.of_Z 50) (JS.of_Z 100) =? dec 5 10)%num = true
  /\ (calculateConfidence (JS.of_Z 100) (JS.of_Z 100) =? JS.one)%num = true
  /\ (calculateConfidence (JS.of_Z 1000) (JS.of_Z 100) =? JS.one)%num = true
  /\ (calculateConfidence (JS.of_Z 25) (JS.of_Z 50) =? dec 5 10)%num = true.
Proof. by_evaluation. Qed.

(** Feedback on a fresh predictor, then a second sample: 1000 then 2000
    with alpha = 0.3 gives ema = 0.3 * 2000 + 0.7 * 1000 = 1300. *)
Example feedback_twice :
  let p0 := create DEFAULT_PREDICTOR_CONFIG in
  let p1 := fst (fst (feedback RedisOk p0 (JS.of_Z 1000) (Some "build") 1)) in
  let p2 := fst (fst (feedback RedisOk p1 (JS.of_Z 2000) (Some "build") 2)) in
  (ema <$> predictions p1 !! "build") = Some (JS.of_Z 1000)
  /\ (JS.eqb (JS.of_Z 1300) <$> (ema <$> predictions p2 !! "build")) = Some true
  /\ (sampleCount <$> predictions p2 !! "build") = Some (JS.of_Z 2).
Proof. by_evaluation. Qed.
End PredictorFacts.

(** ** Drift detection *)

Section DriftFacts.
Import DriftDetector.

(** For a positive prediction the result is read off the ratio. *)
Lemma detectDrift_positive (predicted actual : num) (config : DriftConfig) :
  (JS.zero <? predicted)%num = true ->
  let r := detectDrift predicted actual config in
  ratio r = (actual / predicted)%num
  /\ isDrift r = (ratio r <? lowerThreshold config)%num
                 || (ratio r >? upperThreshold config)%num
  /\ severity r = if isDrift r
                  then if (ratio r <? dec 33 100)%num || (ratio r >? dec 30 10)%num
                       then major else minor
                  else none.
Proof.
  intros Hpos. unfold detectDrift.
  rewrite (ltb_not_leb _ _ Hpos). cbn. repeat split; reflexivity.
Qed.

(** C10.  For every prediction that is zero or negative, whatever the
    actual value and the thresholds, [detectDrift] returns the same defined
    result: drift, ratio +Infinity, severity major.  The result does not
    depend on [actual]: no quotient is formed. *)
Theorem detectDrift_nonpositive (predicted actual : num) (config : DriftConfig) :
  (predicted <=? JS.zero)%num = true ->
  detectDrift predicted actual config
  = {| isDrift := true; ratio := PInf; severity := major;
       message := InvalidPrediction |}.
Proof. intros H. unfold detectDrift. rewrite H. reflexivity. Qed.

Lemma detectDrift_nonpositive_witness :
  (JS.of_Z (-100) <=? JS.zero)%num = true
  /\ detectDrift (JS.of_Z (-100)) (JS.of_Z 1000) DEFAULT_DRIFT_CONFIG
     = {| isDrift := true; ratio := PInf; severity := major;
          message := InvalidPrediction |}.
Proof.
  split; [reflexivity|].
  apply (detectDrift_nonpositive (JS.of_Z (-100)) (JS.of_Z 1000)
                                 DEFAULT_DRIFT_CONFIG).
  reflexivity.
Defined.

(** [detectDrift] is defined on the special values too: a NaN prediction
    is not "<= 0", its ratio is NaN and no comparison flags it; an infinite
    prediction gives ratio 0. *)
Example detectDrift_special_values :
  detectDrift NaN (JS.of_Z 1000) DEFAULT_DRIFT_CONFIG
  = {| isDrift := false; ratio := NaN; severity := none;
       message := PredictionAccurate NaN |}
  /\ isDrift (detectDrift PInf (JS.of_Z 1000) DEFAULT_DRIFT_CONFIG) = true
  /\ detectDrift NInf NaN DEFAULT_DRIFT_CONFIG
     = {| isDrift := true; ratio := PInf; severity := major;
          message := InvalidPrediction |}.
Proof. by_evaluation. Qed.

(** The tests of the source: zero and negative predictions. *)
Example detectDrift_zero_prediction :
  severity (detectDrift (JS.of_Z 0) (JS.of_Z 1000) DEFAULT_DRIFT_CONFIG) = major.
Proof. reflexivity. Qed.

(** C8 at the boundary of the severity classes.  A completion with
    predicted 1000 ms and actual 331 ms has ratio 0.331, below one third,
    a deviation of more than 3x; [detectDrift] flags it and classifies it
    as minor, because the code compares the ratio with 0.33. *)
Theorem drift_severity_below_one_third :
  let r := detectDrift (JS.of_Z 1000) (JS.of_Z 331) DEFAULT_DRIFT_CONFIG in
  isDrift r = true
  /\ (ratio r =? dec 331 1000)%num = true
  /\ (ratio r <? dec 1 3)%num = true
  /\ severity r = minor.
Proof. vm_compute. repeat split; reflexivity. Qed.

(** The whole band between 0.33 and one third: every completion with a
    positive prediction whose ratio lies in it is flagged and classified as
    minor. *)
Lemma drift_band_below_one_third (predicted actual : num) :
  (JS.zero <? predicted)%num = true ->
  (dec 33 100 <=? actual / predicted)%num = true ->
  (actual / predicted <? dec 1 3)%num = true ->
  isDrift (detectDrift predicted actual DEFAULT_DRIFT_CONFIG) = true
  /\ severity (detectDrift predicted actual DEFAULT_DRIFT_CONFIG) = minor.
Proof.
  intros Hpos Hlow Hhigh.
  destruct (detectDrift_positive predicted actual DEFAULT_DRIFT_CONFIG Hpos)
    as (Hr & Hd & Hs).
  cbv zeta in *. rewrite Hr in Hd, Hs.
  assert ((actual / predicted <? dec 5 10)%num = true) as Hhalf.
  { eapply ltb_trans; [exact Hhigh|reflexivity]. }
  assert ((actual / predicted >? dec 30 10)%num = false) as Hthree.
  { unfold JS.gtb. apply leb_not_ltb, ltb_leb.
    eapply ltb_trans; [exact Hhigh|reflexivity]. }
  cbn [lowerThreshold upperThreshold DEFAULT_DRIFT_CONFIG] in Hd.
  rewrite Hhalf in Hd. cbn [orb] in Hd. rewrite Hd in Hs.
  rewrite (leb_not_ltb _ _ Hlow), Hthree in Hs.
  split; [exact Hd|exact Hs].
Qed.

(** The same completion seen by a running subscriber: the drift event it
    emits carries severity minor. *)
Example processCompletion_boundary_event :
  let s0 := CompletionSubscriber.create CompletionSubscriber.DEFAULT_COMPLETION_CONFIG in
  let s := {| CompletionSubscriber.hasFeedback := false;
              CompletionSubscriber.accuracyTracker :=
                CompletionSubscriber.accuracyTracker s0;
              CompletionSubscriber.config := CompletionSubscriber.config s0;
              CompletionSubscriber.isRunning := true;
              CompletionSubscriber.completionCount := 0 |} in
  let c := {| CompletionSubscriber.c_taskId := "t1";
              CompletionSubscriber.c_taskType := "build";
              CompletionSubscriber.c_workerId := "w1";
              CompletionSubscriber.c_startedAt := DateAt 0;
              CompletionSubscriber.c_completedAt := DateAt 331;
              CompletionSubscriber.durationMs := JS.of_Z 331;
              CompletionSubscriber.c_success := true;
              CompletionSubscriber.predictedDurationMs := Some (JS.of_Z 1000) |} in
  exists d,
    snd (fst (CompletionSubscriber.processCompletion (Resolved tt) s c 331))
    = [CompletionSubscriber.ConsoleWarn "[Feedback] Drift detected";
       CompletionSubscriber.Emit (CompletionSubscriber.drift_detected "build" d)]
    /\ severity d = minor.
Proof. eexists. split; vm_compute; reflexivity. Qed.

(** The unit tests at the exact thresholds: ratios 0.5 and 2.0 are not
    drift, 0.499 and 2.001 are. *)
Example detectDrift_threshold_tests :
  isDrift (detectDrift (JS.of_Z 1000) (JS.of_Z 500) DEFAULT_DRIFT_CONFIG) = false
  /\ isDrift (detectDrift (JS.of_Z 1000) (JS.of_Z 2000) DEFAULT_DRIFT_CONFIG) = false
  /\ isDrift (detectDrift (JS.of_Z 1000) (JS.of_Z 499) DEFAULT_DRIFT_CONFIG) = true
  /\ isDrift (detectDrift (JS.of_Z 1000) (JS.of_Z 2001) DEFAULT_DRIFT_CONFIG) = true
  /\ isWithinThreshold (JS.of_Z 1000) (JS.of_Z 1250) (dec 25 100) = true
  /\ isWithinThreshold (JS.of_Z 1000) (JS.of_Z 1300) (dec 25 100) = false
  /\ isWithinThreshold (JS.of_Z 1000) (JS.of_Z 3000) (dec 25 100) = false.
Proof. by_evaluation. Qed.

(** The examples of the specification: 3000 against 1000 is minor,
    4000 against 1000 is major. *)
Example drift_minor_major :
  severity (detectDrift (JS.of_Z 1000) (JS.of_Z 3000) DEFAULT_DRIFT_CONFIG) = minor
  /\ severity (detectDrift (JS.of_Z 1000) (JS.of_Z 4000) DEFAULT_DRIFT_CONFIG) = major.
Proof. split; reflexivity. Qed.
End DriftFacts.

(** ** The worker registry *)

Section RegistryFacts.
Import WorkerRegistry.

Lemma OMap_get_In {V : Type} (k : string) (v : V) (m : OMap.t V) :
  OMap.get k m = Some v -> In v (OMap.values m).
Proof.
  induction m as [|[k' v'] m IH]; cbn; [discriminate|].
  destruct (String.eqb k k').
  - intros [= ->]. now left.
  - intros H. right. apply IH, H.
Qed.

Lemma OMap_values_set {V : Type} (P : V -> Prop) (k : string) (v : V)
    (m : OMap.t V) :
  P v -> Forall P (OMap.values m) -> Forall P (OMap.values (OMap.set k v m)).
Proof.
  intros Hv. induction m as [|[k' v'] m IH]; cbn; intros Hm.
  - repeat constructor. exact Hv.
  - inversion Hm as [|? ? Hv' Hm']; subst.
    destruct (String.eqb k k'); cbn; constructor; auto.
Qed.

Lemma OMap_values_delete {V : Type} (P : V -> Prop) (k : string) (m : OMap.t V) :
  Forall P (OMap.values m) -> Forall P (OMap.values (OMap.delete k m)).
Proof.
  induction m as [|[k' v'] m IH]; cbn; intros Hm; [constructor|].
  inversion Hm as [|? ? Hv' Hm']; subst.
  destruct (String.eqb k k'); cbn; [exact Hm'|constructor; auto].
Qed.

Lemma mutate_preserves (P : WorkerState -> Prop) (r : t) (workerId : string)
    (f : WorkerState -> WorkerState) :
  (forall w, P w -> P (f w)) ->
  Forall P (getAll r) -> Forall P (getAll (fst (mutate r workerId f))).
Proof.
  intros Hf Hr. unfold mutate.
  destruct (OMap.get workerId (workers r)) as [w|] eqn:E; [|exact Hr].
  cbn. apply OMap_values_set; [|exact Hr].
  apply Hf. apply OMap_get_In in E.
  unfold getAll in Hr. rewrite List.Forall_forall in Hr. apply Hr, E.
Qed.

(** [updateLoad] stores a clamped load: after it the updated worker, and
    with it every worker of a registry whose loads were in range, has a load
    in [0, 1], provided the load written is a number (not NaN). *)
Lemma updateLoad_in_range (r : t) (workerId : string) (load tasks : num) :
  is_nan load = false ->
  LoadsInRange r -> LoadsInRange (fst (updateLoad r workerId load tasks)).
Proof.
  intros Hload Hr. unfold LoadsInRange, updateLoad, mutate.
  destruct (OMap.get workerId (workers r)) as [w|] eqn:E; [|exact Hr].
  cbn. apply OMap_values_set; [|exact Hr].
  unfold loadInRange. cbn.
  destruct (clamp_in_range load Hload) as [H0 H1].
  now rewrite H0, H1.
Qed.

Lemma heartbeat_in_range (r : t) (workerId : string) (now : Z) :
  LoadsInRange r -> LoadsInRange (fst (heartbeat r workerId now)).
Proof. apply mutate_preserves. intros w H. exact H. Qed.

Lemma updateStatus_in_range (r : t) (workerId : string) (status : WorkerStatus) :
  LoadsInRange r -> LoadsInRange (fst (updateStatus r workerId status)).
Proof. apply mutate_preserves. intros w H. exact H. Qed.

Lemma pruneStale_in_range (r : t) (now : Z) :
  LoadsInRange r -> LoadsInRange (fst (pruneStale r now)).
Proof.
  unfold LoadsInRange, pruneStale, getAll, OMap.values. cbn.
  induction (workers r) as [|[k w] m IH]; cbn; intros H; [constructor|].
  inversion H as [|? ? Hw Hm]; subst. constructor; [|apply IH, Hm].
  cbn. destruct (isStale r now w); exact Hw.
Qed.

Lemma unregister_in_range (r : t) (workerId : string) :
  LoadsInRange r -> LoadsInRange (fst (unregister r workerId)).
Proof. apply OMap_values_delete. Qed.

(** [register] keeps the load it is given: the loads stay in range only
    when the registered worker's load is. *)
Lemma register_in_range (r : t) (worker : WorkerState) (now : Z) :
  loadInRange worker = true ->
  LoadsInRange r -> LoadsInRange (register r worker now).
Proof.
  intros Hw Hr. unfold LoadsInRange, register. cbn.
  apply OMap_values_set; [exact Hw|exact Hr].
Qed.

(** The unit test 'should clamp load between 0 and 1'. *)
Example updateLoad_clamp_tests :
  let r := register (create 30000) (exampleWorker "worker-1" JS.zero) 0 in
  (currentLoad <$> get (fst (updateLoad r "worker-1" (dec 15 10) (JS.of_Z 5))) "worker-1")
  = Some JS.one
  /\ (currentLoad <$> get (fst (updateLoad r "worker-1" (dec (-5) 10) (JS.of_Z 5))) "worker-1")
     = Some JS.zero
  /\ snd (updateLoad r "non-existent" (dec 5 10) (JS.of_Z 5)) = false.
Proof. by_evaluation. Qed.

(** C7 at [register].  Registering a worker whose load is 1.5 in an empty
    registry leaves a WorkerState with currentLoad 1.5 in the registry:
    [register] stores the load unclamped, where [updateLoad] clamps it. *)
Theorem register_stores_load_unclamped :
  let worker := {| w_id := "w1"; w_status := idle; w_capabilities := [];
                   currentLoad := dec 15 10; lastHeartbeat := 0;
                   activeTasks := JS.zero; maxConcurrency := JS.of_Z 4 |} in
  let r := register (create 30000) worker 1000 in
  (currentLoad <$> get r "w1") = Some (dec 15 10)
  /\ (loadInRange <$> get r "w1") = Some false
  /\ ~ LoadsInRange r
  /\ (currentLoad <$> get (fst (updateLoad r "w1" (dec 15 10) JS.zero)) "w1")
     = Some JS.one.
Proof.
  cbv zeta. repeat split; try reflexivity.
  intros H. inversion H as [|? ? Hw _]. vm_compute in Hw. discriminate Hw.
Qed.
End RegistryFacts.

(** ** The scorer *)

Section SortFacts.
Context {A : Type} (key : A -> num).


Lemma sort_head (x : A) (l : list A) :
  hd_error (ArraySort.sort (descendingBy key) (x :: l))
  = match hd_error (ArraySort.sort (descendingBy key) l) with
    | None => Some x
    | Some y => if (descendingBy key x y >? JS.zero)%num then Some y else Some x
    end.
Proof.
  cbn [ArraySort.sort].
  destruct (ArraySort.sort (descendingBy key) l) as [|y rest]; [reflexivity|].
  cbn [ArraySort.insert hd_error].
  destruct (descendingBy key x y >? JS.zero)%num; reflexivity.
Qed.

(** The head of the sorted array is the earliest element of the input that
    attains the greatest key. *)
Lemma sort_head_first_best (l : list A) :
  Forall (fun a => is_nan (key a) = false) l ->
  l <> [] ->
  exists pre best post,
    l = pre ++ best :: post
    /\ hd_error (ArraySort.sort (descendingBy key) l) = Some best
    /\ (forall a, In a pre -> (key a <? key best)%num = true)
    /\ (forall a, In a post -> (key a <=? key best)%num = true).
Proof.
  induction l as [|x rest IH]; intros Hnan Hne; [congruence|].
  inversion Hnan as [|? ? Hx Hrest]; subst.
  destruct rest as [|y rest'].
  - exists [], x, []. cbn. repeat split; intros a [].
  - destruct (IH Hrest ltac:(discriminate)) as (pre & best & post & El & Hd & Hpre & Hpost).
    assert (is_nan (key best) = false) as Hbest.
    { rewrite List.Forall_forall in Hrest. apply Hrest. rewrite El.
      apply in_or_app. right. now left. }
    rewrite sort_head, Hd. unfold descendingBy at 1.
    rewrite (sub_pos_ltb _ _ Hx Hbest).
    destruct (key x <? key best)%num eqn:E.
    + exists (x :: pre), best, post. rewrite El. repeat split; auto.
      intros a [<-|Ha]; auto.
    + pose proof (not_ltb_leb _ _ Hx Hbest E) as Hle.
      exists [], x, (y :: rest'). repeat split; [intros a []|].
      rewrite El. intros a Ha. apply in_app_or in Ha as [Ha|[<-|Ha]].
      * apply ltb_leb. eapply ltb_leb_trans; [apply Hpre, Ha|exact Hle].
      * exact Hle.
      * eapply leb_trans; [apply Hpost, Ha|exact Hle].
Qed.
End SortFacts.

Section ScorerFacts.
Import Objectives MultiObjectiveScorer.

(** C6, as the code has it.  When no eligible worker's score is NaN, the
    scorer selects the eligible worker that comes first in the input list
    among those attaining the maximal score: every eligible worker before it
    scores strictly less and every one after it scores at most as much.
    The sort is stable on the input order and the worker id is not
    consulted.  [score] is a function of its arguments, so equal inputs give
    the same choice. *)
Theorem score_selects_first_best (config : ScorerConfig) (task : Task)
    (workers : list WorkerState) (prediction : option TaskPrediction) :
  Forall (fun w => is_nan (scoreOf config task prediction w) = false)
         (eligibleWorkers task workers) ->
  eligibleWorkers task workers <> [] ->
  exists pre best post result,
    eligibleWorkers task workers = pre ++ best :: post
    /\ score config task workers prediction = Some result
    /\ workerId result = w_id best
    /\ score_value result = scoreOf config task prediction best
    /\ (forall w, In w pre ->
          (scoreOf config task prediction w <? scoreOf config task prediction best)%num
          = true)
    /\ (forall w, In w post ->
          (scoreOf config task prediction w <=? scoreOf config task prediction best)%num
          = true).
Proof.
  intros Hnan Hne.
  set (f := fun worker => scoreWorker config task worker prediction).
  destruct (sort_head_first_best ws_score (f <$> eligibleWorkers task workers))
    as (pre & best & post & El & Hd & Hpre & Hpost).
  { apply List.Forall_forall. intros a Ha. apply in_map_iff in Ha as (w & <- & Hw).
    rewrite List.Forall_forall in Hnan. apply (Hnan w Hw). }
  { destruct (eligibleWorkers task workers); [congruence|discriminate]. }
  apply fmap_app_inv in El as (pre' & tl & -> & Etl & Eel).
  symmetry in Etl. apply fmap_cons_inv in Etl as (best' & post' & -> & -> & ->).
  exists pre', best', post'.
  unfold score. fold (eligibleWorkers task workers). fold f.
  change (descendingBy ws_score) with byScoreDescending in Hd.
  destruct (eligibleWorkers task workers) as [|e es] eqn:Ee; [congruence|].
  rewrite <- Ee in *. clear Ee.
  destruct (ArraySort.sort byScoreDescending (f <$> eligibleWorkers task workers))
    as [|b alts]; [discriminate Hd|].
  cbn in Hd. injection Hd as ->.
  eexists. repeat split; try reflexivity; try exact Eel.
  - intros w Hw. apply (Hpre (f w)). apply in_map_iff. eauto.
  - intros w Hw. apply (Hpost (f w)). apply in_map_iff. eauto.
Qed.

Lemma score_selects_first_best_witness :
  let config := DEFAULT_SCORER_CONFIG in
  let task := exampleTask "t1" in
  let workers := [exampleWorker "w2" (dec 5 10); exampleWorker "w1" (dec 5 10)] in
  exists pre best post result,
    eligibleWorkers task workers = pre ++ best :: post
    /\ score config task workers None = Some result
    /\ workerId result = w_id best
    /\ score_value result = scoreOf config task None best
    /\ (forall w, In w pre ->
          (scoreOf config task None w <? scoreOf config task None best)%num = true)
    /\ (forall w, In w post ->
          (scoreOf config task None w <=? scoreOf config task None best)%num = true).
Proof.
  apply (score_selects_first_best DEFAULT_SCORER_CONFIG (exampleTask "t1")
           [exampleWorker "w2" (dec 5 10); exampleWorker "w1" (dec 5 10)] None).
  - repeat constructor.
  - discriminate.
Defined.

(** C6, as stated, fails: two workers with equal load tie on the score;
    given in the order w2, w1 the scorer selects w2, although w1 is the
    smaller id; given in the order w1, w2 it selects w1. *)
Lemma score_tie_follows_input_order :
  let config := DEFAULT_SCORER_CONFIG in
  let task := exampleTask "t1" in
  let w1 := exampleWorker "w1" (dec 5 10) in
  let w2 := exampleWorker "w2" (dec 5 10) in
  scoreOf config task None w1 = scoreOf config task None w2
  /\ String.ltb "w1" "w2" = true
  /\ (workerId <$> score config task [w2; w1] None) = Some "w2"
  /\ (workerId <$> score config task [w1; w2] None) = Some "w1".
Proof. vm_compute. repeat split; reflexivity. Qed.
End ScorerFacts.

(** ** The round-robin fallback *)

Section RoundRobinFacts.
Import RoundRobinScheduler.
Local Open Scope Z_scope.

Lemma div_step (K m j : Z) :
  0 < K -> 0 <= m -> 0 <= j < K ->
  (m + 1 + (K - 1 - j)) / K = (m + (K - 1 - j)) / K + (if m mod K =? j then 1 else 0).
Proof.
  intros HK Hm Hj.
  pose proof (Z.div_mod m K ltac:(lia)) as E.
  pose proof (Z.mod_pos_bound m K HK) as B.
  set (q := m / K) in *. set (r := m mod K) in *.
  replace (m + 1 + (K - 1 - j)) with (q * K + (r + K - j)) by lia.
  replace (m + (K - 1 - j)) with (q * K + (r + K - 1 - j)) by lia.
  rewrite !Z.div_add_l by lia.
  destruct (Z.eqb_spec r j) as [->|Hne].
  - replace (j + K - j) with (1 * K) by lia. rewrite Z.div_mul by lia.
    rewrite Z.div_small by lia. lia.
  - destruct (Z_lt_le_dec r j).
    + rewrite !Z.div_small by lia. lia.
    + replace (r + K - j) with (1 * K + (r - j)) by lia.
      replace (r + K - 1 - j) with (1 * K + (r - j - 1)) by lia.
      rewrite !Z.div_add_l by lia. rewrite !Z.div_small by lia. lia.
Qed.

Lemma div_window (K b n : Z) :
  0 < K -> 0 <= b -> 0 <= n ->
  (b + n) / K - b / K = floorDiv n K \/ (b + n) / K - b / K = ceilDiv n K.
Proof.
  intros HK Hb Hn. unfold floorDiv, ceilDiv.
  pose proof (Z.div_mod b K ltac:(lia)) as Eb.
  pose proof (Z.mod_pos_bound b K HK) as Bb.
  pose proof (Z.div_mod n K ltac:(lia)) as En.
  pose proof (Z.mod_pos_bound n K HK) as Bn.
  set (qb := b / K) in *. set (rb := b mod K) in *.
  set (qn := n / K) in *. set (rn := n mod K) in *.
  replace (b + n) with ((qb + qn) * K + (rb + rn)) by lia.
  replace (n + K - 1) with (qn * K + (rn + K - 1)) by lia.
  rewrite !Z.div_add_l by lia.
  destruct (Z_lt_le_dec (rb + rn) K).
  - left. rewrite Z.div_small by lia. lia.
  - right. replace (rb + rn) with (1 * K + (rb + rn - K)) by lia.
    replace (rn + K - 1) with (1 * K + (rn - 1)) by lia.
    rewrite !Z.div_add_l by lia. rewrite !Z.div_small by lia. lia.
Qed.

Lemma cursor_step (K c : Z) :
  0 < K -> -1 <= c -> Z.rem (c + 1) K = (c + 1) mod K /\ 0 <= Z.rem (c + 1) K < K.
Proof.
  intros HK Hc. rewrite Z.rem_mod_nonneg by lia.
  split; [reflexivity|]. apply Z.mod_pos_bound, HK.
Qed.

Lemma cursorPositions_range (K c : Z) (n : nat) :
  0 < K -> -1 <= c -> Forall (fun i => 0 <= i < K) (cursorPositions K c n).
Proof.
  intros HK. revert c. induction n as [|n IH]; intros c Hc; cbn; constructor.
  - apply cursor_step; assumption.
  - apply IH. pose proof (cursor_step K c HK Hc). lia.
Qed.

Lemma cursorPositions_count (K c j : Z) (n : nat) :
  0 < K -> -1 <= c -> 0 <= j < K ->
  Z.of_nat (length (List.filter (Z.eqb j) (cursorPositions K c n)))
  = (c + 1 + (K - 1 - j) + Z.of_nat n) / K - (c + 1 + (K - 1 - j)) / K.
Proof.
  intros HK Hc Hj. revert c Hc. induction n as [|n IH]; intros c Hc.
  - cbn. rewrite Z.add_0_r. lia.
  - cbn [cursorPositions List.filter].
    destruct (cursor_step K c HK Hc) as [E B]. set (c' := Z.rem (c + 1) K) in *.
    assert (Z.of_nat (length (if j =? c' then c' :: List.filter (Z.eqb j) (cursorPositions K c' n)
                              else List.filter (Z.eqb j) (cursorPositions K c' n)))
            = (if j =? c' then 1 else 0)
              + Z.of_nat (length (List.filter (Z.eqb j) (cursorPositions K c' n)))) as ->.
    { destruct (j =? c'); cbn [length]; lia. }
    rewrite IH by lia.
    pose proof (div_step K c' j HK ltac:(lia) Hj) as S1.
    rewrite (Z.mod_small c' K) in S1 by lia.
    rewrite (Z.eqb_sym j c').
    pose proof (Z.div_mod (c + 1) K ltac:(lia)) as D. rewrite <- E in D.
    fold c' in D. set (q := (c + 1) / K) in *.
    replace (c + 1 + (K - 1 - j) + Z.of_nat (S n))
      with (q * K + (c' + 1 + (K - 1 - j) + Z.of_nat n)) by lia.
    replace (c + 1 + (K - 1 - j)) with (q * K + (c' + (K - 1 - j))) by lia.
    rewrite !Z.div_add_l by lia. lia.
Qed.

Lemma scheduleAmong_in_range (available : list WorkerState) (s : t)
    (task : Task) (reason : SchedulingReason) (now : Z) :
  -1 <= lastIndex s -> available <> [] ->
  let c' := Z.rem (lastIndex s + 1) (Z.of_nat (length available)) in
  exists w,
    available !! Z.to_nat c' = Some w
    /\ scheduleAmong available s task reason now
       = (Some {| d_taskId := task_id task; d_workerId := w_id w;
                  d_timestamp := now; usedFallback := true;
                  d_prediction := None; reason := reason |},
          {| lastIndex := c' |}).
Proof.
  intros Hc Hne. cbv zeta.
  assert (0 < Z.of_nat (length available)) as HK.
  { destruct available; [congruence|cbn; lia]. }
  destruct (cursor_step _ _ HK Hc) as [_ B].
  remember (Z.rem (lastIndex s + 1) (Z.of_nat (length available))) as c' eqn:Ec.
  destruct (lookup_lt_is_Some_2 available (Z.to_nat c') ltac:(lia)) as [w Hw].
  exists w. split; [exact Hw|].
  unfold scheduleAmong. destruct available as [|a l] eqn:E; [congruence|].
  cbv beta iota zeta. rewrite <- E in *. rewrite <- Ec.
  destruct (Z.leb_spec 0 c') as [_|]; [|lia].
  rewrite Hw. reflexivity.
Qed.

Lemma scheduleAmong_empty (s : t) (task : Task) (reason : SchedulingReason)
    (now : Z) :
  scheduleAmong [] s task reason now = (None, s).
Proof. reflexivity. Qed.

Lemma runSchedule_positions (available : list WorkerState) (workerId : string)
    (calls : list ScheduleCall) (s : t) :
  -1 <= lastIndex s -> available <> [] ->
  Forall (fun c => availableAt c = available) calls ->
  let decisions := fst (runSchedule s calls) in
  Forall is_Some decisions
  /\ length decisions = length calls
  /\ length (List.filter (isDispatchTo workerId) decisions)
     = length (List.filter (idAt available workerId)
                 (cursorPositions (Z.of_nat (length available)) (lastIndex s)
                                  (length calls))).
Proof.
  intros Hc Hne Hcalls. revert s Hc.
  induction Hcalls as [|c calls Hav _ IH]; intros s Hc.
  - cbn. repeat split; constructor.
  - cbn [runSchedule]. unfold schedule. fold (availableAt c). rewrite Hav.
    destruct (scheduleAmong_in_range available s (call_task c) (call_reason c)
                (call_now c) Hc Hne) as (w & Hw & ->).
    assert (0 < Z.of_nat (length available)) as HK.
    { destruct available; [congruence|cbn; lia]. }
    destruct (cursor_step _ _ HK Hc) as [_ B].
    set (c' := Z.rem (lastIndex s + 1) (Z.of_nat (length available))) in *.
    specialize (IH {| lastIndex := c' |} ltac:(cbn; lia)).
    destruct (runSchedule {| lastIndex := c' |} calls) as [decisions s2].
    cbn [fst] in *. destruct IH as (Hsome & Hlen & Hcount).
    repeat split.
    + constructor; [eexists; reflexivity|exact Hsome].
    + cbn. lia.
    + cbn [length cursorPositions List.filter]. fold c'.
      unfold idAt at 1. rewrite Hw. cbn [isDispatchTo d_workerId].
      destruct (String.eqb (w_id w) workerId); cbn [length]; cbn in Hcount; lia.
Qed.

Lemma idAt_position (available : list WorkerState) (w : WorkerState)
    (j : nat) (i : Z) :
  NoDup (w_id <$> available) ->
  available !! j = Some w ->
  0 <= i < Z.of_nat (length available) ->
  idAt available (w_id w) i = (Z.of_nat j =? i).
Proof.
  intros Hnd Hj Hi. unfold idAt.
  destruct (lookup_lt_is_Some_2 available (Z.to_nat i) ltac:(lia)) as [w' Hw'].
  rewrite Hw'.
  destruct (String.eqb_spec (w_id w') (w_id w)) as [Heq|Hneq].
  - assert (Z.to_nat i = j) as <-.
    { eapply (NoDup_lookup (w_id <$> available)); [exact Hnd| |].
      - rewrite list_lookup_fmap, Hw'. cbn. rewrite Heq. reflexivity.
      - rewrite list_lookup_fmap, Hj. reflexivity. }
    symmetry. apply Z.eqb_eq. lia.
  - symmetry. apply Z.eqb_neq. intros <-.
    rewrite Nat2Z.id in Hw'. congruence.
Qed.

(** The cursor stays at -1 or above: it starts at -1 and each call leaves it
    unchanged or sets it to a remainder. *)
Lemma lastIndex_invariant (registry : WorkerRegistry.t) (s : t) (task : Task)
    (reason : SchedulingReason) (now : Z) :
  -1 <= lastIndex create
  /\ -1 <= lastIndex (reset s)
  /\ (-1 <= lastIndex s ->
      -1 <= lastIndex (snd (schedule registry s task reason now))).
Proof.
  repeat split; try (cbn; lia).
  intros Hc. unfold schedule.
  destruct (WorkerRegistry.getAvailable registry (task_capabilities task) now)
    as [|a l] eqn:E.
  - cbn. exact Hc.
  - destruct (scheduleAmong_in_range (a :: l) s task reason now Hc ltac:(discriminate))
      as (w & Hw & ->).
    cbn [snd lastIndex].
    pose proof (cursor_step (Z.of_nat (length (a :: l))) (lastIndex s)
                  ltac:(cbn; lia) Hc). lia.
Qed.

(** C9.  Over N consecutive calls that all find the same non-empty list of
    K available workers (with distinct ids, as the registry keeps them),
    from any cursor the scheduler can hold, every call returns a decision
    and each worker of the list receives either floor(N/K) or ceil(N/K) of
    the N dispatches.  When no worker is available the call returns no
    decision and leaves the cursor as it is. *)
Theorem round_robin_fairness (available : list WorkerState)
    (calls : list ScheduleCall) (s : t) :
  -1 <= lastIndex s ->
  available <> [] ->
  NoDup (w_id <$> available) ->
  Forall (fun c => availableAt c = available) calls ->
  let N := Z.of_nat (length calls) in
  let K := Z.of_nat (length available) in
  let decisions := fst (runSchedule s calls) in
  Forall is_Some decisions
  /\ (forall w, In w available ->
        dispatchesTo (w_id w) decisions = floorDiv N K
        \/ dispatchesTo (w_id w) decisions = ceilDiv N K)
  /\ (forall registry task reason now,
        WorkerRegistry.getAvailable registry (task_capabilities task) now = [] ->
        schedule registry s task reason now = (None, s)).
Proof.
  intros Hc Hne Hnd Hcalls N K decisions.
  assert (0 < K) as HK.
  { subst K. destruct available; [congruence|cbn; lia]. }
  split; [|split].
  - apply (runSchedule_positions available EmptyString calls s Hc Hne Hcalls).
  - intros w Hw.
    apply list_elem_of_In, list_elem_of_lookup_1 in Hw as [j Hj].
    destruct (runSchedule_positions available (w_id w) calls s Hc Hne Hcalls)
      as (_ & _ & Hcount).
    unfold dispatchesTo. fold decisions in Hcount. rewrite Hcount.
    rewrite (filter_ext_in (idAt available (w_id w)) (Z.eqb (Z.of_nat j))).
    + pose proof (lookup_lt_Some _ _ _ Hj) as Hlt.
      rewrite cursorPositions_count by (try assumption; lia).
      apply div_window; lia.
    + intros i Hi.
      pose proof (cursorPositions_range K (lastIndex s) (length calls) HK Hc) as R.
      rewrite List.Forall_forall in R.
      apply (idAt_position available w j i Hnd Hj), R, Hi.
  - intros registry task reason now E. unfold schedule. rewrite E. reflexivity.
Qed.

Lemma round_robin_fairness_witness :
  let available := [exampleWorker "w1" (dec 2 10); exampleWorker "w2" (dec 5 10);
                    exampleWorker "w3" (dec 8 10)] in
  let decisions := fst (runSchedule create exampleCalls) in
  Forall is_Some decisions
  /\ (forall w, In w available ->
        dispatchesTo (w_id w) decisions = floorDiv 7 3
        \/ dispatchesTo (w_id w) decisions = ceilDiv 7 3)
  /\ (forall registry task reason now,
        WorkerRegistry.getAvailable registry (task_capabilities task) now = [] ->
        schedule registry create task reason now = (None, create)).
Proof.
  apply (round_robin_fairness
           [exampleWorker "w1" (dec 2 10); exampleWorker "w2" (dec 5 10);
            exampleWorker "w3" (dec 8 10)] exampleCalls create).
  - vm_compute. discriminate.
  - discriminate.
  - apply (bool_decide_unpack _). vm_compute. exact I.
  - repeat constructor.
Defined.

(** Seven calls over three workers from a fresh scheduler: w1 is chosen
    three times, w2 and w3 twice each. *)
Example round_robin_seven_calls :
  let decisions := fst (runSchedule create exampleCalls) in
  ((fun d : option SchedulingDecision => d_workerId <$> d) <$> decisions)
  = [Some "w1"; Some "w2"; Some "w3"; Some "w1"; Some "w2"; Some "w3"; Some "w1"]
  /\ dispatchesTo "w1" decisions = 3
  /\ dispatchesTo "w2" decisions = 2
  /\ dispatchesTo "w3" decisions = 2.
Proof. by_evaluation. Qed.

(** *** Worker ids in the registry are distinct *)

Lemma OMap_keys_set {V : Type} (k : string) (v : V) (m : OMap.t V) :
  OMap.keys (OMap.set k v m)
  = if OMap.has k m then OMap.keys m else OMap.keys m ++ [k].
Proof.
  unfold OMap.has, OMap.keys. induction m as [|[k' v'] m IH]; [reflexivity|].
  cbn [OMap.set OMap.get].
  destruct (String.eqb_spec k k') as [->|Hne]; [reflexivity|].
  cbn [fmap list_fmap fst]. rewrite IH.
  destruct (OMap.get k m); reflexivity.
Qed.

Lemma OMap_has_keys {V : Type} (k : string) (m : OMap.t V) :
  OMap.has k m = false -> ~ In k (OMap.keys m).
Proof.
  unfold OMap.has. induction m as [|[k' v'] m IH]; cbn; [tauto|].
  destruct (String.eqb_spec k k') as [->|Hne]; [discriminate|].
  intros H [E|Hin]; [congruence|]. exact (IH H Hin).
Qed.

Lemma OMap_set_keyed {V : Type} (P : string * V -> Prop) (k : string) (v : V)
    (m : OMap.t V) :
  P (k, v) -> Forall P m -> Forall P (OMap.set k v m).
Proof.
  intros Hv. induction m as [|[k' v'] m IH]; cbn; intros Hm.
  - repeat constructor. exact Hv.
  - inversion Hm as [|? ? Hv' Hm']; subst.
    destruct (String.eqb k k'); constructor; auto.
Qed.

Lemma OMap_set_NoDup {V : Type} (k : string) (v : V) (m : OMap.t V) :
  NoDup (OMap.keys m) -> NoDup (OMap.keys (OMap.set k v m)).
Proof.
  intros Hnd. rewrite OMap_keys_set.
  destruct (OMap.has k m) eqn:E; [exact Hnd|].
  apply NoDup_app. split; [exact Hnd|]. split.
  - intros x Hx Hk. apply list_elem_of_singleton in Hk as ->.
    apply (OMap_has_keys _ _ E). apply list_elem_of_In, Hx.
  - apply NoDup_singleton.
Qed.

Lemma create_WellKeyed (timeout : Z) : WellKeyed (WorkerRegistry.create timeout).
Proof. split; constructor. Qed.

Lemma register_WellKeyed (r : WorkerRegistry.t) (worker : WorkerState) (now : Z) :
  WellKeyed r -> WellKeyed (WorkerRegistry.register r worker now).
Proof.
  intros [Hnd Hk]. split; cbn.
  - apply OMap_set_NoDup, Hnd.
  - apply OMap_set_keyed; [reflexivity|exact Hk].
Qed.

Lemma OMap_get_keyed {V : Type} (P : string * V -> Prop) (k : string) (v : V)
    (m : OMap.t V) :
  Forall P m -> OMap.get k m = Some v -> P (k, v).
Proof.
  induction m as [|[k' v'] m IH]; cbn; intros Hm; [discriminate|].
  inversion Hm as [|? ? Hv' Hm']; subst.
  destruct (String.eqb_spec k k') as [->|Hne]; [intros [= <-]; exact Hv'|].
  apply IH, Hm'.
Qed.

(** A mutation that keeps the worker's id keeps the registry well keyed;
    this covers [heartbeat], [updateStatus] and [updateLoad]. *)
Lemma mutate_WellKeyed (r : WorkerRegistry.t) (workerId : string)
    (f : WorkerState -> WorkerState) :
  (forall w, w_id (f w) = w_id w) ->
  WellKeyed r -> WellKeyed (fst (WorkerRegistry.mutate r workerId f)).
Proof.
  intros Hf [Hnd Hk]. unfold WorkerRegistry.mutate.
  destruct (OMap.get workerId (WorkerRegistry.workers r)) as [w|] eqn:E;
    [|split; assumption].
  split; cbn.
  - apply OMap_set_NoDup, Hnd.
  - apply OMap_set_keyed; [|exact Hk].
    cbn. rewrite Hf.
    exact (OMap_get_keyed (fun kv => fst kv = w_id (snd kv)) _ _ _ Hk E).
Qed.

Lemma pruneStale_WellKeyed (r : WorkerRegistry.t) (now : Z) :
  WellKeyed r -> WellKeyed (fst (WorkerRegistry.pruneStale r now)).
Proof.
  intros [Hnd Hk]. unfold WorkerRegistry.pruneStale, WellKeyed. cbn [fst].
  cbn [WorkerRegistry.workers WorkerRegistry.with_workers].
  revert Hnd Hk. unfold OMap.keys.
  generalize (WorkerRegistry.workers r) as m.
  induction m as [|[k w] m IH]; intros Hnd Hk; [split; constructor|].
  inversion Hnd as [|? ? Hin Hnd']; subst.
  inversion Hk as [|? ? Hkw Hk']; subst.
  destruct (IH Hnd' Hk') as [IHnd IHk].
  assert (forall kv : string * WorkerState,
            fst (if WorkerRegistry.isStale r now (snd kv)
                 then (fst kv, WorkerRegistry.set_status offline (snd kv))
                 else kv) = fst kv) as Hfst.
  { intros kv. destruct (WorkerRegistry.isStale r now (snd kv)); reflexivity. }
  split; cbn [fmap list_fmap].
  - rewrite Hfst. constructor; [|exact IHnd].
    intros Hin'. apply Hin.
    apply list_elem_of_fmap in Hin' as (kv & E & Hkv).
    apply list_elem_of_fmap in Hkv as (kv' & -> & Hkv').
    rewrite Hfst in E. apply list_elem_of_fmap. exists kv'. split; assumption.
  - constructor; [|exact IHk].
    cbn. destruct (WorkerRegistry.isStale r now w); exact Hkw.
Qed.

(** The available workers of a well-keyed registry have distinct ids. *)
Lemma getAvailable_NoDup (r : WorkerRegistry.t)
    (capabilities : option (list string)) (now : Z) :
  WellKeyed r ->
  NoDup (w_id <$> WorkerRegistry.getAvailable r capabilities now).
Proof.
  intros [Hnd Hk]. unfold WorkerRegistry.getAvailable, OMap.values.
  unfold OMap.keys in Hnd.
  induction (WorkerRegistry.workers r) as [|[k w] m IH]; cbn; [constructor|].
  inversion Hnd as [|? ? Hk' Hnd']; subst.
  inversion Hk as [|? ? Hkw Hk'']; subst. cbn in Hkw. subst k.
  specialize (IH Hnd' Hk'').
  destruct (WorkerRegistry.isAvailable r capabilities now w); [|exact IH].
  cbn. constructor; [|exact IH].
  intros Hin. apply Hk'.
  apply list_elem_of_fmap in Hin as (w' & Eid & Hw').
  apply list_elem_of_In, filter_In in Hw' as [Hw' _].
  apply list_elem_of_In, list_elem_of_fmap in Hw' as ([k' w''] & -> & Hkv).
  apply list_elem_of_fmap. exists (k', w''). split; [|exact Hkv].
  rewrite List.Forall_forall in Hk''.
  rewrite (Hk'' _ (proj1 (list_elem_of_In _ _) Hkv)). cbn. exact Eid.
Qed.
End RoundRobinFacts.

(** ** The dispatcher and its circuit breaker *)

Section DispatcherFacts.
Import Dispatcher.

(** The effects of the prediction attempt contain no acknowledgment. *)
Lemma tryPrediction_no_xack (d : t) (env : Env) (task : Task) :
  existsb isXack (snd (tryPrediction d env task)) = false.
Proof.
  unfold tryPrediction.
  destruct (isOpen (circuitBreaker d)); [reflexivity|]. cbn [negb].
  destruct (predict env task) as [[p|]|err]; try reflexivity.
  - destruct (WorkerRegistry.get (registry d) (recommendedWorkerId p)) as [w|];
      [|reflexivity].
    destruct (negb _ && negb _); reflexivity.
  - unfold recordFailure.
    destruct (fallbackThreshold (config d) <=? failures (circuitBreaker d) + 1)%Z;
      reflexivity.
Qed.

Lemma chooseDecision_effects (d : t) (env : Env) (task : Task) :
  snd (chooseDecision d env task) = snd (tryPrediction d env task).
Proof.
  unfold chooseDecision.
  destruct (tryPrediction d env task) as [[predicted cb] effs].
  destruct predicted as [decision|]; [reflexivity|].
  destruct (RoundRobinScheduler.schedule _ _ _ _ _). reflexivity.
Qed.

Lemma chooseDecision_breaker (d : t) (env : Env) (task : Task) :
  circuitBreaker (snd (fst (chooseDecision d env task)))
  = snd (fst (tryPrediction d env task))
  /\ redis (snd (fst (chooseDecision d env task))) = redis d.
Proof.
  unfold chooseDecision.
  destruct (tryPrediction d env task) as [[predicted cb] effs].
  destruct predicted as [decision|]; [split; reflexivity|].
  destruct (RoundRobinScheduler.schedule _ _ _ _ _). split; reflexivity.
Qed.

(** The dispatcher after [dispatchTask] is the one [chooseDecision] leaves. *)
Lemma dispatchTask_state (d : t) (env : Env) (task : Task)
    (messageId : option string) :
  snd (fst (dispatchTask d env task messageId))
  = snd (fst (chooseDecision d env task)).
Proof.
  unfold dispatchTask.
  destruct (chooseDecision d env task) as [[[decision|] d'] effs]; [|reflexivity].
  destruct (publishAndAck d' env task messageId decision). reflexivity.
Qed.

Lemma existsb_app_false {A : Type} (f : A -> bool) (l1 l2 : list A) :
  existsb f l1 = false -> existsb f l2 = false -> existsb f (l1 ++ l2) = false.
Proof. intros H1 H2. rewrite existsb_app, H1, H2. reflexivity. Qed.

(** C3.  When a decision was formed and the publish on the worker's channel
    throws (a Redis client is held, so the publish is attempted),
    [dispatchTask] reports success = false with that decision and the error
    message, and none of its effects is an acknowledgment. *)
Theorem publish_failure_not_acked (d d' : t) (env : Env) (task : Task)
    (messageId : option string) (chosen : SchedulingDecision)
    (effs : list effect) (err : thrown) :
  chooseDecision d env task = (Some chosen, d', effs) ->
  redis d = true ->
  publish env (String.append DISPATCH_CHANNEL_PREFIX (d_workerId chosen))
          {| m_taskId := task_id task; m_task := task;
             assignedAt := d_timestamp chosen |}
  = RedisThrows err ->
  exists effects,
    dispatchTask d env task messageId
    = ({| success := false; decision := chosen;
          error := Some (errorMessage err) |}, d', effects)
    /\ existsb isXack effects = false.
Proof.
  intros Hchoose Hredis Hpublish.
  pose proof (chooseDecision_effects d env task) as Heffs.
  pose proof (chooseDecision_breaker d env task) as [_ Hr].
  unfold dispatchTask. rewrite Hchoose in *. cbn [fst snd] in *.
  unfold publishAndAck. rewrite Hr, Hredis, Hpublish.
  eexists. split; [reflexivity|].
  apply existsb_app_false; [|reflexivity].
  rewrite Heffs. apply tryPrediction_no_xack.
Qed.

Lemma publish_failure_not_acked_witness :
  let d := exampleDispatcher closedBreaker in
  let env := exampleEnv (Resolved None) (RedisThrows (ErrorObject "Connection lost"))
                        RedisOk in
  exists effects,
    dispatchTask d env (exampleTask "t1") (Some "1-0")
    = ({| success := false;
          decision := {| d_taskId := "t1"; d_workerId := "w1"; d_timestamp := 1000;
                         usedFallback := true; d_prediction := None;
                         reason := fallback_round_robin |};
          error := Some "Connection lost" |},
       with_breaker d closedBreaker {| RoundRobinScheduler.lastIndex := 0 |},
       effects)
    /\ existsb isXack effects = false.
Proof.
  apply (publish_failure_not_acked
           (exampleDispatcher closedBreaker) _
           (exampleEnv (Resolved None) (RedisThrows (ErrorObject "Connection lost"))
                       RedisOk)
           (exampleTask "t1") (Some "1-0") _ [PredictCall (exampleTask "t1")]
           (ErrorObject "Connection lost")).
  - vm_compute. reflexivity.
  - reflexivity.
  - reflexivity.
Defined.

(** After the failed publish the message is redelivered; with a healthy
    publish it is then acknowledged. *)
Example publish_then_ack :
  let d := exampleDispatcher closedBreaker in
  let env := exampleEnv (Resolved None) RedisOk RedisOk in
  success (fst (fst (dispatchTask d env (exampleTask "t1") (Some "1-0")))) = true
  /\ existsb isXack (snd (dispatchTask d env (exampleTask "t1") (Some "1-0"))) = true.
Proof. by_evaluation. Qed.

Lemma tryPrediction_open (d : t) (env : Env) (task : Task) :
  isOpen (circuitBreaker d) = true ->
  tryPrediction d env task = (None, circuitBreaker d, []).
Proof. intros H. unfold tryPrediction. rewrite H. reflexivity. Qed.

Lemma publishAndAck_no_predict (d : t) (env : Env) (task : Task)
    (messageId : option string) (chosen : SchedulingDecision) :
  existsb isPredictCall (snd (publishAndAck d env task messageId chosen)) = false.
Proof.
  unfold publishAndAck. destruct (redis d); [|reflexivity].
  destruct (publish env _ _); [|reflexivity].
  destruct messageId as [[|c rest]|]; try reflexivity.
  destruct (xack env _ _ _); reflexivity.
Qed.

Lemma dispatchTask_effects (d : t) (env : Env) (task : Task)
    (messageId : option string) :
  exists effs2,
    snd (dispatchTask d env task messageId)
    = snd (tryPrediction d env task) ++ effs2
    /\ existsb isPredictCall effs2 = false.
Proof.
  pose proof (chooseDecision_effects d env task) as Heffs.
  unfold dispatchTask.
  destruct (chooseDecision d env task) as [[[chosen|] d'] effs]; cbn [snd] in *.
  - pose proof (publishAndAck_no_predict d' env task messageId chosen) as Hno.
    destruct (publishAndAck d' env task messageId chosen) as [result effs2].
    exists effs2. cbn [snd] in *. rewrite Heffs. split; [reflexivity|exact Hno].
  - exists []. rewrite app_nil_r. split; [exact Heffs|reflexivity].
Qed.

(** While the breaker is open, [dispatchTask] does not call the predictor
    and leaves the breaker as it is: no prediction is obtained. *)
Lemma open_breaker_skips_prediction (d : t) (env : Env) (task : Task)
    (messageId : option string) :
  isOpen (circuitBreaker d) = true ->
  circuitBreaker (snd (fst (dispatchTask d env task messageId))) = circuitBreaker d
  /\ existsb isPredictCall (snd (dispatchTask d env task messageId)) = false.
Proof.
  intros Hopen. split.
  - rewrite dispatchTask_state.
    rewrite (proj1 (chooseDecision_breaker d env task)).
    rewrite (tryPrediction_open _ _ _ Hopen). reflexivity.
  - destruct (dispatchTask_effects d env task messageId) as (effs2 & -> & Hno).
    rewrite (tryPrediction_open _ _ _ Hopen). exact Hno.
Qed.

(** C1.  Whatever the state of the breaker (open, or closed with failures
    counted), a call of [dispatchTask] that obtains a successful prediction
    leaves the breaker closed with all fields reset: failures = 0,
    lastFailure = null, isOpen = false.  The call obtains a successful
    prediction when it calls the predictor and the predictor resolves with a
    prediction whose recommended worker is registered and neither offline
    nor draining; the decision then is that prediction's. *)
Theorem breaker_reset_on_prediction (d : t) (env : Env) (task : Task)
    (messageId : option string) (p : TaskPrediction) (w : WorkerState) :
  existsb isPredictCall (snd (dispatchTask d env task messageId)) = true ->
  predict env task = Resolved (Some p) ->
  WorkerRegistry.get (registry d) (recommendedWorkerId p) = Some w ->
  w_status w <> offline ->
  w_status w <> draining ->
  circuitBreaker (snd (fst (dispatchTask d env task messageId)))
  = {| failures := 0; lastFailure := None; isOpen := false |}
  /\ reason (decision (fst (fst (dispatchTask d env task messageId)))) = prediction
  /\ d_prediction (decision (fst (fst (dispatchTask d env task messageId)))) = Some p.
Proof.
  intros Hcalled Hpred Hget Hoff Hdrain.
  assert (isOpen (circuitBreaker d) = false) as Hclosed.
  { destruct (isOpen (circuitBreaker d)) eqn:Hopen; [|reflexivity].
    rewrite (proj2 (open_breaker_skips_prediction d env task messageId Hopen))
      in Hcalled.
    discriminate Hcalled. }
  assert (tryPrediction d env task
          = (Some {| d_taskId := task_id task;
                     d_workerId := recommendedWorkerId p;
                     d_timestamp := now env; usedFallback := false;
                     d_prediction := Some p; reason := prediction |},
             resetCircuitBreaker (circuitBreaker d), [PredictCall task])) as Htry.
  { unfold tryPrediction. rewrite Hclosed, Hpred, Hget. cbn [negb].
    destruct (w_status w); try congruence; reflexivity. }
  split.
  - rewrite dispatchTask_state.
    rewrite (proj1 (chooseDecision_breaker d env task)), Htry. reflexivity.
  - unfold dispatchTask, chooseDecision. rewrite Htry.
    set (chosen := {| d_taskId := task_id task;
                      d_workerId := recommendedWorkerId p;
                      d_timestamp := now env; usedFallback := false;
                      d_prediction := Some p; reason := prediction |}).
    assert (forall d', decision (fst (publishAndAck d' env task messageId chosen))
                       = chosen) as Hkept.
    { intros d'. unfold publishAndAck. destruct (redis d'); [|reflexivity].
      destruct (publish env _ _); [|reflexivity].
      destruct messageId as [[|c rest]|]; try reflexivity.
      destruct (xack env _ _ _); reflexivity. }
    match goal with
    | |- context [publishAndAck ?d' env task messageId chosen] =>
        specialize (Hkept d'); destruct (publishAndAck d' env task messageId chosen)
          as [result effs2]
    end.
    cbn [fst snd] in *. rewrite Hkept. split; reflexivity.
Qed.

Lemma breaker_reset_on_prediction_witness :
  let counting := {| failures := 2; lastFailure := Some 900; isOpen := false |} in
  let env := exampleEnv (Resolved (Some (examplePrediction "w1"))) RedisOk RedisOk in
  let after := dispatchTask (exampleDispatcher counting) env (exampleTask "t1")
                            (Some "1-0") in
  circuitBreaker (snd (fst after))
  = {| failures := 0; lastFailure := None; isOpen := false |}
  /\ reason (decision (fst (fst after))) = prediction
  /\ d_prediction (decision (fst (fst after))) = Some (examplePrediction "w1").
Proof.
  apply (breaker_reset_on_prediction
           (exampleDispatcher {| failures := 2; lastFailure := Some 900;
                                 isOpen := false |})
           (exampleEnv (Resolved (Some (examplePrediction "w1"))) RedisOk RedisOk)
           (exampleTask "t1") (Some "1-0") (examplePrediction "w1")
           (exampleWorker "w1" (dec 2 10))).
  - vm_compute. reflexivity.
  - reflexivity.
  - vm_compute. reflexivity.
  - discriminate.
  - discriminate.
Defined.

(** Two dispatches that obtain no successful prediction.  With the breaker
    open the predictor is not called, whatever it would return.  The
    heuristic predictor's prediction recommends no worker: the dispatch
    falls back and the failures counted so far stay as they are. *)
Example dispatch_without_successful_prediction :
  let opened := {| failures := 3; lastFailure := Some 900; isOpen := true |} in
  let counting := {| failures := 2; lastFailure := Some 900; isOpen := false |} in
  let good := exampleEnv (Resolved (Some (examplePrediction "w1"))) RedisOk RedisOk in
  let heuristic :=
    exampleEnv
      (Resolved (Some (HeuristicPredictor.predict
                         (HeuristicPredictor.create
                            HeuristicPredictor.DEFAULT_PREDICTOR_CONFIG)
                         (exampleTask "t1"))))
      RedisOk RedisOk in
  circuitBreaker
    (snd (fst (dispatchTask (exampleDispatcher opened) good (exampleTask "t1")
                            (Some "1-0")))) = opened
  /\ existsb isPredictCall
       (snd (dispatchTask (exampleDispatcher opened) good (exampleTask "t1")
                          (Some "1-0"))) = false
  /\ circuitBreaker
       (snd (fst (dispatchTask (exampleDispatcher counting) heuristic
                               (exampleTask "t1") (Some "1-0")))) = counting
  /\ reason (decision (fst (fst (dispatchTask (exampleDispatcher counting) heuristic
                                              (exampleTask "t1") (Some "1-0")))))
     = fallback_round_robin.
Proof. vm_compute. repeat split; reflexivity. Qed.

(** The unit test 'should fall back when predicted worker is offline':
    the decision comes from the fallback. *)
Example fallback_when_predicted_worker_offline :
  let r := WorkerRegistry.register
             (WorkerRegistry.register (WorkerRegistry.create 30000)
                {| w_id := "worker-1"; w_status := offline; w_capabilities := [];
                   currentLoad := JS.zero; lastHeartbeat := 0;
                   activeTasks := JS.zero; maxConcurrency := JS.of_Z 4 |} 0)
             (exampleWorker "worker-2" JS.zero) 0 in
  let d := {| redis := true; registry := r;
              fallbackScheduler := RoundRobinScheduler.create;
              config := DEFAULT_SCHEDULER_CONFIG "redis://localhost:6379";
              circuitBreaker := closedBreaker; running := false;
              consumerName := "dispatcher-0" |} in
  let env := exampleEnv (Resolved (Some (examplePrediction "worker-1")))
                        RedisOk RedisOk in
  let result := fst (fst (dispatchTask d env (exampleTask "task-1") None)) in
  success result = true
  /\ usedFallback (decision result) = true
  /\ d_workerId (decision result) = "worker-2".
Proof. by_evaluation. Qed.

(** The scenario of the tests: three failures with threshold 3 open the
    breaker, and the next dispatch falls back with the breaker's reason. *)
Example breaker_opens_after_three_failures :
  let failing := exampleEnv (Rejected (ErrorObject "Prediction failed")) RedisOk RedisOk in
  let step := fun d => snd (fst (dispatchTask d failing (exampleTask "t1") None)) in
  let d3 := step (step (step (exampleDispatcher closedBreaker))) in
  failures (circuitBreaker d3) = 3%Z
  /\ isOpen (circuitBreaker d3) = true
  /\ reason (decision (fst (fst (dispatchTask d3 failing (exampleTask "t1") None))))
     = fallback_circuit_breaker.
Proof. by_evaluation. Qed.
End DispatcherFacts.

Section ConsumeFacts.
Import Dispatcher.
Variable JSON_parse : string -> option json.
Variable ToNumber : json -> num.

(** [parseTask] gives no task exactly when it logs the failure. *)
Lemma parseTask_failure_logged (now : Z) (messageId : string)
    (fields : list string) :
  fst (parseTask JSON_parse now messageId fields) = None ->
  parseTask JSON_parse now messageId fields
  = (None, [ConsoleError "Failed to parse task:"]).
Proof.
  unfold parseTask.
  destruct (JSON_parse (fieldOr _ "payload" "{}")); [|reflexivity].
  destruct (field _ "metadata") as [text|]; [|discriminate].
  destruct (JSON_parse text); [discriminate|reflexivity].
Qed.

Lemma parseTask_success_silent (now : Z) (messageId : string)
    (fields : list string) (parsed : ParsedTask) :
  fst (parseTask JSON_parse now messageId fields) = Some parsed ->
  snd (parseTask JSON_parse now messageId fields) = [].
Proof.
  unfold parseTask.
  destruct (JSON_parse (fieldOr _ "payload" "{}")); [|discriminate].
  destruct (field _ "metadata") as [text|]; [|reflexivity].
  destruct (JSON_parse text); [reflexivity|discriminate].
Qed.

(** *** The unchecked capabilities and the declared type *)

Lemma capabilityTest_typed (worker : WorkerState)
    (capabilities : option (list string)) :
  capabilityTest ToNumber worker (capabilitiesValue capabilities)
  = if match capabilities with
       | Some (cap :: caps) => hasCapabilities worker (cap :: caps)
       | _ => true
       end
    then TestPassed else TestFailed.
Proof.
  destruct capabilities as [[|cap caps]|]; try reflexivity.
  unfold capabilityTest, capabilitiesValue, hasCapabilities.
  cbn [fmap option_fmap option_map filtersBy list_fmap].
  change (JString cap :: (JString <$> caps)) with (JString <$> (cap :: caps)).
  generalize (cap :: caps) as items. intros items.
  assert (forallb (fun item => match item with
                               | JString c => existsb (String.eqb c) (w_capabilities worker)
                               | _ => false
                               end) (JString <$> items)
          = forallb (fun c => existsb (String.eqb c) (w_capabilities worker)) items)
    as ->; [|reflexivity].
  induction items as [|c items IH]; [reflexivity|].
  cbn [fmap list_fmap forallb]. f_equal. exact IH.
Qed.

Lemma availableAmong_typed (r : WorkerRegistry.t)
    (capabilities : option (list string)) (now : Z) (workers : list WorkerState) :
  availableAmong ToNumber r (capabilitiesValue capabilities) now workers
  = Returned (List.filter (WorkerRegistry.isAvailable r capabilities now) workers).
Proof.
  induction workers as [|worker rest IH]; [reflexivity|].
  cbn [availableAmong List.filter]. rewrite IH, capabilityTest_typed.
  assert (WorkerRegistry.isAvailable r capabilities now worker
          = WorkerRegistry.isAvailable r None now worker
            && match capabilities with
               | Some (cap :: caps) => hasCapabilities worker (cap :: caps)
               | _ => true
               end) as ->.
  { unfold WorkerRegistry.isAvailable.
    destruct (WorkerStatus_eqb _ _ || WorkerStatus_eqb _ _); [reflexivity|].
    destruct (_ <? _)%Z; [reflexivity|].
    destruct (_ >=? _)%num; [reflexivity|].
    destruct capabilities as [[|cap caps]|]; reflexivity. }
  destruct (WorkerRegistry.isAvailable r None now worker); [|reflexivity].
  cbn [andb].
  destruct (match capabilities with
            | Some (cap :: caps) => hasCapabilities worker (cap :: caps)
            | _ => true
            end); reflexivity.
Qed.

(** On a parsed object whose capabilities are of the declared type,
    absent or an array of strings, [dispatchParsed] is [dispatchTask] on the
    object as a [Task]: it does not throw. *)
Lemma dispatchParsed_typed (d : t) (env : Env) (parsed : ParsedTask)
    (messageId : option string) :
  parsedCapabilities parsed
  = capabilitiesValue (task_capabilities (taskOf parsed)) ->
  dispatchParsed ToNumber d env parsed messageId
  = let '(result, d', effs) := dispatchTask d env (taskOf parsed) messageId in
    (Resolved result, d', effs).
Proof.
  intros Htyped. unfold dispatchParsed, dispatchTask, chooseDecision.
  destruct (tryPrediction d env (taskOf parsed)) as [[predicted cb] effs1].
  destruct predicted as [chosen|].
  - destruct (publishAndAck _ env (taskOf parsed) messageId chosen); reflexivity.
  - unfold scheduleUnchecked, getAvailableUnchecked, RoundRobinScheduler.schedule,
      WorkerRegistry.getAvailable, WorkerRegistry.getAll.
    rewrite Htyped, availableAmong_typed.
    destruct (RoundRobinScheduler.scheduleAmong _ _ _ _ _) as [[chosen|] fs];
      [|reflexivity].
    destruct (publishAndAck _ env (taskOf parsed) messageId chosen); reflexivity.
Qed.

(** *** Acknowledgments *)

Lemma publishAndAck_xack_id (d : t) (env : Env) (task : Task)
    (messageId : option string) (chosen : SchedulingDecision)
    (stream group mid : string) :
  In (Xack stream group mid) (snd (publishAndAck d env task messageId chosen)) ->
  messageId = Some mid.
Proof.
  unfold publishAndAck. destruct (redis d); [|intros []].
  destruct (publish env _ _); [|intros [H|[]]; discriminate H].
  destruct messageId as [[|c rest]|]; try (intros [H|[]]; discriminate H).
  destruct (xack env _ _ _); cbn [snd];
    (intros [H|[H|[]]]; [discriminate H|]; injection H as _ _ <-; reflexivity).
Qed.

Lemma dispatchParsed_xack (d : t) (env : Env) (parsed : ParsedTask)
    (messageId : option string) (stream group mid : string) :
  In (Xack stream group mid) (snd (dispatchParsed ToNumber d env parsed messageId)) ->
  messageId = Some mid.
Proof.
  unfold dispatchParsed.
  pose proof (tryPrediction_no_xack d env (taskOf parsed)) as Hnox.
  destruct (tryPrediction d env (taskOf parsed)) as [[predicted cb] effs1].
  cbn [snd] in Hnox.
  assert (forall d' chosen,
            In (Xack stream group mid)
               (snd (let '(result, effs2) :=
                       publishAndAck d' env (taskOf parsed) messageId chosen in
                     (@Resolved DispatchResult result, d', effs1 ++ effs2))) ->
            messageId = Some mid) as Hdispatch.
  { intros d' chosen.
    pose proof (publishAndAck_xack_id d' env (taskOf parsed) messageId chosen
                  stream group mid) as Hack.
    destruct (publishAndAck d' env (taskOf parsed) messageId chosen) as [result effs2].
    cbn [snd] in *. intros Hin. apply in_app_or in Hin as [Hin|Hin]; [|exact (Hack Hin)].
    exfalso. assert (existsb isXack effs1 = true) as Hyes
      by (apply existsb_exists; exists (Xack stream group mid); split; [exact Hin|reflexivity]).
    congruence. }
  assert (In (Xack stream group mid) effs1 -> messageId = Some mid) as Hnone.
  { intros Hin. exfalso. assert (existsb isXack effs1 = true) as Hyes
      by (apply existsb_exists; exists (Xack stream group mid); split; [exact Hin|reflexivity]).
    congruence. }
  destruct predicted as [chosen|]; [apply Hdispatch|].
  destruct (scheduleUnchecked _ _ _ _ _ _) as [[[chosen|] fs]|err];
    [apply Hdispatch|exact Hnone|exact Hnone].
Qed.

Lemma processEntry_xack (d : t) (env : Env) (entry : StreamEntry)
    (stream group mid : string) :
  In (Xack stream group mid)
     (snd (fst (processEntry JSON_parse ToNumber d env entry))) ->
  mid = fst entry
  /\ fst (parseTask JSON_parse (now env) (fst entry) (snd entry)) <> None.
Proof.
  unfold processEntry.
  destruct (parseTask JSON_parse (now env) (fst entry) (snd entry))
    as [[parsed|] effs] eqn:Ep.
  - pose proof (parseTask_success_silent (now env) (fst entry) (snd entry) parsed
                  ltac:(rewrite Ep; reflexivity)) as Hsilent.
    rewrite Ep in Hsilent. cbn [snd] in Hsilent. subst effs.
    pose proof (dispatchParsed_xack d env parsed (Some (fst entry)) stream group mid)
      as Hack.
    destruct (dispatchParsed ToNumber d env parsed (Some (fst entry)))
      as [[[result|err] d'] effs']; cbn [fst snd app] in *;
      intros Hin; (split; [|discriminate]); pose proof (Hack Hin); congruence.
  - rewrite (parseTask_failure_logged _ _ _ ltac:(rewrite Ep; reflexivity)) in Ep.
    injection Ep as <-. cbn [fst snd]. intros [H|[]]. discriminate H.
Qed.

Lemma processEntries_xack (d : t) (env : Env) (entries : list StreamEntry)
    (stream group mid : string) :
  In (Xack stream group mid)
     (snd (fst (processEntries JSON_parse ToNumber d env entries))) ->
  exists entry,
    In entry entries /\ mid = fst entry
    /\ fst (parseTask JSON_parse (now env) (fst entry) (snd entry)) <> None.
Proof.
  revert d. induction entries as [|entry rest IH]; intros d; [intros []|].
  cbn [processEntries].
  pose proof (processEntry_xack d env entry stream group mid) as Hone.
  destruct (processEntry JSON_parse ToNumber d env entry) as [[d1 effs1] [err|]].
  - cbn [fst snd] in *. intros Hin. exists entry. split; [left; reflexivity|].
    exact (Hone Hin).
  - specialize (IH d1).
    destruct (processEntries JSON_parse ToNumber d1 env rest) as [[d2 effs2] thrown].
    cbn [fst snd] in *. intros Hin. apply in_app_or in Hin as [Hin|Hin].
    + exists entry. split; [left; reflexivity|]. exact (Hone Hin).
    + destruct (IH Hin) as (e & He & Hmid). exists e. split; [right; exact He|exact Hmid].
Qed.

(** The batch loop over two batches in a row. *)
Lemma processEntries_app (d : t) (env : Env) (before after : list StreamEntry) :
  processEntries JSON_parse ToNumber d env (before ++ after)
  = match processEntries JSON_parse ToNumber d env before with
    | (d1, effs1, Some err) => (d1, effs1, Some err)
    | (d1, effs1, None) =>
        let '(d2, effs2, thrown) := processEntries JSON_parse ToNumber d1 env after in
        (d2, effs1 ++ effs2, thrown)
    end.
Proof.
  revert d. induction before as [|entry rest IH]; intros d.
  - cbn [app processEntries].
    destruct (processEntries JSON_parse ToNumber d env after) as [[d2 effs2] thrown].
    reflexivity.
  - cbn [app processEntries].
    destruct (processEntry JSON_parse ToNumber d env entry) as [[d1 effs1] [err|]];
      [reflexivity|].
    rewrite IH.
    destruct (processEntries JSON_parse ToNumber d1 env rest) as [[d2 effs2] [err|]];
      [reflexivity|].
    destruct (processEntries JSON_parse ToNumber d2 env after) as [[d3 effs3] thrown].
    rewrite app_assoc. reflexivity.
Qed.

(** C2, as the code has it.  For every stream entry whose fields fail to
    parse into a task, the loop logs the error and moves on to the next
    entry.  The body of the loop leaves the dispatcher unchanged and does
    nothing but log.  In a batch, once the entries before the malformed one
    have been processed without an exception, the entries after it are
    processed from the state the malformed one was met in, the log line
    sitting between the effects of the two parts.  No acknowledgment is
    issued for the message: an acknowledgment in the batch carries the id
    of an entry that parsed. *)
Theorem malformed_entry_skipped (d : t) (env : Env)
    (before after : list StreamEntry) (entry : StreamEntry) :
  fst (parseTask JSON_parse (now env) (fst entry) (snd entry)) = None ->
  processEntry JSON_parse ToNumber d env entry
  = (d, [ConsoleError "Failed to parse task:"], None)
  /\ processEntries JSON_parse ToNumber d env (before ++ entry :: after)
     = match processEntries JSON_parse ToNumber d env before with
       | (d1, effs1, Some err) => (d1, effs1, Some err)
       | (d1, effs1, None) =>
           let '(d2, effs2, thrown) :=
             processEntries JSON_parse ToNumber d1 env after in
           (d2, effs1 ++ ConsoleError "Failed to parse task:" :: effs2, thrown)
       end
  /\ forall stream group mid,
       In (Xack stream group mid)
          (snd (fst (processEntries JSON_parse ToNumber d env
                       (before ++ entry :: after)))) ->
       exists parsed,
         In parsed (before ++ after) /\ mid = fst parsed
         /\ fst (parseTask JSON_parse (now env) (fst parsed) (snd parsed)) <> None.
Proof.
  intros Hbad.
  assert (forall d0, processEntry JSON_parse ToNumber d0 env entry
                     = (d0, [ConsoleError "Failed to parse task:"], None)) as Hskip.
  { intros d0. unfold processEntry.
    rewrite (parseTask_failure_logged _ _ _ Hbad). reflexivity. }
  split; [apply Hskip|]. split.
  - rewrite processEntries_app.
    destruct (processEntries JSON_parse ToNumber d env before)
      as [[d1 effs1] [err|]]; [reflexivity|].
    cbn [processEntries]. rewrite Hskip.
    destruct (processEntries JSON_parse ToNumber d1 env after) as [[d2 effs2] thrown].
    reflexivity.
  - intros stream group mid Hin.
    destruct (processEntries_xack _ _ _ _ _ _ Hin) as (e & He & Hmid & Hparsed).
    exists e. split; [|split; assumption].
    apply in_app_or in He as [He|[<-|He]].
    + apply in_or_app. left. exact He.
    + contradiction.
    + apply in_or_app. right. exact He.
Qed.
End ConsumeFacts.

Lemma malformed_entry_skipped_witness :
  let d := exampleDispatcher closedBreaker in
  let env := exampleEnv (Resolved None) RedisOk RedisOk in
  let before := [("1-0", ["id"; "t1"; "payload"; "{}"])] in
  let entry := ("2-0", ["id"; "t2"; "payload"; "{bad"]) in
  let after := [("3-0", ["id"; "t3"; "payload"; "{}"])] in
  let run := Dispatcher.processEntries JsonText.parse JsonText.toNumber in
  Dispatcher.processEntry JsonText.parse JsonText.toNumber d env entry
  = (d, [Dispatcher.ConsoleError "Failed to parse task:"], None)
  /\ run d env (before ++ entry :: after)
     = match run d env before with
       | (d1, effs1, Some err) => (d1, effs1, Some err)
       | (d1, effs1, None) =>
           let '(d2, effs2, thrown) := run d1 env after in
           (d2, effs1 ++ Dispatcher.ConsoleError "Failed to parse task:" :: effs2,
            thrown)
       end
  /\ forall stream group mid,
       In (Dispatcher.Xack stream group mid)
          (snd (fst (run d env (before ++ entry :: after)))) ->
       exists parsed,
         In parsed (before ++ after) /\ mid = fst parsed
         /\ fst (Dispatcher.parseTask JsonText.parse (Dispatcher.now env)
                   (fst parsed) (snd parsed)) <> None.
Proof.
  apply (malformed_entry_skipped JsonText.parse JsonText.toNumber
           (exampleDispatcher closedBreaker)
           (exampleEnv (Resolved None) RedisOk RedisOk)
           [("1-0", ["id"; "t1"; "payload"; "{}"])]
           [("3-0", ["id"; "t3"; "payload"; "{}"])]
           ("2-0", ["id"; "t2"; "payload"; "{bad"])).
  vm_compute. reflexivity.
Defined.

(** The batch of the witness, run: the entries around the malformed one are
    published and acknowledged, the malformed one is only logged. *)
Example malformed_entry_in_the_middle :
  let d := exampleDispatcher closedBreaker in
  let env := exampleEnv (Resolved None) RedisOk RedisOk in
  let batch := [("1-0", ["id"; "t1"; "payload"; "{}"]);
                ("2-0", ["id"; "t2"; "payload"; "{bad"]);
                ("3-0", ["id"; "t3"; "payload"; "{}"])] in
  let effects :=
    snd (fst (Dispatcher.processEntries JsonText.parse JsonText.toNumber d env batch)) in
  List.filter (fun e => isXack e || negb (isPublish e || isPredictCall e)) effects
  = [Dispatcher.Xack Dispatcher.TASK_STREAM Dispatcher.GROUP "1-0";
     Dispatcher.ConsoleError "Failed to parse task:";
     Dispatcher.Xack Dispatcher.TASK_STREAM Dispatcher.GROUP "3-0"].
Proof. vm_compute. reflexivity. Qed.

(** C2, as stated, fails: one turn of the consume loop over a batch with a
    well-formed message and a malformed one acknowledges the first and only
    logs the second; no acknowledgment is issued for 2-0. *)
Lemma malformed_message_not_acked :
  let d := exampleDispatcher closedBreaker in
  let env := exampleEnv (Resolved None) RedisOk RedisOk in
  let batch := [(Dispatcher.TASK_STREAM,
                 [("1-0", ["id"; "t1"; "payload"; "{}"]);
                  ("2-0", ["id"; "t2"; "payload"; "{bad"])])] in
  let effects :=
    snd (Dispatcher.consumeLoop JsonText.parse JsonText.toNumber d
           [(env, Dispatcher.ReadMessages batch)]) in
  fst (Dispatcher.parseTask JsonText.parse 1000 "2-0" ["id"; "t2"; "payload"; "{bad"])
  = None
  /\ List.filter isXack effects
     = [Dispatcher.Xack Dispatcher.TASK_STREAM Dispatcher.GROUP "1-0"]
  /\ last effects = Some (Dispatcher.ConsoleError "Failed to parse task:").
Proof. vm_compute. repeat split; reflexivity. Qed.

(** ** More on numbers *)

Section NumRange.
Local Open Scope Q_scope.

(** A number between 0 and 1 is finite. *)
Lemma unit_range_Fin (c : num) :
  (JS.zero <=? c)%num = true -> (c <=? JS.one)%num = true ->
  exists x : Q, c = Fin x /\ 0 <= x <= 1.
Proof.
  destruct c as [| | |x]; try (cbn; congruence).
  intros H0 H1. exists x. split; [reflexivity|].
  apply leb_Fin in H0. apply leb_Fin in H1. lra.
Qed.

Lemma Qdiv_mult_cancel (a b : Q) : ~ b == 0 -> (a / b) * b == a.
Proof. intros Hb. field. exact Hb. Qed.

Lemma div_Fin_pos (x y : Q) : 0 < y -> (Fin x / Fin y)%num = Fin (x / y).
Proof.
  intros Hy. unfold JS.div, JS.Qsign.
  assert ((0 ?= y)%Q = Lt) as E by (apply Qlt_alt; exact Hy).
  rewrite E. reflexivity.
Qed.

Lemma Qdiv_nonneg (x y : Q) : 0 <= x -> 0 < y -> 0 <= x / y.
Proof.
  intros Hx Hy. pose proof (Qdiv_mult_cancel x y ltac:(lra)) as E.
  destruct (Qlt_le_dec (x / y) 0) as [L|L]; [|exact L]. nra.
Qed.

Lemma Qdiv_le_1 (x y : Q) : 0 < y -> x <= y -> x / y <= 1.
Proof. intros Hy Hxy. apply Qle_shift_div_r; [exact Hy|lra]. Qed.
End NumRange.

(** ** More on the EMA utilities and the predictor *)

Section PredictorLaws.
Import Ema HeuristicPredictor PredictorQueries.

(** With a non-negative sample count and a positive threshold the
    confidence is count / threshold, capped at 1: it lies in [0, 1] and is
    1 from the threshold on. *)
Theorem calculateConfidence_range (count threshold : Q) :
  (0 <= count)%Q -> (0 < threshold)%Q ->
  exists c : Q,
    calculateConfidence (Fin count) (Fin threshold) = Fin c
    /\ (0 <= c <= 1)%Q
    /\ ((threshold <= count)%Q -> (c == 1)%Q)
    /\ ((count < threshold)%Q -> (c == count / threshold)%Q).
Proof.
  intros Hc Ht. unfold calculateConfidence. rewrite (div_Fin_pos _ _ Ht).
  unfold Math_min. cbn [is_nan JS.one orb].
  pose proof (Qdiv_nonneg count threshold Hc Ht) as Hnn.
  pose proof (Qdiv_mult_cancel count threshold ltac:(lra)) as E.
  change JS.one with (Fin 1).
  destruct (Fin (count / threshold) <? Fin 1)%num eqn:L.
  - apply ltb_Fin in L. exists (count / threshold)%Q.
    split; [reflexivity|]. repeat split; try lra; intros; nra.
  - exists 1%Q. split; [reflexivity|]. repeat split; try lra.
    intros H. exfalso.
    assert (count / threshold < 1)%Q as Hlt.
    { apply Qlt_shift_div_r; [exact Ht|lra]. }
    apply ltb_Fin in Hlt. congruence.
Qed.

Lemma calculateConfidence_range_witness :
  exists c : Q,
    calculateConfidence (Fin 10) (Fin 100) = Fin c
    /\ (0 <= c <= 1)%Q
    /\ ((100 <= 10)%Q -> (c == 1)%Q)
    /\ ((10 < 100)%Q -> (c == 10 / 100)%Q).
Proof. apply (calculateConfidence_range 10 100); [discriminate|reflexivity]. Defined.

(** What is fixed across a feedback: the configuration and the ready flag. *)
Lemma feedback_config (set_outcome : RedisOutcome) (p : t) (actual : num)
    (taskType : option string) (now : Z) :
  config (fst (fst (feedback set_outcome p actual taskType now))) = config p
  /\ ready (fst (fst (feedback set_outcome p actual taskType now))) = ready p.
Proof.
  unfold feedback. destruct taskType as [[|c rest]|]; try (split; reflexivity).
  destruct (connected (persistence p)); [|split; reflexivity].
  destruct (trackUpdate _ _ _ _) as [[ps effs] res]. split; reflexivity.
Qed.

(** A feedback for one task type leaves the state of every other type as it
    was, and with it what [predict] returns for tasks of other types. *)
Theorem feedback_other_types_untouched (set_outcome : RedisOutcome) (p : t)
    (actual : num) (taskType : option string) (now : Z) (task : Task) :
  taskType <> Some (task_type task) ->
  let p' := fst (fst (feedback set_outcome p actual taskType now)) in
  predictions p' !! task_type task = predictions p !! task_type task
  /\ predict p' task = predict p task.
Proof.
  intros Hne p'. subst p'.
  assert (predictions (fst (fst (feedback set_outcome p actual taskType now)))
            !! task_type task = predictions p !! task_type task) as E.
  { destruct taskType as [[|c rest]|]; try reflexivity.
    rewrite feedback_predictions. apply lookup_insert_ne. congruence. }
  split; [exact E|].
  unfold predict. rewrite E.
  destruct (feedback_config set_outcome p actual taskType now) as [-> _].
  reflexivity.
Qed.

Lemma feedback_other_types_untouched_witness :
  let p := create DEFAULT_PREDICTOR_CONFIG in
  let p' := fst (fst (feedback RedisOk p (JS.of_Z 100) (Some "deploy") 0)) in
  predictions p' !! task_type (exampleTask "t1")
  = predictions p !! task_type (exampleTask "t1")
  /\ predict p' (exampleTask "t1") = predict p (exampleTask "t1").
Proof.
  apply (feedback_other_types_untouched RedisOk (create DEFAULT_PREDICTOR_CONFIG)
           (JS.of_Z 100) (Some "deploy") 0 (exampleTask "t1")).
  discriminate.
Defined.

(** The first feedback for a task type is what [predict] returns next: the
    estimate is the observed duration and the confidence that of one
    sample. *)
Theorem predict_after_first_feedback (set_outcome : RedisOutcome) (p : t)
    (actual : num) (task : Task) (now : Z) :
  task_type task <> EmptyString ->
  predictions p !! task_type task = None ->
  let p' := fst (fst (feedback set_outcome p actual (Some (task_type task)) now)) in
  estimatedDurationMs (predict p' task) = actual
  /\ confidence (predict p' task)
     = calculateConfidence JS.one (confidenceThreshold (config p)).
Proof.
  intros Hty Hnone p'.
  destruct (task_type task) as [|c rest] eqn:Ety; [congruence|].
  unfold predict. rewrite Ety. subst p'.
  destruct (feedback_config set_outcome p actual (Some (String c rest)) now)
    as [-> _].
  rewrite feedback_predictions, lookup_insert_eq, Hnone. split; reflexivity.
Qed.

Lemma predict_after_first_feedback_witness :
  let p := create DEFAULT_PREDICTOR_CONFIG in
  let p' := fst (fst (feedback RedisOk p (JS.of_Z 1200)
                               (Some (task_type (exampleTask "t1"))) 0)) in
  estimatedDurationMs (predict p' (exampleTask "t1")) = JS.of_Z 1200
  /\ confidence (predict p' (exampleTask "t1"))
     = calculateConfidence JS.one (confidenceThreshold (config p)).
Proof.
  apply (predict_after_first_feedback RedisOk (create DEFAULT_PREDICTOR_CONFIG)
           (JS.of_Z 1200) (exampleTask "t1") 0).
  - discriminate.
  - reflexivity.
Defined.

(** What [predict] returns after a feedback does not depend on how the
    snapshot write settles: a persistence failure is never visible to
    predictions. *)
Theorem predict_ignores_persistence_outcome (o1 o2 : RedisOutcome) (p : t)
    (actual : num) (taskType : option string) (now : Z) (task : Task) :
  predict (fst (fst (feedback o1 p actual taskType now))) task
  = predict (fst (fst (feedback o2 p actual taskType now))) task.
Proof.
  unfold predict.
  destruct (feedback_config o1 p actual taskType now) as [-> _].
  destruct (feedback_config o2 p actual taskType now) as [-> _].
  destruct taskType as [[|c rest]|]; try reflexivity.
  rewrite !feedback_predictions. reflexivity.
Qed.

(** The state a type has after [n] counted feedbacks. *)
Lemma runFeedbacks_count (c : ascii) (rest : string) (calls : list FeedbackCall)
    (p : t) (n : Z) :
  let ty := String c rest in
  match predictions p !! ty with
  | Some st => taskType st = ty
               /\ (exists q : Q, sampleCount st = Fin q /\ (q == inject_Z n)%Q)
               /\ 1 <= n
  | None => n = 0
  end ->
  0 <= n ->
  match predictions (fst (runFeedbacks p calls)) !! ty with
  | Some st => taskType st = ty
               /\ (exists q : Q, sampleCount st = Fin q
                                 /\ (q == inject_Z (n + feedbacksFor ty calls))%Q)
               /\ 1 <= n + feedbacksFor ty calls
  | None => n + feedbacksFor ty calls = 0
  end.
Proof.
  intros ty. revert p n. induction calls as [|call calls IH]; intros p n Hinv Hn.
  - cbn. unfold feedbacksFor. cbn. rewrite Z.add_0_r. exact Hinv.
  - cbn [runFeedbacks].
    destruct (feedback (fb_outcome call) p (fb_actual call) (fb_taskType call)
                       (fb_now call)) as [[p1 effs1] res] eqn:Ef.
    assert (p1 = fst (fst (feedback (fb_outcome call) p (fb_actual call)
                                    (fb_taskType call) (fb_now call)))) as Ep1
      by (rewrite Ef; reflexivity).
    clear Ef.
    destruct (runFeedbacks p1 calls) as [p2 effs2] eqn:Er.
    assert (p2 = fst (runFeedbacks p1 calls)) as -> by (rewrite Er; reflexivity).
    clear Er. cbn [fst].
    set (step := match fb_taskType call with
                 | Some t => if String.eqb t ty then 1 else 0
                 | None => 0
                 end).
    assert (feedbacksFor ty (call :: calls) = step + feedbacksFor ty calls) as ->.
    { unfold feedbacksFor, step. cbn [List.filter].
      destruct (fb_taskType call) as [t|]; [|cbn; lia].
      destruct (String.eqb t ty); cbn [length]; lia. }
    replace (n + (step + feedbacksFor ty calls))
      with ((n + step) + feedbacksFor ty calls) by lia.
    apply IH; [|subst step; destruct (fb_taskType call) as [t|];
                 [destruct (String.eqb t ty)|]; lia].
    subst p1 step.
    destruct (fb_taskType call) as [[|c' rest']|].
    + (* the empty type: ignored *)
      cbn [feedback fst]. change (String.eqb EmptyString ty) with false.
      rewrite Z.add_0_r. exact Hinv.
    + rewrite feedback_predictions.
      destruct (String.eqb_spec (String c' rest') ty) as [->|Hne].
      * rewrite lookup_insert_eq.
        destruct (predictions p !! ty) as [st|] eqn:Est.
        -- destruct Hinv as (Ht & (q & Hq & Eq) & H1).
           split; [exact Ht|]. split; [|lia].
           exists (q + 1)%Q. split.
           ++ cbn. rewrite Hq. reflexivity.
           ++ rewrite inject_Z_plus. rewrite Eq. reflexivity.
        -- subst n. split; [reflexivity|]. split; [|lia].
           exists (0 + 1)%Q. split; reflexivity.
      * rewrite lookup_insert_ne by exact Hne. rewrite Z.add_0_r. exact Hinv.
    + cbn [feedback fst]. rewrite Z.add_0_r. exact Hinv.
Qed.

(** From a fresh predictor, after any sequence of feedbacks, a non-empty
    task type has a stored state exactly when at least one feedback carried
    it, and then the state is filed under its own type and its sampleCount
    is the number of those feedbacks. *)
Theorem sample_count_counts_feedbacks (cfg : HeuristicPredictorConfig)
    (calls : list FeedbackCall) (c : ascii) (rest : string) :
  let ty := String c rest in
  match predictions (fst (runFeedbacks (create cfg) calls)) !! ty with
  | Some st =>
      taskType st = ty
      /\ (sampleCount st =? JS.of_Z (feedbacksFor ty calls))%num = true
      /\ 1 <= feedbacksFor ty calls
  | None => feedbacksFor ty calls = 0
  end.
Proof.
  intros ty.
  pose proof (runFeedbacks_count c rest calls (create cfg) 0 eq_refl ltac:(lia)) as H.
  cbv zeta in H. fold ty in H. rewrite Z.add_0_l in H.
  destruct (predictions (fst (runFeedbacks (create cfg) calls)) !! ty) as [st|];
    [|exact H].
  destruct H as (Ht & (q & Hq & Eq) & H1).
  split; [exact Ht|]. split; [|exact H1].
  rewrite Hq. apply eqb_Fin. exact Eq.
Qed.

Lemma cadence_with_interval (interval : Z) (calls : list FeedbackCall) (p : t) :
  connected (persistence p) = true ->
  p_snapshotInterval (persistenceConfig (persistence p)) = Some interval ->
  0 <= updatesSinceSnapshot (persistence p) < interval ->
  Forall (fun c => hasTaskType c = true /\ fb_outcome c = RedisOk) calls ->
  updatesSinceSnapshot (persistence (fst (runFeedbacks p calls)))
  = (updatesSinceSnapshot (persistence p) + Z.of_nat (length calls)) mod interval
  /\ Z.of_nat (length (List.filter isRedisSet (snd (runFeedbacks p calls))))
     = (updatesSinceSnapshot (persistence p) + Z.of_nat (length calls)) / interval.
Proof.
  intros Hconn Hint Hc0 Hcalls. revert p Hconn Hint Hc0.
  induction Hcalls as [|call calls [Hty Hok] _ IH]; intros p Hconn Hint Hc0.
  - cbn. rewrite Z.add_0_r, Z.mod_small, Z.div_small by lia. split; reflexivity.
  - cbn [runFeedbacks].
    unfold hasTaskType in Hty.
    destruct (fb_taskType call) as [[|c rest]|]; try discriminate.
    rewrite Hok. unfold feedback. rewrite Hconn. unfold trackUpdate. rewrite Hint.
    cbn [updatesSinceSnapshot connected persistenceConfig].
    set (c0 := updatesSinceSnapshot (persistence p)) in *.
    set (preds := <[String c rest := _]> (predictions p)).
    destruct (Z.leb_spec interval (c0 + 1)) as [Hfull|Hroom].
    + unfold save. cbn [connected updatesSinceSnapshot persistenceConfig].
      rewrite ?Hconn. cbn [negb].
      set (p1 := {| predictions := preds; config := config p;
                    persistence :=
                      {| connected := true; updatesSinceSnapshot := 0;
                         persistenceConfig := persistenceConfig (persistence p) |};
                    ready := ready p |}).
      specialize (IH p1 eq_refl Hint ltac:(cbn; lia)).
      cbn [persistence updatesSinceSnapshot p1] in IH.
      destruct (runFeedbacks p1 calls) as [p2 effs2].
      cbn [fst snd] in *. destruct IH as [IHc IHs].
      assert (c0 + 1 = interval) as E by lia.
      change (length (call :: calls)) with (S (length calls)).
      replace (c0 + Z.of_nat (S (length calls)))
        with (1 * interval + (0 + Z.of_nat (length calls))) by lia.
      rewrite Z.div_add_l, Z.add_comm, Z.mod_add by lia.
      split; [exact IHc|]. cbn [List.filter isRedisSet length app].
      rewrite Nat2Z.inj_succ, IHs. lia.
    + rewrite ?Hconn.
      set (p1 := {| predictions := preds; config := config p;
                    persistence :=
                      {| connected := true; updatesSinceSnapshot := c0 + 1;
                         persistenceConfig := persistenceConfig (persistence p) |};
                    ready := ready p |}).
      specialize (IH p1 eq_refl Hint ltac:(cbn; lia)).
      cbn [persistence updatesSinceSnapshot p1] in IH.
      destruct (runFeedbacks p1 calls) as [p2 effs2].
      cbn [fst snd app] in *. destruct IH as [IHc IHs].
      change (length (call :: calls)) with (S (length calls)).
      replace (c0 + Z.of_nat (S (length calls)))
        with (c0 + 1 + Z.of_nat (length calls)) by lia.
      split; assumption.
Qed.

Lemma no_snapshot_without_interval (calls : list FeedbackCall) (p : t) :
  p_snapshotInterval (persistenceConfig (persistence p)) = None ->
  List.filter isRedisSet (snd (runFeedbacks p calls)) = []
  /\ p_snapshotInterval (persistenceConfig (persistence (fst (runFeedbacks p calls))))
     = None.
Proof.
  revert p. induction calls as [|call calls IH]; intros p Hint; [split; [reflexivity|exact Hint]|].
  cbn [runFeedbacks]. unfold feedback.
  destruct (fb_taskType call) as [[|c rest]|].
  - specialize (IH p Hint). destruct (runFeedbacks p calls) as [p2 effs2].
    cbn [fst snd app List.filter isRedisSet] in *. exact IH.
  - destruct (connected (persistence p)).
    + unfold trackUpdate. rewrite Hint.
      set (p1 := {| predictions := _; config := config p; persistence := _;
                    ready := ready p |}).
      specialize (IH p1 Hint). destruct (runFeedbacks p1 calls) as [p2 effs2].
      cbn [fst snd app] in *. exact IH.
    + set (p1 := {| predictions := _; config := config p;
                    persistence := persistence p; ready := ready p |}).
      specialize (IH p1 Hint). destruct (runFeedbacks p1 calls) as [p2 effs2].
      cbn [fst snd app] in *. exact IH.
  - specialize (IH p Hint). destruct (runFeedbacks p calls) as [p2 effs2].
    cbn [fst snd app List.filter isRedisSet] in *. exact IH.
Qed.

(** Snapshots during feedback, with persistence connected and every write
    succeeding.  When the persistence has a snapshot interval, a snapshot
    is written once every [interval] accepted feedbacks: after [n] of them
    the counter is (c0 + n) mod interval and (c0 + n) / interval snapshots
    were written, [c0] being the counter at the start.  When the interval
    is undefined no feedback writes a snapshot, and that is the case of a
    predictor built from DEFAULT_PREDICTOR_CONFIG without an interval of the
    caller's: the constructor hands the undefined value on, which replaces
    the default 100 of the persistence. *)
Theorem snapshot_cadence (p : t) (calls : list FeedbackCall) :
  connected (persistence p) = true ->
  Forall (fun c => hasTaskType c = true /\ fb_outcome c = RedisOk) calls ->
  let c0 := updatesSinceSnapshot (persistence p) in
  let n := Z.of_nat (length calls) in
  let writes := List.filter isRedisSet (snd (runFeedbacks p calls)) in
  match p_snapshotInterval (persistenceConfig (persistence p)) with
  | Some interval =>
      0 <= c0 < interval ->
      updatesSinceSnapshot (persistence (fst (runFeedbacks p calls)))
      = (c0 + n) mod interval
      /\ Z.of_nat (length writes) = (c0 + n) / interval
  | None => writes = []
  end
  /\ p_snapshotInterval
       (persistenceConfig (persistence (create DEFAULT_PREDICTOR_CONFIG))) = None
  /\ forall cfg interval,
       snapshotInterval cfg = Some interval ->
       p_snapshotInterval (persistenceConfig (persistence (create cfg)))
       = Some interval.
Proof.
  intros Hconn Hcalls. cbv zeta. split; [|split; [reflexivity|]].
  - destruct (p_snapshotInterval (persistenceConfig (persistence p)))
      as [interval|] eqn:Hint.
    + intros Hc0. apply cadence_with_interval; assumption.
    + apply no_snapshot_without_interval, Hint.
  - intros cfg interval Hcfg. cbn. exact Hcfg.
Qed.

Lemma snapshot_cadence_witness :
  let cfg := {| alpha := dec 3 10; defaultDurationMs := JS.of_Z 5000;
                confidenceThreshold := JS.of_Z 100;
                redisKey := None; snapshotInterval := Some 2 |} in
  let p := {| predictions := predictions (create cfg); config := cfg;
              persistence :=
                {| connected := true; updatesSinceSnapshot := 0;
                   persistenceConfig := persistenceConfig (persistence (create cfg)) |};
              ready := true |} in
  let calls := replicate 5 {| fb_outcome := RedisOk; fb_actual := JS.of_Z 100;
                              fb_taskType := Some "build"; fb_now := 0 |} in
  updatesSinceSnapshot (persistence (fst (runFeedbacks p calls))) = (0 + 5) mod 2
  /\ Z.of_nat (length (List.filter isRedisSet (snd (runFeedbacks p calls))))
     = (0 + 5) / 2.
Proof.
  cbv zeta.
  set (cfg := {| alpha := dec 3 10; defaultDurationMs := JS.of_Z 5000;
                 confidenceThreshold := JS.of_Z 100;
                 redisKey := None; snapshotInterval := Some 2 |}).
  set (p := {| predictions := predictions (create cfg); config := cfg;
               persistence :=
                 {| connected := true; updatesSinceSnapshot := 0;
                    persistenceConfig := persistenceConfig (persistence (create cfg)) |};
               ready := true |}).
  set (calls := replicate 5 {| fb_outcome := RedisOk; fb_actual := JS.of_Z 100;
                               fb_taskType := Some "build"; fb_now := 0 |}).
  assert (connected (persistence p) = true) as Hconn by reflexivity.
  assert (Forall (fun c => hasTaskType c = true /\ fb_outcome c = RedisOk) calls)
    as Hcalls by (repeat constructor).
  destruct (snapshot_cadence p calls Hconn Hcalls) as [Hcadence _].
  apply Hcadence. cbn. lia.
Defined.

(** [getPrediction] and [predict] agree; after [resetPrediction] the type is
    predicted as unknown again while other types keep their prediction, and
    the returned flag tells whether the type was known. *)
Theorem resetPrediction_forgets_one_type (p : t) (taskType : string) (task : Task) :
  getPrediction p (task_type task)
  = (estimatedDurationMs (predict p task), confidence (predict p task))
  /\ snd (resetPrediction p taskType)
     = match predictions p !! taskType with Some _ => true | None => false end
  /\ (task_type task = taskType ->
      estimatedDurationMs (predict (fst (resetPrediction p taskType)) task)
      = defaultDurationMs (config p)
      /\ confidence (predict (fst (resetPrediction p taskType)) task) = JS.zero)
  /\ (task_type task <> taskType ->
      predict (fst (resetPrediction p taskType)) task = predict p task).
Proof.
  split; [|split; [|split]].
  - unfold getPrediction, predict.
    destruct (predictions p !! task_type task); reflexivity.
  - unfold resetPrediction. cbn. destruct (predictions p !! taskType); reflexivity.
  - intros <-. unfold predict, resetPrediction. cbn.
    rewrite lookup_delete_eq. split; reflexivity.
  - intros Hne. unfold predict, resetPrediction. cbn.
    rewrite lookup_delete_ne by congruence. reflexivity.
Qed.
End PredictorLaws.

(** ** More on drift detection and the accuracy tracker *)

Section FeedbackLaws.
Import DriftDetector.

Lemma div_Fin_neg (x y : Q) : (y < 0)%Q -> (Fin x / Fin y)%num = Fin (x / y).
Proof.
  intros Hy. unfold JS.div, JS.Qsign.
  assert ((0 ?= y)%Q = Gt) as E by (apply Qgt_alt; exact Hy).
  rewrite E. reflexivity.
Qed.

Lemma calculateDeviation_Fin (predicted actual : Q) :
  ~ (predicted == 0)%Q ->
  calculateDeviation (Fin predicted) (Fin actual)
  = Fin (Qabs (actual + - predicted) / predicted).
Proof.
  intros Hp. unfold calculateDeviation.
  assert ((Fin predicted =? JS.zero)%num = false) as ->.
  { destruct (Fin predicted =? JS.zero)%num eqn:E; [|reflexivity].
    apply eqb_Fin in E. contradiction. }
  cbn [JS.sub JS.neg JS.add Math_abs].
  destruct (Qlt_le_dec 0 predicted) as [L|L].
  - apply div_Fin_pos, L.
  - apply div_Fin_neg. destruct (Qlt_le_dec predicted 0); [assumption|].
    exfalso. apply Hp. lra.
Qed.

(** A sample that the accuracy tracker counts as within a threshold of at
    most one quarter, which its default threshold is, is never flagged as
    drift under the default thresholds: its ratio lies within [3/4, 5/4],
    well inside the band from 0.5 to 2.0. *)
Theorem within_threshold_is_no_drift (predicted actual threshold : Q) :
  (0 < predicted)%Q -> (threshold <= 1 # 4)%Q ->
  isWithinThreshold (Fin predicted) (Fin actual) (Fin threshold) = true ->
  isDrift (detectDrift (Fin predicted) (Fin actual) DEFAULT_DRIFT_CONFIG) = false.
Proof.
  intros Hp Ht Hw. unfold isWithinThreshold in Hw.
  rewrite calculateDeviation_Fin in Hw by lra. apply leb_Fin in Hw.
  pose proof (Qdiv_mult_cancel (Qabs (actual + - predicted)) predicted ltac:(lra)) as Ed.
  pose proof (Qdiv_mult_cancel actual predicted ltac:(lra)) as Er.
  assert (Qabs (actual + - predicted) <= threshold * predicted)%Q as Habs by nra.
  apply Qabs_Qle_condition in Habs.
  assert ((JS.zero <? Fin predicted)%num = true) as Hpos by (apply ltb_Fin; exact Hp).
  destruct (detectDrift_positive (Fin predicted) (Fin actual) DEFAULT_DRIFT_CONFIG Hpos)
    as (Hr & Hd & _).
  cbv zeta in Hr, Hd. rewrite Hd, Hr. rewrite (div_Fin_pos _ _ Hp).
  cbn [lowerThreshold upperThreshold DEFAULT_DRIFT_CONFIG]. unfold JS.gtb, dec.
  apply orb_false_iff. split.
  - destruct (Fin (actual / predicted) <? Fin (5 # 10))%num eqn:E; [|reflexivity].
    apply ltb_Fin in E. exfalso. nra.
  - destruct (Fin (20 # 10) <? Fin (actual / predicted))%num eqn:E; [|reflexivity].
    apply ltb_Fin in E. exfalso. nra.
Qed.

Lemma within_threshold_is_no_drift_witness :
  isDrift (detectDrift (Fin 1000) (Fin 1200) DEFAULT_DRIFT_CONFIG) = false.
Proof.
  apply (within_threshold_is_no_drift 1000 1200 (25 # 100)).
  - reflexivity.
  - discriminate.
  - reflexivity.
Defined.

End FeedbackLaws.

Section TrackerLaws.
Import AccuracyTracker.

(** [record] appends the new sample and evicts the oldest one when the
    window is exceeded: a window that held at most [windowSize] samples
    still does, the samples kept are the most recent ones in order, and the
    new sample is the last (for a window of at least one). *)
Theorem record_keeps_window (tr : t) (taskType : string) (predicted actual : num)
    (now : Z) :
  0 <= windowSize (config tr) ->
  Z.of_nat (length (samples tr)) <= windowSize (config tr) ->
  let tr' := record tr taskType predicted actual now in
  let sample :=
    {| s_taskType := taskType; s_predicted := predicted; s_actual := actual;
       s_timestamp := now;
       s_withinThreshold :=
         DriftDetector.isWithinThreshold predicted actual
                                         (accuracyThreshold (config tr)) |} in
  Z.of_nat (length (samples tr')) <= windowSize (config tr')
  /\ config tr' = config tr
  /\ (exists evicted, evicted ++ samples tr' = samples tr ++ [sample]
                      /\ (length evicted <= 1)%nat)
  /\ (1 <= windowSize (config tr) -> last (samples tr') = Some sample).
Proof.
  intros Hw Hlen tr' sample. subst tr'. unfold record. fold sample.
  cbn [samples config].
  destruct (Z.ltb_spec (windowSize (config tr)) (Z.of_nat (length (samples tr ++ [sample]))))
    as [Hover|Hfit].
  - rewrite length_app in Hover. cbn [length] in Hover.
    destruct (samples tr) as [|s0 rest] eqn:Es.
    + cbn. repeat split; try lia.
      * exists [sample]. split; [reflexivity|cbn; lia].
      * intros H1. cbn in Hover. lia.
    + cbn [app tail]. repeat split.
      * rewrite length_app. cbn [length] in *. lia.
      * exists [s0]. split; [reflexivity|cbn; lia].
      * intros _. apply last_snoc.
  - repeat split.
    + exact Hfit.
    + exists []. split; [reflexivity|cbn; lia].
    + intros _. apply last_snoc.
Qed.

Lemma record_keeps_window_witness :
  let older :=
    {| s_taskType := "build"; s_predicted := JS.of_Z 1000; s_actual := JS.of_Z 900;
       s_timestamp := 0; s_withinThreshold := true |} in
  let newer :=
    {| s_taskType := "test"; s_predicted := JS.of_Z 200; s_actual := JS.of_Z 400;
       s_timestamp := 1; s_withinThreshold := false |} in
  let tr := {| samples := [older; newer];
               config := {| windowSize := 2; accuracyThreshold := dec 25 100 |} |} in
  let tr' := record tr "build" (JS.of_Z 1000) (JS.of_Z 1100) 2 in
  let sample :=
    {| s_taskType := "build"; s_predicted := JS.of_Z 1000; s_actual := JS.of_Z 1100;
       s_timestamp := 2;
       s_withinThreshold :=
         DriftDetector.isWithinThreshold (JS.of_Z 1000) (JS.of_Z 1100)
                                         (accuracyThreshold (config tr)) |} in
  (Z.of_nat (length (samples tr')) <= windowSize (config tr')
   /\ config tr' = config tr
   /\ (exists evicted, evicted ++ samples tr' = samples tr ++ [sample]
                       /\ (length evicted <= 1)%nat)
   /\ (1 <= windowSize (config tr) -> last (samples tr') = Some sample))
  /\ samples tr' = [newer; sample].
Proof.
  split; [|reflexivity].
  apply (record_keeps_window
           {| samples :=
                [{| s_taskType := "build"; s_predicted := JS.of_Z 1000;
                    s_actual := JS.of_Z 900; s_timestamp := 0;
                    s_withinThreshold := true |};
                 {| s_taskType := "test"; s_predicted := JS.of_Z 200;
                    s_actual := JS.of_Z 400; s_timestamp := 1;
                    s_withinThreshold := false |}];
              config := {| windowSize := 2; accuracyThreshold := dec 25 100 |} |}
           "build" (JS.of_Z 1000) (JS.of_Z 1100) 2).
  - cbn. lia.
  - cbn. lia.
Defined.

Lemma filter_length_le {A : Type} (P : A -> Prop) `{forall x, Decision (P x)}
    (l : list A) :
  (length (filter P l) <= length l)%nat.
Proof. apply length_filter. Qed.

(** The statistics of the window: [total] is the number of samples,
    [withinThreshold] counts some of them, and the accuracy is their
    quotient, a number in [0, 1]; an empty window reports accuracy 0 and is
    never "below target". *)
Theorem getStats_accuracy_range (tr : t) (target : num) :
  let stats := getStats tr in
  total stats = Z.of_nat (length (samples tr))
  /\ 0 <= withinThreshold stats <= total stats
  /\ (exists a : Q, accuracy stats = Fin a /\ (0 <= a <= 1)%Q)
  /\ (samples tr = [] -> isAccuracyBelowTarget tr target = false).
Proof.
  unfold isAccuracyBelowTarget, getStats.
  destruct (samples tr) as [|s0 rest] eqn:Es.
  - cbn. repeat split; try lia. exists 0%Q. split; [reflexivity|lra].
  - rewrite <- Es. cbn [total withinThreshold accuracy].
    pose proof (filter_length_le (fun s => s_withinThreshold s = true) (samples tr)) as Hle.
    assert (0 < Z.of_nat (length (samples tr))) as Hpos by (rewrite Es; cbn; lia).
    repeat split; try lia.
    + unfold JS.of_Z. rewrite div_Fin_pos.
      * eexists. split; [reflexivity|]. split.
        -- apply Qdiv_nonneg.
           ++ change 0%Q with (inject_Z 0). rewrite <- Zle_Qle. lia.
           ++ change 0%Q with (inject_Z 0). rewrite <- Zlt_Qlt. lia.
        -- apply Qdiv_le_1.
           ++ change 0%Q with (inject_Z 0). rewrite <- Zlt_Qlt. lia.
           ++ rewrite <- Zle_Qle. lia.
      * change 0%Q with (inject_Z 0). rewrite <- Zlt_Qlt. lia.
    + intros E. rewrite Es in E. discriminate.
Qed.
End TrackerLaws.

Section SubscriberLaws.
Import DriftDetector CompletionSubscriber.

Lemma driftStep_frame (s : t) (completion : TaskCompletion) (now : Z) :
  let s' := fst (driftStep s completion now) in
  hasFeedback s' = hasFeedback s /\ config s' = config s
  /\ isRunning s' = isRunning s /\ completionCount s' = completionCount s.
Proof.
  unfold driftStep. destruct (predictedDurationMs completion) as [predicted|];
    [|repeat split].
  destruct (JS.truthy predicted && (predicted >? JS.zero)%num); repeat split.
Qed.

Lemma checkAccuracy_no_drift (s : t) : existsb isDriftEvent (checkAccuracy s) = false.
Proof.
  unfold checkAccuracy.
  destruct (AccuracyTracker.isAccuracyBelowTarget _ _); reflexivity.
Qed.

Lemma driftStep_events (s : t) (completion : TaskCompletion) (now : Z) (e : effect) :
  In e (snd (driftStep s completion now)) -> isDriftEvent e = true ->
  exists predicted,
    predictedDurationMs completion = Some predicted
    /\ (JS.zero <? predicted)%num = true
    /\ e = Emit (drift_detected (c_taskType completion)
                   (detectDrift predicted (durationMs completion) (drift (config s))))
    /\ isDrift (detectDrift predicted (durationMs completion) (drift (config s))) = true
    /\ message (detectDrift predicted (durationMs completion) (drift (config s)))
       <> InvalidPrediction.
Proof.
  unfold driftStep. destruct (predictedDurationMs completion) as [predicted|];
    [|intros []].
  destruct (JS.truthy predicted && (predicted >? JS.zero)%num) eqn:G; [|intros []].
  apply andb_true_iff in G as [_ Hpos]. unfold JS.gtb in Hpos.
  destruct (isDrift (detectDrift predicted (durationMs completion) (drift (config s))))
    eqn:Hd; [|intros []].
  cbn [snd]. intros [<-|[<-|[]]] He; [discriminate He|].
  exists predicted. repeat split; try assumption.
  unfold detectDrift. rewrite (ltb_not_leb _ _ Hpos). cbn [message].
  destruct (negb _); [discriminate|].
  destruct (_ >? _)%num; discriminate.
Qed.

(** Every drift event that [processCompletion] emits comes from a
    completion that carries a positive prediction and is the result of
    [detectDrift] on it: the event is flagged as drift and is never the
    "invalid prediction" result. *)
Theorem drift_events_have_positive_prediction (feedback_outcome : async_result unit)
    (s : t) (completion : TaskCompletion) (now : Z) (e : effect) :
  In e (snd (fst (processCompletion feedback_outcome s completion now))) ->
  isDriftEvent e = true ->
  exists predicted,
    predictedDurationMs completion = Some predicted
    /\ (JS.zero <? predicted)%num = true
    /\ e = Emit (drift_detected (c_taskType completion)
                   (detectDrift predicted (durationMs completion) (drift (config s))))
    /\ isDrift (detectDrift predicted (durationMs completion) (drift (config s))) = true
    /\ message (detectDrift predicted (durationMs completion) (drift (config s)))
       <> InvalidPrediction.
Proof.
  unfold processCompletion. destruct (isRunning s); cbn [negb]; [|intros []].
  set (s1 := {| hasFeedback := hasFeedback s; accuracyTracker := accuracyTracker s;
                config := config s; isRunning := true;
                completionCount := completionCount s + 1 |}).
  pose proof (driftStep_events s1 completion now e) as Hstep.
  destruct (driftStep s1 completion now) as [s2 drift_effs]. cbn [snd] in Hstep.
  assert (forall l, In e (drift_effs ++ l) -> existsb isDriftEvent l = false ->
                    isDriftEvent e = true -> In e drift_effs) as Hsplit.
  { intros l Hin Hno He. apply in_app_or in Hin as [Hin|Hin]; [exact Hin|].
    exfalso. assert (existsb isDriftEvent l = true) as Hyes
      by (apply existsb_exists; eauto). congruence. }
  intros Hin He. apply Hstep; [|exact He].
  destruct (hasFeedback s2).
  - destruct feedback_outcome as [u|err]; cbn [fst snd] in Hin.
    + apply (Hsplit _ Hin); [|exact He].
      cbn [existsb app isDriftEvent orb].
      destruct (Z.rem _ _ =? 0)%Z; [apply checkAccuracy_no_drift|reflexivity].
    + apply (Hsplit _ Hin); [reflexivity|exact He].
  - cbn [fst snd] in Hin. apply (Hsplit _ Hin); [|exact He].
    destruct (Z.rem _ _ =? 0)%Z; [apply checkAccuracy_no_drift|reflexivity].
Qed.

Lemma drift_events_have_positive_prediction_witness :
  let s := {| hasFeedback := false;
              accuracyTracker := accuracyTracker (create DEFAULT_COMPLETION_CONFIG);
              config := DEFAULT_COMPLETION_CONFIG; isRunning := true;
              completionCount := 0 |} in
  let completion := {| c_taskId := "t1"; c_taskType := "build"; c_workerId := "w1";
                       c_startedAt := DateAt 0; c_completedAt := DateAt 4000;
                       durationMs := JS.of_Z 4000; c_success := true;
                       predictedDurationMs := Some (JS.of_Z 1000) |} in
  exists predicted,
    predictedDurationMs completion = Some predicted
    /\ (JS.zero <? predicted)%num = true
    /\ Emit (drift_detected "build"
               (detectDrift (JS.of_Z 1000) (JS.of_Z 4000) DEFAULT_DRIFT_CONFIG))
       = Emit (drift_detected (c_taskType completion)
                 (detectDrift predicted (durationMs completion) (drift (config s))))
    /\ isDrift (detectDrift predicted (durationMs completion) (drift (config s))) = true
    /\ message (detectDrift predicted (durationMs completion) (drift (config s)))
       <> InvalidPrediction.
Proof.
  apply (drift_events_have_positive_prediction (Resolved tt)
           {| hasFeedback := false;
              accuracyTracker := accuracyTracker (create DEFAULT_COMPLETION_CONFIG);
              config := DEFAULT_COMPLETION_CONFIG; isRunning := true;
              completionCount := 0 |}
           {| c_taskId := "t1"; c_taskType := "build"; c_workerId := "w1";
              c_startedAt := DateAt 0; c_completedAt := DateAt 4000;
              durationMs := JS.of_Z 4000; c_success := true;
              predictedDurationMs := Some (JS.of_Z 1000) |} 4000
           (Emit (drift_detected "build"
                    (detectDrift (JS.of_Z 1000) (JS.of_Z 4000) DEFAULT_DRIFT_CONFIG)))).
  - vm_compute. right. left. reflexivity.
  - reflexivity.
Defined.

(** A stopped subscriber ignores completions.  A running one counts each
    completion exactly once, whether or not the predictor's feedback
    rejects, and emits an accuracy warning only when the new count is a
    multiple of 100. *)
Theorem processCompletion_counts (feedback_outcome : async_result unit) (s : t)
    (completion : TaskCompletion) (now : Z) :
  let s' := fst (fst (processCompletion feedback_outcome s completion now)) in
  let effects := snd (fst (processCompletion feedback_outcome s completion now)) in
  (isRunning s = false -> s' = s /\ effects = [])
  /\ (isRunning s = true ->
      completionCount s' = completionCount s + 1
      /\ isRunning s' = true /\ config s' = config s
      /\ hasFeedback s' = hasFeedback s
      /\ (existsb isAccuracyWarning effects = true ->
          Z.rem (completionCount s') 100 = 0)).
Proof.
  cbv zeta. unfold processCompletion. split; intros Hrun; rewrite Hrun; cbn [negb].
  - split; reflexivity.
  - set (s1 := {| hasFeedback := hasFeedback s; accuracyTracker := accuracyTracker s;
                  config := config s; isRunning := true;
                  completionCount := completionCount s + 1 |}).
    pose proof (driftStep_frame s1 completion now) as (Hf & Hc & Hr & Hn).
    assert (existsb isAccuracyWarning (snd (driftStep s1 completion now)) = false) as Hd.
    { unfold driftStep. destruct (predictedDurationMs completion) as [predicted|];
        [|reflexivity].
      destruct (JS.truthy predicted && _); [|reflexivity].
      destruct (isDrift _); reflexivity. }
    destruct (driftStep s1 completion now) as [s2 drift_effs].
    cbn [fst snd] in *. rewrite Hf. cbn [hasFeedback s1].
    assert (forall l, existsb isAccuracyWarning l = false ->
                      existsb isAccuracyWarning
                        (drift_effs ++ l
                         ++ (if (Z.rem (completionCount s2) 100 =? 0)%Z
                             then checkAccuracy s2 else [])) = true ->
                      Z.rem (completionCount s2) 100 = 0) as Hper.
    { intros l Hl. rewrite !existsb_app, Hd, Hl. cbn [orb]. intros H.
      destruct (Z.eqb_spec (Z.rem (completionCount s2) 100) 0); [assumption|].
      discriminate. }
    destruct (hasFeedback s).
    + destruct feedback_outcome as [u|err]; cbn [fst snd].
      * repeat split; try assumption. apply Hper. reflexivity.
      * repeat split; try assumption.
        rewrite existsb_app, Hd. cbn. discriminate.
    + cbn [fst snd]. repeat split; try assumption.
      apply (Hper []). reflexivity.
Qed.
End SubscriberLaws.

(** ** More on the worker registry *)

Section RegistryLaws.
Import WorkerRegistry.

Lemma OMap_get_set {V : Type} (k k' : string) (v : V) (m : OMap.t V) :
  OMap.get k' (OMap.set k v m) = if String.eqb k' k then Some v else OMap.get k' m.
Proof.
  induction m as [|[k0 v0] m IH]; cbn [OMap.set OMap.get].
  - destruct (String.eqb k' k); reflexivity.
  - destruct (String.eqb_spec k k0) as [->|Hne]; cbn [OMap.get].
    + destruct (String.eqb k' k0); reflexivity.
    + rewrite IH. destruct (String.eqb_spec k' k0) as [->|Hne'].
      * destruct (String.eqb_spec k0 k) as [->|]; [contradiction|reflexivity].
      * reflexivity.
Qed.

Lemma OMap_length_set {V : Type} (k : string) (v : V) (m : OMap.t V) :
  length (OMap.set k v m) = if OMap.has k m then length m else S (length m).
Proof.
  unfold OMap.has. induction m as [|[k0 v0] m IH]; [reflexivity|].
  cbn [OMap.set OMap.get]. destruct (String.eqb k k0); [reflexivity|].
  cbn [length]. rewrite IH. destruct (OMap.get k m); reflexivity.
Qed.

Lemma OMap_get_absent {V : Type} (k : string) (m : OMap.t V) :
  k ∉ OMap.keys m -> OMap.get k m = None.
Proof.
  unfold OMap.keys. induction m as [|[k0 v0] m IH]; [reflexivity|].
  cbn. intros Hin. destruct (String.eqb_spec k k0) as [->|Hne].
  - exfalso. apply Hin. left.
  - apply IH. intros H. apply Hin. right. exact H.
Qed.

Lemma OMap_get_delete {V : Type} (k k' : string) (m : OMap.t V) :
  NoDup (OMap.keys m) ->
  OMap.get k' (OMap.delete k m) = if String.eqb k' k then None else OMap.get k' m.
Proof.
  unfold OMap.keys. induction m as [|[k0 v0] m IH]; intros Hnd.
  - cbn. destruct (String.eqb k' k); reflexivity.
  - inversion Hnd as [|? ? Hin Hnd']; subst. cbn [OMap.delete OMap.get].
    destruct (String.eqb_spec k k0) as [->|Hne].
    + destruct (String.eqb_spec k' k0) as [->|Hne']; [|reflexivity].
      apply OMap_get_absent, Hin.
    + cbn [OMap.get]. rewrite (IH Hnd').
      destruct (String.eqb_spec k' k0) as [->|Hne']; [|reflexivity].
      destruct (String.eqb_spec k0 k) as [->|]; [contradiction|reflexivity].
Qed.

Lemma OMap_delete_sublist {V : Type} (k : string) (m : OMap.t V) :
  sublist (OMap.delete k m) m.
Proof.
  induction m as [|[k0 v0] m IH]; cbn; [constructor|].
  destruct (String.eqb k k0).
  - apply sublist_cons. reflexivity.
  - apply sublist_skip, IH.
Qed.

Lemma unregister_WellKeyed (r : t) (workerId : string) :
  WellKeyed r -> WellKeyed (fst (unregister r workerId)).
Proof.
  intros [Hnd Hk]. pose proof (OMap_delete_sublist workerId (workers r)) as Hsub.
  split; cbn.
  - unfold OMap.keys in *. eapply sublist_NoDup; [exact Hnd|].
    apply fmap_sublist, Hsub.
  - rewrite List.Forall_forall in *. intros kv Hin. apply Hk.
    apply list_elem_of_In. eapply elem_of_sublist; [|exact Hsub].
    apply list_elem_of_In, Hin.
Qed.

Lemma registryCall_WellKeyed (r : t) (call : RegistryCall) :
  WellKeyed r -> WellKeyed (registryCall r call).
Proof.
  intros Hr. destruct call; cbn [registryCall].
  - apply register_WellKeyed, Hr.
  - apply unregister_WellKeyed, Hr.
  - apply mutate_WellKeyed; [reflexivity|exact Hr].
  - apply mutate_WellKeyed; [reflexivity|exact Hr].
  - apply mutate_WellKeyed; [reflexivity|exact Hr].
  - apply pruneStale_WellKeyed, Hr.
  - split; constructor.
Qed.

(** Whatever calls a registry has served since its construction, it holds
    at most one worker per id: the workers listed have distinct ids, their
    number is the size, and a lookup by id returns a worker of that id. *)
Theorem registry_one_worker_per_id (heartbeatTimeoutMs : Z)
    (calls : list RegistryCall) :
  let r := registryCalls (create heartbeatTimeoutMs) calls in
  NoDup (w_id <$> getAll r)
  /\ length (getAll r) = size r
  /\ forall workerId worker, get r workerId = Some worker -> w_id worker = workerId.
Proof.
  cbv zeta.
  assert (WellKeyed (registryCalls (create heartbeatTimeoutMs) calls)) as [Hnd Hk].
  { unfold registryCalls.
    generalize (create_WellKeyed heartbeatTimeoutMs).
    generalize (create heartbeatTimeoutMs) as r.
    induction calls as [|call calls IH]; intros r Hr; [exact Hr|].
    cbn [fold_left]. apply IH, registryCall_WellKeyed, Hr. }
  set (r := registryCalls (create heartbeatTimeoutMs) calls) in *.
  repeat split.
  - unfold getAll, OMap.values, OMap.keys in *.
    revert Hnd Hk. generalize (workers r) as m.
    induction m as [|[k w] m IH]; intros Hnd Hk; [constructor|].
    inversion Hnd as [|? ? Hin Hnd']; subst.
    inversion Hk as [|? ? Hkw Hk']; subst. cbn in Hkw. subst k.
    cbn. constructor; [|apply IH; assumption].
    intros Hin'. apply Hin.
    apply list_elem_of_fmap in Hin' as (w' & E & Hw').
    apply list_elem_of_fmap in Hw' as ([k' w''] & -> & Hkv).
    apply list_elem_of_fmap. exists (k', w''). split; [|exact Hkv].
    rewrite List.Forall_forall in Hk'.
    cbn in *. rewrite E. symmetry. apply (Hk' (k', w'')).
    apply list_elem_of_In, Hkv.
  - unfold getAll, size, OMap.values. apply length_fmap.
  - intros workerId worker Hget. symmetry.
    exact (OMap_get_keyed (fun kv => fst kv = w_id (snd kv)) _ _ _ Hk Hget).
Qed.

(** [register] followed by [get]: the worker is found under its id with the
    heartbeat of the registration, every other id reads as before, and the
    size grows by one exactly when the id is new. *)
Theorem register_then_get (r : t) (worker : WorkerState) (now : Z)
    (workerId : string) :
  get (register r worker now) workerId
  = (if String.eqb workerId (w_id worker) then Some (stamped worker now)
     else get r workerId)
  /\ size (register r worker now)
     = (match get r (w_id worker) with Some _ => size r | None => S (size r) end).
Proof.
  unfold get, register, size. cbn [workers with_workers]. split.
  - apply OMap_get_set.
  - rewrite OMap_length_set. unfold OMap.has.
    destruct (OMap.get (w_id worker) (workers r)); reflexivity.
Qed.

(** [unregister] on a registry with one worker per id: it reports whether
    the id was known, the id is unknown afterwards, and every other id
    reads as before. *)
Theorem unregister_then_get (r : t) (workerId other : string) :
  WellKeyed r ->
  snd (unregister r workerId)
  = (match get r workerId with Some _ => true | None => false end)
  /\ get (fst (unregister r workerId)) workerId = None
  /\ (other <> workerId -> get (fst (unregister r workerId)) other = get r other).
Proof.
  intros [Hnd _]. unfold get, unregister. cbn [fst snd workers with_workers].
  repeat split.
  - rewrite (OMap_get_delete _ _ _ Hnd). rewrite String.eqb_refl. reflexivity.
  - intros Hne. rewrite (OMap_get_delete _ _ _ Hnd).
    destruct (String.eqb_spec other workerId); [contradiction|reflexivity].
Qed.

Lemma unregister_then_get_witness :
  snd (unregister exampleRegistry "w2")
  = (match get exampleRegistry "w2" with Some _ => true | None => false end)
  /\ get (fst (unregister exampleRegistry "w2")) "w2" = None
  /\ ("w3" <> "w2" -> get (fst (unregister exampleRegistry "w2")) "w3"
                      = get exampleRegistry "w3").
Proof.
  apply (unregister_then_get exampleRegistry "w2" "w3").
  unfold exampleRegistry. repeat apply register_WellKeyed. apply create_WellKeyed.
Defined.

Lemma isAvailable_stale (r : t) (capabilities : option (list string)) (now : Z)
    (worker : WorkerState) :
  isStale r now worker = true -> isAvailable r capabilities now worker = false.
Proof.
  unfold isStale, isAvailable. intros ->.
  destruct (WorkerStatus_eqb _ _ || WorkerStatus_eqb _ _); reflexivity.
Qed.

(** Pruning changes no answer of [getAvailable] at that instant, since a
    stale worker is skipped there whatever its status.  Pruning again at
    the same instant changes nothing and reports the same ids again: a
    worker already offline is still reported. *)
Theorem pruneStale_keeps_availability (r : t)
    (capabilities : option (list string)) (now : Z) :
  getAvailable (fst (pruneStale r now)) capabilities now
  = getAvailable r capabilities now
  /\ pruneStale (fst (pruneStale r now)) now = pruneStale r now
  /\ size (fst (pruneStale r now)) = size r.
Proof.
  unfold getAvailable, pruneStale, size, OMap.values.
  cbn [fst snd workers with_workers].
  change (isAvailable (with_workers r ?ws)) with (isAvailable r).
  change (isStale (with_workers r ?ws)) with (isStale r).
  unfold with_workers. cbn [heartbeatTimeoutMs].
  repeat split.
  - induction (workers r) as [|[k w] m IH]; [reflexivity|].
    cbn [fmap list_fmap snd List.filter] in *.
    destruct (isStale r now w) eqn:Es; cbn [snd].
    + rewrite (isAvailable_stale _ _ _ _ Es).
      assert (isStale r now (set_status offline w) = true) as Es' by exact Es.
      rewrite (isAvailable_stale _ _ _ _ Es'). exact IH.
    + destruct (isAvailable r capabilities now w); [f_equal|]; exact IH.
  - f_equal.
    + f_equal. induction (workers r) as [|[k w] m IH]; [reflexivity|].
      cbn [fmap list_fmap snd fst]. rewrite IH. f_equal.
      destruct (isStale r now w) eqn:Es; cbn [snd fst].
      * change (isStale r now (set_status offline w)) with (isStale r now w).
        rewrite Es. reflexivity.
      * rewrite Es. reflexivity.
    + induction (workers r) as [|[k w] m IH]; [reflexivity|].
      cbn [fmap list_fmap snd fst List.filter] in *.
      destruct (isStale r now w) eqn:Es; cbn [snd fst].
      * change (isStale r now (set_status offline w)) with (isStale r now w).
        rewrite Es. cbn [fmap list_fmap fst]. f_equal. exact IH.
      * rewrite Es. exact IH.
  - apply length_fmap.
Qed.

Lemma isAvailable_eligible (r : t) (capabilities : option (list string))
    (now : Z) (worker : WorkerState) :
  isAvailable r capabilities now worker
  = Objectives.isWorkerEligible worker capabilities && negb (isStale r now worker).
Proof.
  unfold isAvailable, Objectives.isWorkerEligible, isStale.
  destruct (WorkerStatus_eqb _ _ || WorkerStatus_eqb _ _); [reflexivity|].
  destruct (heartbeatTimeoutMs r <? now - lastHeartbeat worker)%Z;
    destruct (activeTasks worker >=? maxConcurrency worker)%num; cbn [negb];
    rewrite ?andb_false_r, ?andb_true_r; reflexivity.
Qed.

Lemma getAvailable_eligible (r : t) (task : Task) (now : Z) :
  eligibleWorkers task (getAvailable r (task_capabilities task) now)
  = getAvailable r (task_capabilities task) now.
Proof.
  unfold eligibleWorkers, getAvailable.
  induction (OMap.values (workers r)) as [|w l IH]; [reflexivity|].
  cbn [List.filter]. destruct (isAvailable r (task_capabilities task) now w) eqn:E;
    [|exact IH].
  cbn [List.filter]. rewrite isAvailable_eligible in E.
  apply andb_true_iff in E as [-> _]. f_equal. exact IH.
Qed.

(** The registry's availability test is the scorer's eligibility test
    together with a fresh heartbeat, so the scorer drops none of the
    workers that [getAvailable] returns for the task's capabilities, and it
    finds no worker exactly when none is available. *)
Theorem available_workers_are_eligible (r : t) (task : Task) (now : Z)
    (config : MultiObjectiveScorer.ScorerConfig)
    (prediction : option TaskPrediction) :
  (forall capabilities worker,
     isAvailable r capabilities now worker
     = Objectives.isWorkerEligible worker capabilities
       && negb (isStale r now worker))
  /\ eligibleWorkers task (getAvailable r (task_capabilities task) now)
     = getAvailable r (task_capabilities task) now
  /\ (MultiObjectiveScorer.score config task
        (getAvailable r (task_capabilities task) now) prediction = None
      <-> getAvailable r (task_capabilities task) now = []).
Proof.
  split; [intros; apply isAvailable_eligible|].
  split; [apply getAvailable_eligible|].
  unfold MultiObjectiveScorer.score.
  fold (eligibleWorkers task (getAvailable r (task_capabilities task) now)).
  rewrite getAvailable_eligible.
  destruct (getAvailable r (task_capabilities task) now) as [|w l]; [tauto|].
  cbn [fmap list_fmap ArraySort.sort].
  destruct (ArraySort.sort _ _) as [|y rest]; cbn [ArraySort.insert].
  - split; discriminate.
  - destruct (_ >? _)%num; split; discriminate.
Qed.
End RegistryLaws.

(** ** More on the scorer *)

Section ScorerLaws.
Import Objectives MultiObjectiveScorer.
Local Open Scope Q_scope.

Lemma ltb_Fin_dec (x y : Q) :
  (Fin x <? Fin y)%num = if Qlt_le_dec x y then true else false.
Proof.
  destruct (Qlt_le_dec x y) as [L|L].
  - apply ltb_Fin, L.
  - destruct (Fin x <? Fin y)%num eqn:E; [|reflexivity].
    apply ltb_Fin in E. lra.
Qed.

Lemma leb_Fin_dec (x y : Q) :
  (Fin x <=? Fin y)%num = if Qlt_le_dec y x then false else true.
Proof.
  destruct (Qlt_le_dec y x) as [L|L].
  - apply ltb_not_leb, ltb_Fin, L.
  - apply leb_Fin, L.
Qed.

Lemma calculateWaitScore_range (estimatedWaitMs maxWaitMs : num) :
  is_nan estimatedWaitMs = false -> is_nan maxWaitMs = false ->
  exists q : Q, calculateWaitScore estimatedWaitMs maxWaitMs = Fin q /\ 0 <= q <= 1.
Proof.
  unfold calculateWaitScore, JS.geb.
  destruct estimatedWaitMs as [| | |x]; [discriminate| | |];
    (destruct maxWaitMs as [| | |y]; [discriminate| | |]); intros _ _;
    try (exists 1; split; [reflexivity|lra]);
    try (exists 0; split; [reflexivity|lra]).
  - change JS.zero with (Fin 0). rewrite leb_Fin_dec.
    destruct (Qlt_le_dec 0 x); [|exists 1; split; [reflexivity|lra]].
    exists 1. split; [reflexivity|lra].
  - change JS.zero with (Fin 0). rewrite leb_Fin_dec.
    destruct (Qlt_le_dec 0 x); [|exists 1; split; [reflexivity|lra]].
    exists 0. split; [reflexivity|lra].
  - change JS.zero with (Fin 0). rewrite !leb_Fin_dec.
    destruct (Qlt_le_dec 0 x) as [Hx|Hx]; [|exists 1; split; [reflexivity|lra]].
    destruct (Qlt_le_dec x y) as [Hy|Hy]; [|exists 0; split; [reflexivity|lra]].
    rewrite div_Fin_pos by lra. eexists. split; [reflexivity|].
    pose proof (Qdiv_nonneg x y ltac:(lra) ltac:(lra)).
    pose proof (Qdiv_le_1 x y ltac:(lra) ltac:(lra)). lra.
Qed.

Lemma calculatePriorityScore_range (priority maxPriority : num) :
  is_nan priority = false -> is_nan maxPriority = false ->
  exists q : Q, calculatePriorityScore priority maxPriority = Fin q /\ 0 <= q <= 1.
Proof.
  unfold calculatePriorityScore, JS.geb.
  destruct priority as [| | |x]; [discriminate| | |];
    (destruct maxPriority as [| | |y]; [discriminate| | |]); intros _ _;
    try (exists 1; split; [reflexivity|lra]);
    try (exists 0; split; [reflexivity|lra]).
  - change JS.zero with (Fin 0). rewrite leb_Fin_dec.
    destruct (Qlt_le_dec 0 x); exists 0; (split; [reflexivity|lra]).
  - change JS.zero with (Fin 0). rewrite leb_Fin_dec.
    destruct (Qlt_le_dec 0 x); [|exists 0; split; [reflexivity|lra]].
    exists 1. split; [reflexivity|lra].
  - change JS.zero with (Fin 0). rewrite !leb_Fin_dec.
    destruct (Qlt_le_dec 0 x) as [Hx|Hx]; [|exists 0; split; [reflexivity|lra]].
    destruct (Qlt_le_dec x y) as [Hy|Hy]; [|exists 1; split; [reflexivity|lra]].
    rewrite div_Fin_pos by lra. eexists. split; [reflexivity|].
    pose proof (Qdiv_nonneg x y ltac:(lra) ltac:(lra)).
    pose proof (Qdiv_le_1 x y ltac:(lra) ltac:(lra)). lra.
Qed.

Lemma clamp_Fin (l : Q) :
  exists c : Q,
    Math_max JS.zero (Math_min JS.one (Fin l)) = Fin c
    /\ 0 <= c <= 1 /\ (l <= 0 -> c == 0) /\ (1 <= l -> c == 1)
    /\ (0 <= l <= 1 -> c == l).
Proof.
  unfold Math_min, Math_max.
  change JS.one with (Fin 1). change JS.zero with (Fin 0). cbn [is_nan orb].
  rewrite ltb_Fin_dec. destruct (Qlt_le_dec l 1) as [H1|H1]; cbn [is_nan orb].
  - rewrite ltb_Fin_dec. destruct (Qlt_le_dec 0 l) as [H0|H0].
    + exists l. split; [reflexivity|]. repeat split; intros; lra.
    + exists 0. split; [reflexivity|]. repeat split; intros; lra.
  - exists 1. split; [reflexivity|]. repeat split; intros; lra.
Qed.

Lemma calculateLoadScore_range (load : num) :
  is_nan load = false ->
  exists q : Q, calculateLoadScore load = Fin q /\ 0 <= q <= 1.
Proof.
  intros Hl. unfold calculateLoadScore.
  destruct (clamp_in_range load Hl) as [H0 H1]. cbv zeta in H0, H1.
  destruct (unit_range_Fin _ H0 H1) as (c & -> & Hc).
  eexists. split; [reflexivity|]. lra.
Qed.

(** With inputs that are not NaN, each of the three sub-scores is a number
    in [0, 1]; with weights that are numbers in [0, 1], as those of a valid
    configuration are, the total is a number that is not negative and at
    most 3. *)
Theorem scoreWorker_range (config : ScorerConfig) (task : Task)
    (worker : WorkerState) (prediction : option TaskPrediction)
    (wWait wLoad wPriority : Q) :
  weights config = {| wait := Fin wWait; load := Fin wLoad;
                      priority := Fin wPriority |} ->
  0 <= wWait <= 1 -> 0 <= wLoad <= 1 -> 0 <= wPriority <= 1 ->
  is_nan (maxWaitMs config) = false -> is_nan (maxPriority config) = false ->
  is_nan (estimateWaitTime worker prediction) = false ->
  is_nan (currentLoad worker) = false ->
  is_nan (task_priority task) = false ->
  let result := scoreWorker config task worker prediction in
  exists total sWait sLoad sPriority : Q,
    ws_score result = Fin total
    /\ breakdown result = {| waitScore := Fin sWait; loadScore := Fin sLoad;
                             priorityScore := Fin sPriority |}
    /\ 0 <= sWait <= 1 /\ 0 <= sLoad <= 1 /\ 0 <= sPriority <= 1
    /\ 0 <= total <= 3.
Proof.
  intros Hw Ha Hb Hc HmaxW HmaxP Hest Hload Hprio. cbv zeta.
  unfold scoreWorker. cbn [ws_score breakdown]. rewrite Hw. cbn [wait load priority].
  destruct (calculateWaitScore_range _ _ Hest HmaxW) as (q1 & -> & H1).
  destruct (calculateLoadScore_range _ Hload) as (q2 & -> & H2).
  destruct (calculatePriorityScore_range _ _ Hprio HmaxP) as (q3 & -> & H3).
  cbn [JS.mul JS.add]. exists (wWait * q1 + wLoad * q2 + wPriority * q3), q1, q2, q3.
  repeat split; try lra; nra.
Qed.

Lemma scoreWorker_range_witness :
  let result := scoreWorker DEFAULT_SCORER_CONFIG (exampleTask "t1")
                            (exampleWorker "w1" (dec 2 10)) None in
  exists total sWait sLoad sPriority : Q,
    ws_score result = Fin total
    /\ breakdown result = {| waitScore := Fin sWait; loadScore := Fin sLoad;
                             priorityScore := Fin sPriority |}
    /\ 0 <= sWait <= 1 /\ 0 <= sLoad <= 1 /\ 0 <= sPriority <= 1
    /\ 0 <= total <= 3.
Proof.
  apply (scoreWorker_range DEFAULT_SCORER_CONFIG (exampleTask "t1")
           (exampleWorker "w1" (dec 2 10)) None (4 # 10) (4 # 10) (2 # 10));
    try reflexivity; split; discriminate.
Defined.

(** All else equal, a worker with less load never scores lower: for two
    workers with the same number of active tasks, the one whose load is not
    greater has a score that is not smaller. *)
Theorem lower_load_scores_no_less (config : ScorerConfig) (task : Task)
    (w1 w2 : WorkerState) (prediction : option TaskPrediction)
    (wWait wLoad wPriority load1 load2 : Q) :
  weights config = {| wait := Fin wWait; load := Fin wLoad;
                      priority := Fin wPriority |} ->
  0 <= wLoad ->
  is_nan (maxWaitMs config) = false -> is_nan (maxPriority config) = false ->
  is_nan (estimateWaitTime w1 prediction) = false ->
  is_nan (task_priority task) = false ->
  activeTasks w2 = activeTasks w1 ->
  currentLoad w1 = Fin load1 -> currentLoad w2 = Fin load2 ->
  load1 <= load2 ->
  (scoreOf config task prediction w2 <=? scoreOf config task prediction w1)%num
  = true.
Proof.
  intros Hw Hb HmaxW HmaxP Hest Hprio Hact Hl1 Hl2 Hle.
  unfold scoreOf, scoreWorker. cbn [ws_score]. rewrite Hw. cbn [wait load priority].
  assert (estimateWaitTime w2 prediction = estimateWaitTime w1 prediction) as ->
    by (unfold estimateWaitTime; rewrite Hact; reflexivity).
  destruct (calculateWaitScore_range _ _ Hest HmaxW) as (q1 & -> & H1).
  destruct (calculatePriorityScore_range _ _ Hprio HmaxP) as (q3 & -> & H3).
  unfold calculateLoadScore. rewrite Hl1, Hl2.
  destruct (clamp_Fin load1) as (c1 & -> & R1 & Z1 & O1 & I1).
  destruct (clamp_Fin load2) as (c2 & -> & R2 & Z2 & O2 & I2).
  cbn [JS.mul JS.add JS.sub JS.neg JS.one]. apply leb_Fin.
  assert (c1 <= c2) as Hc.
  { destruct (Qlt_le_dec load1 0); destruct (Qlt_le_dec 1 load1);
      destruct (Qlt_le_dec load2 0); destruct (Qlt_le_dec 1 load2);
      try (specialize (Z1 ltac:(lra))); try (specialize (O1 ltac:(lra)));
      try (specialize (Z2 ltac:(lra))); try (specialize (O2 ltac:(lra)));
      try (specialize (I1 ltac:(lra))); try (specialize (I2 ltac:(lra))); lra. }
  nra.
Qed.

Lemma lower_load_scores_no_less_witness :
  (scoreOf DEFAULT_SCORER_CONFIG (exampleTask "t1") None (exampleWorker "w2" (dec 5 10))
   <=? scoreOf DEFAULT_SCORER_CONFIG (exampleTask "t1") None
         (exampleWorker "w1" (dec 2 10)))%num
  = true.
Proof.
  apply (lower_load_scores_no_less DEFAULT_SCORER_CONFIG (exampleTask "t1")
           (exampleWorker "w1" (dec 2 10)) (exampleWorker "w2" (dec 5 10)) None
           (4 # 10) (4 # 10) (2 # 10) (2 # 10) (5 # 10));
    try reflexivity; discriminate.
Defined.

Lemma insert_Permutation {A : Type} (compareFn : A -> A -> num) (x : A)
    (l : list A) :
  ArraySort.insert compareFn x l ≡ₚ x :: l.
Proof.
  induction l as [|y rest IH]; [reflexivity|]. cbn [ArraySort.insert].
  destruct (compareFn x y >? JS.zero)%num; [|reflexivity].
  rewrite IH. apply perm_swap.
Qed.

Lemma sort_Permutation {A : Type} (compareFn : A -> A -> num) (l : list A) :
  ArraySort.sort compareFn l ≡ₚ l.
Proof.
  induction l as [|x rest IH]; [reflexivity|]. cbn [ArraySort.sort].
  rewrite insert_Permutation, IH. reflexivity.
Qed.

(** [score] returns null exactly when no worker is eligible.  Otherwise
    the worker it names is an eligible worker of the input, reported with
    its own score, and the best score together with the alternatives is a
    rearrangement of the scores of all eligible workers: none is lost and
    none is invented. *)
Theorem score_returns_eligible_worker (config : ScorerConfig) (task : Task)
    (workers : list WorkerState) (prediction : option TaskPrediction) :
  match score config task workers prediction with
  | None => eligibleWorkers task workers = []
  | Some result =>
      (exists best,
         In best workers
         /\ isWorkerEligible best (task_capabilities task) = true
         /\ workerId result = w_id best
         /\ score_value result = scoreOf config task prediction best
         /\ r_best (reasoning result) = scoreWorker config task best prediction)
      /\ r_best (reasoning result) :: alternatives result
         ≡ₚ (fun worker => scoreWorker config task worker prediction)
              <$> eligibleWorkers task workers
  end.
Proof.
  unfold score. fold (eligibleWorkers task workers).
  set (f := fun worker => scoreWorker config task worker prediction).
  destruct (eligibleWorkers task workers) as [|e es] eqn:Ee; [reflexivity|].
  rewrite <- Ee.
  pose proof (sort_Permutation byScoreDescending (f <$> eligibleWorkers task workers))
    as Hperm.
  destruct (ArraySort.sort byScoreDescending (f <$> eligibleWorkers task workers))
    as [|b alts].
  - rewrite Ee in Hperm. apply Permutation_nil_l in Hperm. discriminate Hperm.
  - cbn [workerId score_value reasoning alternatives generateReasoning r_best].
    split; [|exact Hperm].
    assert (b ∈ f <$> eligibleWorkers task workers) as Hb
      by (rewrite <- Hperm; left).
    apply list_elem_of_fmap in Hb as (best & -> & Hbest).
    apply list_elem_of_In in Hbest. unfold eligibleWorkers in Hbest.
    apply filter_In in Hbest as [Hin Hel].
    exists best. repeat split; assumption.
Qed.
End ScorerLaws.

(** ** More on the round-robin scheduler and the dispatcher *)

Section FallbackLaws.
Import WorkerRegistry RoundRobinScheduler.
Local Open Scope Z_scope.

Lemma schedule_names_available (registry : WorkerRegistry.t) (s : t)
    (task : Task) (reason : SchedulingReason) (now : Z) :
  -1 <= lastIndex s ->
  match fst (schedule registry s task reason now) with
  | None => True
  | Some decision =>
      exists worker,
        In worker (getAvailable registry (task_capabilities task) now)
        /\ decision = {| d_taskId := task_id task; d_workerId := w_id worker;
                         d_timestamp := now; usedFallback := true;
                         d_prediction := None; reason := reason |}
  end.
Proof.
  intros Hc. unfold schedule.
  destruct (getAvailable registry (task_capabilities task) now) as [|a l] eqn:E;
    [exact I|].
  destruct (scheduleAmong_in_range (a :: l) s task reason now Hc
              ltac:(discriminate)) as (w & Hw & ->).
  cbn [fst]. exists w. split; [|reflexivity].
  apply list_elem_of_lookup_2, list_elem_of_In in Hw. exact Hw.
Qed.

(** A round-robin decision always names a worker that [getAvailable]
    returned for the task's capabilities, is marked as a fallback without a
    prediction, and leaves the cursor at a position of the available list;
    without available workers there is no decision and the cursor stays. *)
Theorem schedule_picks_available_worker (registry : WorkerRegistry.t) (s : t)
    (task : Task) (reason : SchedulingReason) (now : Z) :
  -1 <= lastIndex s ->
  let available := getAvailable registry (task_capabilities task) now in
  match schedule registry s task reason now with
  | (None, s') => available = [] /\ s' = s
  | (Some decision, s') =>
      0 <= lastIndex s' < Z.of_nat (length available)
      /\ exists worker,
           available !! Z.to_nat (lastIndex s') = Some worker
           /\ isAvailable registry (task_capabilities task) now worker = true
           /\ decision = {| d_taskId := task_id task; d_workerId := w_id worker;
                            d_timestamp := now; usedFallback := true;
                            d_prediction := None; reason := reason |}
  end.
Proof.
  intros Hc available. unfold schedule. fold available.
  destruct available as [|a l] eqn:E.
  - rewrite scheduleAmong_empty. split; reflexivity.
  - rewrite <- E.
    destruct (scheduleAmong_in_range available s task reason now Hc
                ltac:(rewrite E; discriminate)) as (w & Hw & ->).
    cbn [lastIndex]. split.
    + apply cursor_step; [rewrite E; cbn; lia|exact Hc].
    + exists w. repeat split; [exact Hw|].
      apply list_elem_of_lookup_2, list_elem_of_In in Hw.
      subst available. apply filter_In in Hw as [_ Hw]. exact Hw.
Qed.

Lemma schedule_picks_available_worker_witness :
  let available := getAvailable exampleRegistry (task_capabilities (exampleTask "t1"))
                                1000 in
  match schedule exampleRegistry create (exampleTask "t1") fallback_round_robin 1000 with
  | (None, s') => available = [] /\ s' = create
  | (Some decision, s') =>
      0 <= lastIndex s' < Z.of_nat (length available)
      /\ exists worker,
           available !! Z.to_nat (lastIndex s') = Some worker
           /\ isAvailable exampleRegistry (task_capabilities (exampleTask "t1")) 1000
                          worker = true
           /\ decision = {| d_taskId := task_id (exampleTask "t1");
                            d_workerId := w_id worker;
                            d_timestamp := 1000; usedFallback := true;
                            d_prediction := None; reason := fallback_round_robin |}
  end.
Proof.
  apply (schedule_picks_available_worker exampleRegistry create (exampleTask "t1")
           fallback_round_robin 1000).
  cbn. lia.
Defined.
End FallbackLaws.

Section DispatcherLaws.
Import Dispatcher.
Local Open Scope Z_scope.

Lemma chooseDecision_frame (d : t) (env : Env) (task : Task) :
  let d' := snd (fst (chooseDecision d env task)) in
  redis d' = redis d /\ registry d' = registry d /\ config d' = config d
  /\ running d' = running d /\ consumerName d' = consumerName d.
Proof.
  unfold chooseDecision.
  destruct (tryPrediction d env task) as [[predicted cb] effs].
  destruct predicted as [decision|].
  - cbn. repeat split.
  - destruct (RoundRobinScheduler.schedule _ _ _ _ _) as [decision fs].
    cbn. repeat split.
Qed.





Lemma OMap_In_get {V : Type} (k : string) (v : V) (m : OMap.t V) :
  NoDup (OMap.keys m) -> In (k, v) m -> OMap.get k m = Some v.
Proof.
  unfold OMap.keys. induction m as [|[k0 v0] m IH]; intros Hnd; [intros []|].
  inversion Hnd as [|? ? Hin Hnd']; subst. cbn [OMap.get].
  intros [[= -> ->]|H]; [rewrite String.eqb_refl; reflexivity|].
  destruct (String.eqb_spec k k0) as [->|Hne]; [|exact (IH Hnd' H)].
  exfalso. apply Hin. apply list_elem_of_fmap. exists (k0, v).
  split; [reflexivity|apply list_elem_of_In, H].
Qed.

Lemma available_worker_registered (r : WorkerRegistry.t)
    (capabilities : option (list string)) (now : Z) (worker : WorkerState) :
  WellKeyed r ->
  In worker (WorkerRegistry.getAvailable r capabilities now) ->
  WorkerRegistry.get r (w_id worker) = Some worker
  /\ w_status worker <> offline /\ w_status worker <> draining.
Proof.
  intros [Hnd Hk] Hin. unfold WorkerRegistry.getAvailable in Hin.
  apply filter_In in Hin as [Hin Hav]. split.
  - unfold OMap.values in Hin. apply list_elem_of_In, list_elem_of_fmap in Hin
      as ([k w] & -> & Hkv).
    apply list_elem_of_In in Hkv. rewrite List.Forall_forall in Hk.
    pose proof (Hk _ Hkv) as Ekey. cbn in Ekey. cbn [snd]. rewrite <- Ekey.
    apply OMap_In_get; assumption.
  - unfold WorkerRegistry.isAvailable in Hav.
    destruct (w_status worker); cbn in Hav; split; congruence.
Qed.

Lemma chooseDecision_worker (d : t) (env : Env) (task : Task)
    (chosen : SchedulingDecision) :
  WellKeyed (registry d) ->
  -1 <= RoundRobinScheduler.lastIndex (fallbackScheduler d) ->
  fst (fst (chooseDecision d env task)) = Some chosen ->
  d_taskId chosen = task_id task
  /\ (exists worker,
        WorkerRegistry.get (registry d) (d_workerId chosen) = Some worker
        /\ w_status worker <> offline /\ w_status worker <> draining)
  /\ (usedFallback chosen = false <-> reason chosen = prediction)
  /\ (usedFallback chosen = false <-> d_prediction chosen <> None).
Proof.
  intros Hwk Hc. unfold chooseDecision.
  destruct (tryPrediction d env task) as [[predicted cb] effs] eqn:Etry.
  destruct predicted as [decision|].
  - cbn [fst snd]. intros [= ->]. unfold tryPrediction in Etry.
    destruct (negb (isOpen (circuitBreaker d))); [|discriminate].
    destruct (predict env task) as [[predicted|]|err]; try discriminate.
    + destruct (WorkerRegistry.get _ _) as [worker|] eqn:Eget; [|discriminate].
      destruct (negb _ && negb _) eqn:Est; [|discriminate].
      injection Etry as <- _ _. cbn.
      split; [reflexivity|]. split; [|split; split; congruence].
      exists worker. split; [exact Eget|].
      destruct (w_status worker); cbn in Est; split; congruence.
    + destruct (recordFailure _ _ _). discriminate.
  - pose proof (schedule_names_available (registry d) (fallbackScheduler d) task
                  (if isOpen cb then fallback_circuit_breaker
                   else fallback_round_robin) (now env) Hc) as Hsound.
    destruct (RoundRobinScheduler.schedule _ _ _ _ _) as [[decision|] fs];
      cbn [fst snd] in *; [|discriminate].
    intros [= ->]. destruct Hsound as (worker & Hin & ->).
    cbn. split; [reflexivity|].
    destruct (available_worker_registered _ _ _ _ Hwk Hin) as (Hget & Hoff & Hdr).
    split; [exists worker; auto|].
    destruct (isOpen cb); split; split; congruence.
Qed.

Lemma publishAndAck_result (d : t) (env : Env) (task : Task)
    (messageId : option string) (chosen : SchedulingDecision) :
  let result := fst (publishAndAck d env task messageId chosen) in
  decision result = chosen
  /\ (success result = true <-> error result = None).
Proof.
  unfold publishAndAck. destruct (redis d); [|cbn; tauto].
  destruct (publish env _ _); [|cbn; split; [reflexivity|split; discriminate]].
  destruct messageId as [[|c rest]|]; try (cbn; tauto).
  destruct (xack env _ _ _); cbn; [tauto|].
  split; [reflexivity|split; discriminate].
Qed.

(** The result of a dispatch reports the task's id, and succeeds exactly
    when it carries no error.  On a registry with one worker per id, a
    successful dispatch names a registered worker that is neither offline
    nor draining, whether the worker came from the prediction or from the
    round-robin fallback; the decision is marked as a fallback exactly when
    its reason is not the prediction. *)
Theorem successful_dispatch_names_live_worker (d : t) (env : Env) (task : Task)
    (messageId : option string) :
  WellKeyed (registry d) ->
  -1 <= RoundRobinScheduler.lastIndex (fallbackScheduler d) ->
  let result := fst (fst (dispatchTask d env task messageId)) in
  d_taskId (decision result) = task_id task
  /\ (success result = true <-> error result = None)
  /\ (usedFallback (decision result) = false
      <-> reason (decision result) = prediction)
  /\ (success result = true ->
      exists worker,
        WorkerRegistry.get (registry d) (d_workerId (decision result)) = Some worker
        /\ w_status worker <> offline /\ w_status worker <> draining).
Proof.
  intros Hwk Hc. cbv zeta. unfold dispatchTask.
  pose proof (chooseDecision_worker d env task) as Hchoose.
  destruct (chooseDecision d env task) as [[chosen d'] effs1].
  cbn [fst snd] in Hchoose. destruct chosen as [chosen|].
  - destruct (Hchoose chosen Hwk Hc eq_refl) as (Hid & Hworker & Hflag & _).
    pose proof (publishAndAck_result d' env task messageId chosen) as [Hdec Hsucc].
    destruct (publishAndAck d' env task messageId chosen) as [result effs2].
    cbn [fst snd] in *. rewrite Hdec. repeat split; try tauto.
  - cbn. repeat split; try discriminate.
Qed.

Lemma successful_dispatch_names_live_worker_witness :
  let d := exampleDispatcher closedBreaker in
  let env := exampleEnv (Resolved None) RedisOk RedisOk in
  let result := fst (fst (dispatchTask d env (exampleTask "t1") (Some "1-0"))) in
  d_taskId (decision result) = task_id (exampleTask "t1")
  /\ (success result = true <-> error result = None)
  /\ (usedFallback (decision result) = false
      <-> reason (decision result) = prediction)
  /\ (success result = true ->
      exists worker,
        WorkerRegistry.get (registry d) (d_workerId (decision result)) = Some worker
        /\ w_status worker <> offline /\ w_status worker <> draining).
Proof.
  apply (successful_dispatch_names_live_worker (exampleDispatcher closedBreaker)
           (exampleEnv (Resolved None) RedisOk RedisOk) (exampleTask "t1")
           (Some "1-0")).
  - unfold exampleDispatcher, exampleRegistry. cbn [registry].
    repeat apply register_WellKeyed. apply create_WellKeyed.
  - cbn. lia.
Defined.

Lemma publishAndAck_xack (d : t) (env : Env) (task : Task)
    (messageId : option string) (chosen : SchedulingDecision)
    (stream group mid : string) :
  In (Xack stream group mid) (snd (publishAndAck d env task messageId chosen)) ->
  stream = TASK_STREAM /\ group = GROUP /\ messageId = Some mid
  /\ mid <> EmptyString /\ redis d = true
  /\ publish env (dispatchChannel chosen) (dispatchMessage task chosen) = RedisOk
  /\ snd (publishAndAck d env task messageId chosen)
     = [Publish (dispatchChannel chosen) (dispatchMessage task chosen);
        Xack TASK_STREAM GROUP mid].
Proof.
  unfold publishAndAck. fold (dispatchChannel chosen). fold (dispatchMessage task chosen).
  destruct (redis d); [|intros []].
  destruct (publish env _ _) eqn:Epub; [|intros [H|[]]; discriminate H].
  destruct messageId as [[|c rest]|]; try (intros [H|[]]; discriminate H).
  destruct (xack env _ _ _); cbn [snd];
    (intros [H|[H|[]]]; [discriminate H|]; injection H as <- <- <-;
     repeat split; discriminate).
Qed.

Lemma In_existsb_false {A : Type} (f : A -> bool) (l : list A) (x : A) :
  existsb f l = false -> f x = true -> ~ In x l.
Proof.
  intros Hno Hx Hin.
  assert (existsb f l = true) as Hyes by (apply existsb_exists; eauto).
  congruence.
Qed.

Lemma tryPrediction_no_publish (d : t) (env : Env) (task : Task) :
  existsb isPublish (snd (tryPrediction d env task)) = false.
Proof.
  unfold tryPrediction. destruct (negb _); [|reflexivity].
  destruct (predict env task) as [[predicted|]|err]; try reflexivity.
  - destruct (WorkerRegistry.get _ _); [|reflexivity].
    destruct (negb _ && negb _); reflexivity.
  - unfold recordFailure. destruct (_ <=? _)%Z; reflexivity.
Qed.

Lemma dispatchTask_xack (d : t) (env : Env) (task : Task)
    (messageId : option string) (stream group mid : string) :
  In (Xack stream group mid) (snd (dispatchTask d env task messageId)) ->
  messageId = Some mid.
Proof.
  unfold dispatchTask.
  pose proof (chooseDecision_effects d env task) as Heffs.
  pose proof (tryPrediction_no_xack d env task) as Hnox.
  destruct (chooseDecision d env task) as [[chosen d'] effs1].
  cbn [fst snd] in *. rewrite <- Heffs in Hnox.
  destruct chosen as [chosen|].
  - pose proof (publishAndAck_xack d' env task messageId chosen stream group mid)
      as Hack.
    destruct (publishAndAck d' env task messageId chosen) as [result effs2].
    cbn [fst snd] in *. intros Hin.
    apply in_app_or in Hin as [Hin|Hin];
      [exfalso; exact (In_existsb_false isXack _ (Xack stream group mid) Hnox eq_refl Hin)|].
    apply Hack, Hin.
  - cbn [fst snd]. intros Hin.
    exfalso. exact (In_existsb_false isXack _ (Xack stream group mid) Hnox eq_refl Hin).
Qed.

(** An acknowledgment is sent only by a connected dispatcher, only for the
    non-empty message id it was given, on the task stream and the scheduler
    group, and only as the last effect, directly after the one publish of
    the call, which went to the chosen worker's channel and succeeded. *)
Theorem ack_follows_successful_publish (d : t) (env : Env) (task : Task)
    (messageId : option string) (stream group mid : string) :
  In (Xack stream group mid) (snd (dispatchTask d env task messageId)) ->
  let chosen := decision (fst (fst (dispatchTask d env task messageId))) in
  stream = TASK_STREAM /\ group = GROUP /\ messageId = Some mid
  /\ mid <> EmptyString /\ redis d = true
  /\ publish env (dispatchChannel chosen) (dispatchMessage task chosen) = RedisOk
  /\ exists before,
       snd (dispatchTask d env task messageId)
       = before ++ [Publish (dispatchChannel chosen) (dispatchMessage task chosen);
                    Xack TASK_STREAM GROUP mid]
       /\ existsb isXack before = false /\ existsb isPublish before = false.
Proof.
  cbv zeta. unfold dispatchTask.
  pose proof (chooseDecision_effects d env task) as Heffs.
  pose proof (tryPrediction_no_xack d env task) as Hnox.
  pose proof (tryPrediction_no_publish d env task) as Hnop.
  destruct (chooseDecision_frame d env task) as (Hredis & _). cbv zeta in Hredis.
  destruct (chooseDecision d env task) as [[chosen d'] effs1].
  cbn [fst snd] in *. rewrite <- Heffs in Hnox, Hnop.
  destruct chosen as [chosen|].
  - pose proof (publishAndAck_result d' env task messageId chosen) as [Hdec _].
    pose proof (publishAndAck_xack d' env task messageId chosen stream group mid)
      as Hack.
    destruct (publishAndAck d' env task messageId chosen) as [result effs2].
    cbn [fst snd] in *. rewrite Hdec. intros Hin.
    apply in_app_or in Hin as [Hin|Hin];
      [exfalso; exact (In_existsb_false isXack _ (Xack stream group mid) Hnox eq_refl Hin)|].
    destruct (Hack Hin) as (-> & -> & -> & Hne & Hr & Hpub & ->).
    rewrite <- Hredis. repeat split; try assumption.
    exists effs1. repeat split; assumption.
  - cbn [fst snd]. intros Hin.
    exfalso. exact (In_existsb_false isXack _ (Xack stream group mid) Hnox eq_refl Hin).
Qed.


Lemma ack_follows_successful_publish_witness :
  let d := exampleDispatcher closedBreaker in
  let env := exampleEnv (Resolved None) RedisOk RedisOk in
  let task := exampleTask "t1" in
  let chosen := decision (fst (fst (dispatchTask d env task (Some "1-0")))) in
  TASK_STREAM = TASK_STREAM /\ GROUP = GROUP /\ Some "1-0" = Some "1-0"
  /\ "1-0" <> EmptyString /\ redis d = true
  /\ publish env (dispatchChannel chosen) (dispatchMessage task chosen) = RedisOk
  /\ exists before,
       snd (dispatchTask d env task (Some "1-0"))
       = before ++ [Publish (dispatchChannel chosen) (dispatchMessage task chosen);
                    Xack TASK_STREAM GROUP "1-0"]
       /\ existsb isXack before = false /\ existsb isPublish before = false.
Proof.
  apply (ack_follows_successful_publish (exampleDispatcher closedBreaker)
           (exampleEnv (Resolved None) RedisOk RedisOk) (exampleTask "t1")
           (Some "1-0") TASK_STREAM GROUP "1-0").
  vm_compute. right. right. left. reflexivity.
Defined.

(** A dispatcher without a Redis client publishes and acknowledges nothing,
    and still reports success whenever a worker was chosen: its only
    failure is "No workers available". *)
Theorem dispatch_without_redis (d : t) (env : Env) (task : Task)
    (messageId : option string) :
  redis d = false ->
  let result := fst (fst (dispatchTask d env task messageId)) in
  let effects := snd (dispatchTask d env task messageId) in
  existsb isPublish effects = false
  /\ existsb isXack effects = false
  /\ (success result = false -> error result = Some "No workers available")
  /\ (success result = true <-> fst (fst (chooseDecision d env task)) <> None).
Proof.
  intros Hr. cbv zeta. unfold dispatchTask.
  pose proof (chooseDecision_effects d env task) as Heffs.
  pose proof (tryPrediction_no_xack d env task) as Hnox.
  pose proof (tryPrediction_no_publish d env task) as Hnop.
  destruct (chooseDecision_frame d env task) as (Hredis & _). cbv zeta in Hredis.
  destruct (chooseDecision d env task) as [[chosen d'] effs1].
  cbn [fst snd] in *. rewrite <- Heffs in Hnox, Hnop. rewrite Hr in Hredis.
  destruct chosen as [chosen|].
  - unfold publishAndAck. rewrite Hredis. cbn [fst snd success error].
    rewrite app_nil_r. repeat split; try assumption; try discriminate.
  - cbn [fst snd success error]. repeat split; try assumption; try discriminate.
    intros H. congruence.
Qed.

Lemma dispatch_without_redis_witness :
  let d := create exampleRegistry (DEFAULT_SCHEDULER_CONFIG "redis://localhost:6379")
                  "dispatcher-0" in
  let env := exampleEnv (Resolved None) (RedisThrows OtherValue) RedisOk in
  let result := fst (fst (dispatchTask d env (exampleTask "t1") (Some "1-0"))) in
  let effects := snd (dispatchTask d env (exampleTask "t1") (Some "1-0")) in
  existsb isPublish effects = false
  /\ existsb isXack effects = false
  /\ (success result = false -> error result = Some "No workers available")
  /\ (success result = true
      <-> fst (fst (chooseDecision d env (exampleTask "t1"))) <> None).
Proof.
  apply (dispatch_without_redis
           (create exampleRegistry (DEFAULT_SCHEDULER_CONFIG "redis://localhost:6379")
                   "dispatcher-0")
           (exampleEnv (Resolved None) (RedisThrows OtherValue) RedisOk)
           (exampleTask "t1") (Some "1-0")).
  reflexivity.
Defined.
End DispatcherLaws.

Section ConsumeLaws.
Import Dispatcher.
Variable JSON_parse : string -> option json.
Variable ToNumber : json -> num.

(** Every acknowledgment that the consume loop sends carries the id of an
    entry delivered by one of its reads: an id is never acknowledged
    without having been read. *)
Theorem acknowledged_ids_were_read (d : t) (turns : list (Env * ReadOutcome))
    (stream group mid : string) :
  In (Xack stream group mid) (snd (consumeLoop JSON_parse ToNumber d turns)) ->
  exists env messages,
    In (env, ReadMessages messages) turns
    /\ In mid (fst <$> concat (snd <$> messages)).
Proof.
  revert d. induction turns as [|[env read] rest IH]; intros d; [intros []|].
  cbn [consumeLoop]. destruct (running d && redis d); [|intros []].
  destruct read as [err| |messages].
  - specialize (IH d). destruct (consumeLoop JSON_parse ToNumber d rest) as [d2 effs2].
    cbn [snd] in *. intros [H|[H|[H|Hin]]]; try discriminate H.
    destruct (IH Hin) as (env' & messages & Hturn & Hmid).
    exists env', messages. split; [right; exact Hturn|exact Hmid].
  - specialize (IH d). destruct (consumeLoop JSON_parse ToNumber d rest) as [d2 effs2].
    cbn [snd app] in *. intros [H|Hin]; [discriminate H|].
    destruct (IH Hin) as (env' & messages & Hturn & Hmid).
    exists env', messages. split; [right; exact Hturn|exact Hmid].
  - pose proof (processEntries_xack JSON_parse ToNumber d env
                  (concat (snd <$> messages)) stream group mid) as Hbatch.
    assert (forall d1 effs1,
              snd (fst (processEntries JSON_parse ToNumber d env
                          (concat (snd <$> messages)))) = effs1 ->
              In (Xack stream group mid)
                 (snd (let '(d2, effs2) := consumeLoop JSON_parse ToNumber d1 rest in
                       (d2, Xreadgroup GROUP (consumerName d) TASK_STREAM
                              :: effs1 ++ effs2))) \/
              In (Xack stream group mid)
                 (snd (let '(d2, effs2) := consumeLoop JSON_parse ToNumber d1 rest in
                       (d2, Xreadgroup GROUP (consumerName d) TASK_STREAM
                              :: (effs1 ++ loopCatch) ++ effs2))) ->
              exists env' messages',
                In (env', ReadMessages messages') ((env, ReadMessages messages) :: rest)
                /\ In mid (fst <$> concat (snd <$> messages'))) as Hturn.
    { intros d1 effs1 Heffs Hin. specialize (IH d1).
      destruct (consumeLoop JSON_parse ToNumber d1 rest) as [d2 effs2].
      cbn [snd] in *.
      assert (In (Xack stream group mid) effs1 \/ In (Xack stream group mid) effs2)
        as [Hhere|Hlater].
      { destruct Hin as [[H|Hin]|[H|Hin]]; try discriminate H;
          repeat (apply in_app_or in Hin as [Hin|Hin]); auto.
        destruct Hin as [H|[H|[]]]; discriminate H. }
      - exists env, messages. split; [left; reflexivity|].
        rewrite <- Heffs in Hhere.
        destruct (Hbatch Hhere) as (entry & Hentry & -> & _).
        apply list_elem_of_In, list_elem_of_fmap. exists entry.
        split; [reflexivity|apply list_elem_of_In; exact Hentry].
      - destruct (IH Hlater) as (env' & messages' & Hrest & Hmid).
        exists env', messages'. split; [right; exact Hrest|exact Hmid]. }
    destruct (processEntries JSON_parse ToNumber d env (concat (snd <$> messages)))
      as [[d1 effs1] [err|]]; intros Hin.
    + apply (Hturn d1 effs1 eq_refl). right. exact Hin.
    + apply (Hturn d1 effs1 eq_refl). left. exact Hin.
Qed.
End ConsumeLaws.

Lemma acknowledged_ids_were_read_witness :
  let d := exampleDispatcher closedBreaker in
  let env := exampleEnv (Resolved None) RedisOk RedisOk in
  let batch := [(Dispatcher.TASK_STREAM,
                 [("1-0", ["id"; "t1"; "payload"; "{}"]);
                  ("2-0", ["id"; "t2"; "payload"; "{bad"])])] in
  exists env' messages,
    In (env', Dispatcher.ReadMessages messages) [(env, Dispatcher.ReadMessages batch)]
    /\ In "1-0" (fst <$> concat (snd <$> messages)).
Proof.
  apply (acknowledged_ids_were_read JsonText.parse JsonText.toNumber
           (exampleDispatcher closedBreaker)
           [(exampleEnv (Resolved None) RedisOk RedisOk,
             Dispatcher.ReadMessages
               [(Dispatcher.TASK_STREAM,
                 [("1-0", ["id"; "t1"; "payload"; "{}"]);
                  ("2-0", ["id"; "t2"; "payload"; "{bad"])])])]
           Dispatcher.TASK_STREAM Dispatcher.GROUP "1-0").
  vm_compute. right. right. right. left. reflexivity.
Defined.

(** A message whose metadata names its capabilities by a string and not by
    an array: the fallback scheduler throws a TypeError when it tests the
    first available worker, [dispatchTask] rejects, and the loop leaves the
    batch for its [catch] clause.  Neither this message nor the one after it
    is published or acknowledged. *)
Example ill_typed_capabilities_leave_the_batch :
  let d := exampleDispatcher closedBreaker in
  let env := exampleEnv (Resolved None) RedisOk RedisOk in
  let metadata :=
    String.append "{" (String.append (quoted "requiredCapabilities")
                         (String.append ":" (String.append (quoted "gpu") "}"))) in
  let batch := [(Dispatcher.TASK_STREAM,
                 [("1-0", ["id"; "t1"; "metadata"; metadata]);
                  ("2-0", ["id"; "t2"; "payload"; "{}"])])] in
  let effects :=
    snd (Dispatcher.consumeLoop JsonText.parse JsonText.toNumber d
           [(env, Dispatcher.ReadMessages batch)]) in
  List.filter (fun e => isXack e || isPublish e) effects = []
  /\ List.filter (fun e => negb (isPredictCall e)) effects
     = Dispatcher.Xreadgroup Dispatcher.GROUP (Dispatcher.consumerName d)
         Dispatcher.TASK_STREAM
       :: Dispatcher.loopCatch.
Proof. vm_compute. split; reflexivity. Qed.

(** ** The availability calculator *)

Section CalculatorLaws.
Import AvailabilityCalculator.

(** The load computed from a heartbeat is a number in [0, 1] whenever the
    CPU and memory usages are not NaN, however far outside [0, 1] they are;
    for usages within [0, 1] it is 0.6 cpu + 0.4 memory. *)
Theorem calculateCurrentLoad_range (cpu memory : num) :
  is_nan cpu = false -> is_nan memory = false ->
  (exists q : Q, calculateCurrentLoad cpu memory = Fin q /\ (0 <= q <= 1)%Q)
  /\ forall c m : Q,
       cpu = Fin c -> memory = Fin m ->
       (0 <= c <= 1)%Q -> (0 <= m <= 1)%Q ->
       (calculateCurrentLoad cpu memory
        =? Fin ((6 # 10) * c + (4 # 10) * m))%num = true.
Proof.
  intros Hc Hm. unfold calculateCurrentLoad. split.
  - destruct (clamp_in_range cpu Hc) as [C0 C1]. cbv zeta in C0, C1.
    destruct (clamp_in_range memory Hm) as [M0 M1]. cbv zeta in M0, M1.
    destruct (unit_range_Fin _ C0 C1) as (c & -> & Rc).
    destruct (unit_range_Fin _ M0 M1) as (m & -> & Rm).
    eexists. split; [reflexivity|]. split; nra.
  - intros c m -> -> Rc Rm.
    destruct (clamp_Fin c) as (c' & -> & _ & _ & _ & Ec).
    destruct (clamp_Fin m) as (m' & -> & _ & _ & _ & Em).
    specialize (Ec Rc). specialize (Em Rm).
    unfold LOAD_WEIGHTS_CPU, LOAD_WEIGHTS_MEMORY, dec. cbn [JS.mul JS.add].
    apply eqb_Fin. rewrite Ec, Em. reflexivity.
Qed.

Lemma calculateCurrentLoad_range_witness :
  (exists q : Q, calculateCurrentLoad (dec 15 10) (dec 5 10) = Fin q
                 /\ (0 <= q <= 1)%Q)
  /\ forall c m : Q,
       dec 15 10 = Fin c -> dec 5 10 = Fin m ->
       (0 <= c <= 1)%Q -> (0 <= m <= 1)%Q ->
       (calculateCurrentLoad (dec 15 10) (dec 5 10)
        =? Fin ((6 # 10) * c + (4 # 10) * m))%num = true.
Proof.
  apply (calculateCurrentLoad_range (dec 15 10) (dec 5 10)); reflexivity.
Defined.

(** The classification by [determineHealthStatus] agrees with the two
    predicates of the calculator: "removed" exactly when the worker should
    be removed, "removed" or "unhealthy" exactly when it should be marked
    unhealthy; a worker that should be removed should also be marked
    unhealthy, and the load is consulted only for a fresh heartbeat. *)
Theorem health_status_agrees (lastHeartbeatMs : Z) (load : num) (now : Z) :
  (determineHealthStatus lastHeartbeatMs load now = removed
   <-> shouldRemoveWorker lastHeartbeatMs now = true)
  /\ (determineHealthStatus lastHeartbeatMs load now = removed
      \/ determineHealthStatus lastHeartbeatMs load now = unhealthy
      <-> shouldMarkUnhealthy lastHeartbeatMs now = true)
  /\ (shouldRemoveWorker lastHeartbeatMs now = true ->
      shouldMarkUnhealthy lastHeartbeatMs now = true)
  /\ (shouldMarkUnhealthy lastHeartbeatMs now = false ->
      determineHealthStatus lastHeartbeatMs load now
      = if (load >=? DEGRADED_LOAD)%num then degraded else healthy).
Proof.
  unfold determineHealthStatus, shouldRemoveWorker, shouldMarkUnhealthy,
    REMOVED_TIMEOUT_MS, UNHEALTHY_TIMEOUT_MS.
  destruct (Z.leb_spec 300000 (now - lastHeartbeatMs));
    destruct (Z.leb_spec 30000 (now - lastHeartbeatMs)); try lia;
    destruct (load >=? DEGRADED_LOAD)%num;
    repeat split; try tauto; try discriminate; try (intros [H'|H']; discriminate H').
Qed.

Lemma TimeClip_lower_bound (x : Q) (lower t : Z) :
  (inject_Z lower <= x)%Q -> TimeClip (Fin x) = Some t -> (lower <= t)%Z.
Proof.
  unfold TimeClip. destruct (Qle_bool _ _); [|discriminate].
  intros Hx [= <-]. destruct x as [n p]. unfold Qle in Hx.
  cbn [Qnum Qden inject_Z] in *. rewrite Z.mul_1_r in Hx.
  assert (0 < Z.pos p)%Z as Hp by lia. revert Hx Hp.
  generalize (Z.pos p) as b. intros b Hx Hp.
  pose proof (Z.quot_rem' n b) as E.
  destruct (Z.le_gt_cases lower (Z.quot n b)) as [L|L]; [exact L|exfalso].
  assert (b * (Z.quot n b + 1) <= b * lower)%Z as Hm by (apply Z.mul_le_mono_nonneg_l; lia).
  destruct (Z.le_gt_cases 0 n) as [Hn|Hn].
  - pose proof (Z.rem_bound_pos n b Hn Hp). lia.
  - pose proof (Z.rem_bound_pos_neg n b Hp ltac:(lia)). lia.
Qed.

(** With a queue depth and an average duration that are non-negative
    numbers, the estimated availability is never before [now]; it is
    [now] itself for an empty queue. *)
Theorem estimated_availability_not_before_now (queue average : Q)
    (now instant : Z) :
  (0 <= queue)%Q -> (0 <= average)%Q ->
  (calculateEstimatedAvailableAt (Fin queue) (Fin average) now = Some instant ->
   (now <= instant)%Z)
  /\ ((Z.abs now <= 8640000000000000)%Z ->
      calculateEstimatedAvailableAt JS.zero (Fin average) now = Some now).
Proof.
  intros Hq Ha. unfold calculateEstimatedAvailableAt. cbn [JS.mul JS.add JS.of_Z JS.zero].
  split.
  - apply TimeClip_lower_bound. nra.
  - intros Hnow. unfold TimeClip.
    assert (Qle_bool (Qabs (inject_Z now + 0 * average)) (inject_Z 8640000000000000)
            = true) as ->.
    { apply Qle_bool_iff. apply Qabs_Qle_condition.
      assert (inject_Z (- 8640000000000000) <= inject_Z now
              /\ inject_Z now <= inject_Z 8640000000000000)%Q as [L U]
        by (split; rewrite <- Zle_Qle; lia).
      change (inject_Z (- 8640000000000000)) with (- inject_Z 8640000000000000)%Q in L.
      split; lra. }
    f_equal. destruct average as [n p]. cbn.
    rewrite !Pos.mul_1_l, Z.mul_0_l, Z.add_0_r.
    apply Z.quot_mul. lia.
Qed.

Lemma estimated_availability_not_before_now_witness :
  (calculateEstimatedAvailableAt (Fin 3) (Fin 5000) 1000 = Some 16000%Z ->
   (1000 <= 16000)%Z)
  /\ ((Z.abs 1000 <= 8640000000000000)%Z ->
      calculateEstimatedAvailableAt JS.zero (Fin 5000) 1000 = Some 1000%Z).
Proof.
  apply (estimated_availability_not_before_now 3 5000 1000 16000); discriminate.
Defined.
End CalculatorLaws.

(** ** The shadow scheduler *)

Section ShadowLaws.
Import ShadowScheduler MultiObjectiveScorer.

Lemma score_single (config : ScorerConfig) (task : Task) (worker : WorkerState)
    (prediction : option TaskPrediction) :
  Objectives.isWorkerEligible worker (task_capabilities task) = true ->
  score_value <$> score config task [worker] prediction
  = Some (scoreOf config task prediction worker).
Proof.
  intros He. unfold score. cbn [List.filter]. rewrite He. reflexivity.
Qed.

Lemma score_best_of_all (config : ScorerConfig) (task : Task)
    (workers : list WorkerState) (prediction : option TaskPrediction)
    (result : ScoringResult) (worker : WorkerState) :
  Forall (fun w => isFiniteNum (scoreOf config task prediction w) = true)
         (eligibleWorkers task workers) ->
  score config task workers prediction = Some result ->
  In worker (eligibleWorkers task workers) ->
  exists best actual : Q,
    score_value result = Fin best
    /\ scoreOf config task prediction worker = Fin actual
    /\ (actual <= best)%Q.
Proof.
  intros Hfin Hscore Hin.
  set (f := fun worker => scoreWorker config task worker prediction).
  destruct (sort_head_first_best ws_score (f <$> eligibleWorkers task workers))
    as (pre & best & post & El & Hd & Hpre & Hpost).
  { apply List.Forall_forall. intros a Ha. apply in_map_iff in Ha as (w & <- & Hw).
    rewrite List.Forall_forall in Hfin. specialize (Hfin w Hw).
    unfold scoreOf in Hfin. fold (f w) in Hfin.
    destruct (ws_score (f w)); [discriminate|reflexivity..]. }
  { destruct (eligibleWorkers task workers); [destruct Hin|discriminate]. }
  unfold score in Hscore. fold (eligibleWorkers task workers) in Hscore. fold f in Hscore.
  change (descendingBy ws_score) with byScoreDescending in Hd.
  destruct (eligibleWorkers task workers) as [|e es] eqn:Ee; [destruct Hin|].
  rewrite <- Ee in *. clear Ee.
  destruct (ArraySort.sort byScoreDescending (f <$> eligibleWorkers task workers))
    as [|b alts]; [discriminate Hd|].
  cbn in Hd. injection Hd as ->. injection Hscore as <-. cbn [score_value].
  assert (In (f worker) (f <$> eligibleWorkers task workers)) as Hf
    by (apply in_map_iff; eauto).
  assert (forall a, In a (f <$> eligibleWorkers task workers) ->
                    isFiniteNum (ws_score a) = true) as Hfin'.
  { intros a Ha. apply in_map_iff in Ha as (w & <- & Hw).
    rewrite List.Forall_forall in Hfin. exact (Hfin w Hw). }
  pose proof (Hfin' best ltac:(rewrite El; apply in_or_app; right; left; reflexivity))
    as Hb.
  pose proof (Hfin' (f worker) Hf) as Hw.
  unfold scoreOf. fold (f worker).
  destruct (ws_score best) as [| | |qb] eqn:Eb; try discriminate.
  destruct (ws_score (f worker)) as [| | |qa] eqn:Ea; try discriminate.
  exists qb, qa. repeat split.
  rewrite El in Hf. apply in_app_or in Hf as [Hf|[Hf|Hf]].
  - specialize (Hpre _ Hf). rewrite ?Ea, ?Eb in Hpre. apply ltb_Fin in Hpre. lra.
  - rewrite Hf in Eb. rewrite Eb in Ea. injection Ea as ->. lra.
  - specialize (Hpost _ Hf). rewrite ?Ea, ?Eb in Hpost. apply leb_Fin in Hpost. exact Hpost.
Qed.

(** When the scores of the available workers are finite numbers and the
    predictor resolves, [shadow] resolves and the improvement it reports is
    never negative: the scorer's
    choice scores at least as much as the worker actually used, so the
    "would worsen" branch of the analysis is not reached by such results. *)
Theorem shadow_improvement_not_negative (config : ScorerConfig)
    (registry : WorkerRegistry.t) (task : Task)
    (forecast : option TaskPrediction)
    (actualDecision : option SchedulingDecision) (now : Z) (s : t) :
  Forall (fun w => isFiniteNum (scoreOf config task forecast w) = true)
         (WorkerRegistry.getAvailable registry (task_capabilities task) now) ->
  match fst (shadow config registry (Resolved forecast) s task actualDecision now) with
  | Rejected _ => False
  | Resolved result =>
      match improvement result with
      | None => True
      | Some gain => (JS.zero <=? gain)%num = true
      end
  end.
Proof.
  intros Hfin. cbn [shadow fst].
  unfold compare. cbn [improvement].
  set (workers := WorkerRegistry.getAvailable registry (task_capabilities task) now) in *.
  assert (eligibleWorkers task workers = workers) as Hel
    by (apply getAvailable_eligible).
  destruct (score config task workers forecast) as [sr|] eqn:Es; [|exact I].
  destruct actualDecision as [ad|]; [|exact I].
  destruct (find _ workers) as [actualWorker|] eqn:Ef; [|exact I].
  apply find_some in Ef as [Hin _].
  assert (Objectives.isWorkerEligible actualWorker (task_capabilities task) = true)
    as Heligible.
  { rewrite <- Hel in Hin. unfold eligibleWorkers in Hin.
    apply filter_In in Hin as [_ H]. exact H. }
  pose proof (score_single config task actualWorker forecast Heligible) as Hone.
  destruct (score config task [actualWorker] forecast) as [actualScore|];
    [|discriminate Hone].
  cbn [fmap option_fmap option_map] in Hone. injection Hone as ->.
  destruct (score_best_of_all config task workers forecast sr actualWorker)
    as (best & actual & -> & -> & Hle).
  - rewrite Hel. exact Hfin.
  - exact Es.
  - rewrite Hel. exact Hin.
  - cbn [JS.sub JS.neg JS.add]. apply leb_Fin. lra.
Qed.

Lemma shadow_improvement_not_negative_witness :
  match fst (shadow DEFAULT_SCORER_CONFIG exampleRegistry (Resolved None)
                    (enable (create 10000)) (exampleTask "t1")
                    (Some {| d_taskId := "t1"; d_workerId := "w3"; d_timestamp := 1000;
                             usedFallback := true; d_prediction := None;
                             reason := fallback_round_robin |}) 1000) with
  | Rejected _ => False
  | Resolved result =>
      match improvement result with
      | None => True
      | Some gain => (JS.zero <=? gain)%num = true
      end
  end.
Proof.
  apply (shadow_improvement_not_negative DEFAULT_SCORER_CONFIG exampleRegistry
           (exampleTask "t1") None
           (Some {| d_taskId := "t1"; d_workerId := "w3"; d_timestamp := 1000;
                    usedFallback := true; d_prediction := None;
                    reason := fallback_round_robin |}) 1000 (enable (create 10000))).
  vm_compute. repeat constructor.
Defined.

Lemma analysis_counts (results : list ShadowResult)
    (acc : Z * Z * Z * num * num) :
  let count := fun a : Z * Z * Z * num * num =>
    let '(wouldImprove, wouldWorsen, noChange, _, _) := a in
    (wouldImprove, wouldWorsen, noChange) in
  let '(i0, w0, n0) := count acc in
  let '(i, w, n) := count (fold_left analysisStep results acc) in
  (i0 <= i /\ w0 <= w /\ n0 <= n
   /\ i + w + n = i0 + w0 + n0 + Z.of_nat (length results))%Z.
Proof.
  cbv zeta. revert acc. induction results as [|result rest IH]; intros acc.
  - destruct acc as [[[[i0 w0] n0] g] l]. cbn. lia.
  - cbn [fold_left]. specialize (IH (analysisStep acc result)).
    destruct acc as [[[[i0 w0] n0] g] l].
    destruct (fold_left analysisStep rest _) as [[[[i w] n] g'] l'].
    unfold analysisStep in IH.
    destruct (improvement result) as [imp|];
      [destruct (imp =? JS.zero)%num; [|destruct (imp >? JS.zero)%num]|];
      cbn [length]; lia.
Qed.

(** The improvement analysis counts every stored result exactly once: the
    three counters are non-negative and add up to the number of results,
    and an average is reported as 0 when its counter is 0. *)
Theorem improvement_analysis_counts_every_result (s : t) :
  let analysis := getImprovementAnalysis s in
  (0 <= wouldImprove analysis /\ 0 <= wouldWorsen analysis
   /\ 0 <= noChange analysis
   /\ wouldImprove analysis + wouldWorsen analysis + noChange analysis
      = Z.of_nat (length (results s)))%Z
  /\ (wouldImprove analysis = 0%Z -> avgPositiveGain analysis = JS.zero)
  /\ (wouldWorsen analysis = 0%Z -> avgNegativeLoss analysis = JS.zero).
Proof.
  cbv zeta. unfold getImprovementAnalysis.
  pose proof (analysis_counts (results s) (0, 0, 0, JS.zero, JS.zero)%Z) as H.
  cbv zeta beta iota in H.
  destruct (fold_left analysisStep (results s) _) as [[[[i w] n] g] l].
  cbn [wouldImprove wouldWorsen noChange avgPositiveGain avgNegativeLoss].
  split; [lia|]. split; intros ->; reflexivity.
Qed.
End ShadowLaws.
